(** * djblets: web API authentication backends and extension hooks

    A shallow embedding of [djblets/webapi/auth.py] and
    [djblets/extensions/hooks.py], with the properties their design document
    states about them.

    Python objects that are mutated in place (the module global
    [_auth_backends], the request's [user], the per-class [hooks] lists, the
    [_by_name] dictionary) are fields of an explicit state that every
    operation threads; an exception is a [Raise] result that keeps the state
    reached when it was raised, as Python does. *)

From Stdlib Require Import ZArith Ascii String.
From stdpp Require Import base tactics option list functions gmap strings
  fin_maps sorting.

Open Scope string_scope.
Open Scope list_scope.
Open Scope stdpp_scope.

(** ** Exceptions and the state-and-exception monad *)

Inductive Exn :=
| ImproperlyConfigured_import (module : string)
| ImproperlyConfigured_attr (module attr : string)
| ValueError
| KeyError
| AssertionError
| AttributeError
| NotImplementedError
| binascii_Error
| UnicodeDecodeError
| ContextPopException
| ConfigurationError
| TemplateError (msg : string).

Inductive result (A : Type) :=
| Return (a : A)
| Raise (e : Exn).
Arguments Return {A} a.
Arguments Raise {A} e.

Definition M (S A : Type) : Type := S → S * result A.

Definition ret {S A} (a : A) : M S A := λ s, (s, Return a).
Definition raise {S A} (e : Exn) : M S A := λ s, (s, Raise e).
Definition bind {S A B} (m : M S A) (k : A → M S B) : M S B :=
  λ s, match m s with
       | (s', Return a) => k a s'
       | (s', Raise e) => (s', Raise e)
       end.
Definition get {S} : M S S := λ s, (s, Return s).
Definition modify {S} (f : S → S) : M S unit := λ s, (f s, Return tt).

Notation "'do' x <- m ; k" := (bind m (λ x, k))
  (at level 10, x name, m at level 100, k at level 200).
Notation "'do_' m ; k" := (bind m (λ _, k))
  (at level 10, m at level 100, k at level 200).

(** [for x in l: body x], where the body may leave the loop with a value
    ([return] inside the loop) by answering [Some]. *)
Fixpoint for_return {S A B} (l : list A) (body : A → M S (option B))
  : M S (option B) :=
  match l with
  | [] => ret None
  | x :: l' =>
      do r <- body x;
      match r with
      | Some b => ret (Some b)
      | None => for_return l' body
      end
  end.

(** [try: body finally: final]: [final] runs whatever [body] did; the outcome
    is that of [body], unless [final] itself raises. *)
Definition try_finally {S A} (body : M S A) (final : M S unit) : M S A :=
  λ s, match body s with
       | (s', r) =>
           match final s' with
           | (s'', Return _) => (s'', r)
           | (s'', Raise e) => (s'', Raise e)
           end
       end.

(** [try: body except E: handler], where [caught] tells the exceptions that
    are instances of [E]; the handler runs in the state [body] had reached. *)
Definition try_except {S A} (body : M S A) (caught : Exn → bool)
    (handler : M S A) : M S A :=
  λ s, match body s with
       | (s', Raise e) => if caught e then handler s' else (s', Raise e)
       | (s', Return a) => (s', Return a)
       end.

(** A step that touches no state: it returns or raises. *)
Definition of_result {S A} (r : result A) : M S A := λ s, (s, r).

(** [for x in l: body x] for a body that returns nothing. *)
Fixpoint for_each {S A} (l : list A) (body : A → M S unit) : M S unit :=
  match l with
  | [] => ret tt
  | x :: l' => do_ body x; for_each l' body
  end.

(** ** Python string and list primitives used by the two files *)

(** [s.rfind(c)]: the index of the last occurrence, [-1] when there is none. *)
Fixpoint rfind_from (c : ascii) (s : string) (i last : Z) : Z :=
  match s with
  | EmptyString => last
  | String a s' =>
      rfind_from c s' (i + 1)%Z (if Ascii.eqb a c then i else last)
  end.
Definition rfind (s : string) (c : ascii) : Z := rfind_from c s 0%Z (-1)%Z.

Definition py_len (s : string) : Z := Z.of_nat (String.length s).

(** A slice bound as Python resolves it: a negative bound counts from the end,
    and the result is clipped to the string. *)
Definition slice_bound (s : string) (i : Z) : nat :=
  Z.to_nat (Z.min (py_len s)
              (if (i <? 0)%Z then Z.max 0 (py_len s + i) else i)).

(** [s[:i]] and [s[i:]]. *)
Definition slice_to (s : string) (i : Z) : string :=
  String.substring 0 (slice_bound s i) s.
Definition slice_from (s : string) (i : Z) : string :=
  String.substring (slice_bound s i) (String.length s - slice_bound s i) s.

(** [s.split(c)]: every piece between occurrences of [c]. *)
Fixpoint split_acc (c : ascii) (s : string) (cur : string) : list string :=
  match s with
  | EmptyString => [cur]
  | String a s' =>
      if Ascii.eqb a c then cur :: split_acc c s' EmptyString
      else split_acc c s' (cur +:+ String a EmptyString)
  end.
Definition str_split (s : string) (c : ascii) : list string :=
  split_acc c s EmptyString.

(** [s.split(c, 1)]: cut at the first occurrence only. *)
Fixpoint split1_acc (c : ascii) (s : string) (cur : string) : list string :=
  match s with
  | EmptyString => [cur]
  | String a s' =>
      if Ascii.eqb a c then [cur; s']
      else split1_acc c s' (cur +:+ String a EmptyString)
  end.
Definition str_split1 (s : string) (c : ascii) : list string :=
  split1_acc c s EmptyString.

(** [a, b = l]: unpacking into exactly two names raises [ValueError] for any
    other length. *)
Definition unpack2 {A} (l : list A) : result (A * A) :=
  match l with
  | [a; b] => Return (a, b)
  | _ => Raise ValueError
  end.

(** [l.remove(x)] deletes the first element equal to [x]; the caller checks
    membership where Python would raise [ValueError]. *)
Fixpoint list_remove_first {A} `{EqDecision A} (x : A) (l : list A) : list A :=
  match l with
  | [] => []
  | y :: l' => if decide (x = y) then l' else y :: list_remove_first x l'
  end.

(** [for x in xs: l.remove(x)], where an [x] that is absent is skipped. *)
Definition remove_each {A} `{EqDecision A} (xs : list A) (l : list A) : list A :=
  foldl (λ l x, list_remove_first x l) l xs.

(** [s.count(c)]: how many times the character occurs in the string. *)
Fixpoint count_char (c : ascii) (s : string) : nat :=
  match s with
  | EmptyString => 0
  | String a s' => (if Ascii.eqb a c then 1 else 0) + count_char c s'
  end.

(** ** Byte strings and text

    The two files start with [from __future__ import unicode_literals] and
    run under Python 2: the literals of the code are text, while the values
    of [request.META] and the output of the base64 codec are byte strings.
    A [string] that stands for one of these is a byte string, any other
    (a class path, a username, a message) is text.  Where Python mixes a
    byte string with text (a method called with a text argument, [%] with a
    text format) it first converts it with the ascii codec, which raises
    [UnicodeDecodeError] at a byte above 127.  A byte string that passes is
    the same characters as text. *)
Fixpoint is_ascii (s : string) : bool :=
  match s with
  | EmptyString => true
  | String (Ascii _ _ _ _ _ _ _ b7) s' => negb b7 && is_ascii s'
  end.

Definition to_unicode {S} (s : string) : M S string :=
  if is_ascii s then ret s else raise UnicodeDecodeError.

(** [except ValueError]: [UnicodeDecodeError] is a subclass of
    [ValueError]; [binascii.Error] is not. *)
Definition is_ValueError (e : Exn) : bool :=
  match e with
  | ValueError | UnicodeDecodeError => true
  | _ => false
  end.

(** * webapi/auth.py *)

Module Auth.

(** ** Data *)

(** A user as the login code sees it: [user.username], [user.is_active]. *)
Record User := { username : string; is_active : bool }.

Global Instance User_eq_dec : EqDecision User.
Proof. solve_decision. Defined.

(** [request.user]: Django's [AnonymousUser] (not authenticated, empty
    username) or a logged-in user. *)
Inductive RequestUser :=
| AnonymousUser
| LoggedIn (u : User).

Definition is_authenticated (u : RequestUser) : bool :=
  match u with AnonymousUser => false | LoggedIn _ => true end.

Definition username_of (u : RequestUser) : string :=
  match u with AnonymousUser => EmptyString | LoggedIn x => username x end.

Inductive LogLevel := DEBUG | WARNING.

(** What the module does to its collaborators, in the order it happens:
    records handed to [logging], and the calls [auth.authenticate],
    [auth.login] and [auth.logout] of [django.contrib.auth]. *)
Inductive Event :=
| Log (level : LogLevel) (msg : string)
| AuthAuthenticate (uname password : string)
| AuthLogin (u : User)
| AuthLogout.

(** The immutable part of a request: [request.META], whose values are byte
    strings. *)
Record Request := { META : gmap string string }.

(** The mutable part: [request.user], which [auth.login] and [auth.logout]
    replace, and the trace of collaborator calls made so far. *)
Record World := { user : RequestUser; events : list Event }.

Definition emit (e : Event) : M World unit :=
  modify (λ w, {| user := user w; events := events w ++ [e] |}).

Definition set_user (u : RequestUser) : M World unit :=
  modify (λ w, {| user := u; events := events w |}).

(** The [(is_successful, error_message, headers)] tuple. *)
Definition AuthResult : Type :=
  bool * option string * option (list (string * string)).

(** What [get_credentials] may hand back: nothing (None, or anything falsy),
    a dictionary with the username and password, or a ready-made result
    tuple. *)
Inductive Credentials :=
| NoCredentials
| CredentialsDict (uname password : string)
| CredentialsTuple (r : AuthResult).

(** [get_credentials(self, request)]: a method a subclass overrides.  It
    reads the request, may do anything to the world (change the session,
    call the identity provider, log), and returns or raises. *)
Definition GetCredentials : Type := Request → M World Credentials.

(** An auth backend class, as [check_login] uses it: it is instantiated
    without arguments and asked to [authenticate]. *)
Record AuthBackendCls := {
  www_auth_scheme : option string;
  authenticate : Request → M World (option AuthResult)
}.

Section auth.

(** [django.contrib.auth.authenticate(username=..., password=...)]: the
    identity provider, answering a user or None. *)
Variable auth_authenticate : string → string → option User.

(** [str.decode('base64')]: the decoded text, or None where the codec
    raises [binascii.Error]. *)
Variable base64_decode : string → option string.

(** [auth.login(request, user)] and [auth.logout(request)]. *)
Definition auth_login (u : User) : M World unit :=
  do_ emit (AuthLogin u); set_user (LoggedIn u).
Definition auth_logout : M World unit :=
  do_ emit AuthLogout; set_user AnonymousUser.

(** [WebAPIAuthBackend.login_with_credentials] *)
Definition login_with_credentials (request : Request)
    (uname password : string) : M World AuthResult :=
  do w <- get;
  if is_authenticated (user w) && String.eqb (username_of (user w)) uname
  then ret (true, None, None)
  else
    do_ emit (Log DEBUG
                ("Attempting authentication on API for user " +:+ uname));
    do_ emit (AuthAuthenticate uname password);
    match auth_authenticate uname password with
    | Some u =>
        if is_active u then
          do_ auth_login u;
          ret (true, None, None)
        else
          do_ emit (Log DEBUG "API Login failed. No valid user found.");
          do_ auth_logout;
          ret (false, None, None)
    | None =>
        do_ emit (Log DEBUG "API Login failed. No valid user found.");
        do_ auth_logout;
        ret (false, None, None)
    end.

(** [WebAPIAuthBackend.authenticate], for a class that supplies
    [get_credentials]. *)
Definition WebAPIAuthBackend_authenticate (get_credentials : GetCredentials)
    (request : Request) : M World (option AuthResult) :=
  do credentials <- get_credentials request;
  match credentials with
  | NoCredentials => ret None
  | CredentialsDict uname password =>
      do result <- login_with_credentials request uname password;
      ret (Some result)
  | CredentialsTuple r => ret (Some r)
  end.

(** A subclass of [WebAPIAuthBackend] that overrides [get_credentials]
    only. *)
Definition WebAPIAuthBackend (scheme : option string)
    (get_credentials : GetCredentials) : AuthBackendCls :=
  {| www_auth_scheme := scheme;
     authenticate := WebAPIAuthBackend_authenticate get_credentials |}.

(** [WebAPIAuthBackend.get_credentials]: left to the subclass. *)
Definition WebAPIAuthBackend_get_credentials : GetCredentials :=
  λ _, raise NotImplementedError.

(** [WebAPIBasicAuthBackend.get_credentials].  The header is a byte string
    and the separators are text, so both [split]s convert their byte string
    first; the token, by then text, goes through the base64 codec, whose
    output is a byte string again.  The two unpackings and the two
    conversions sit in one [try]: a [ValueError] from any of them is logged
    and the backend declines, any other exception leaves the method.  The
    handler formats the header into a text message, which converts the
    header once more and raises out of the handler when that fails.  The
    realm is compared, and the credentials are returned, after the [try]. *)
Definition WebAPIBasicAuthBackend_get_credentials : GetCredentials :=
  λ request,
    match META request !! "HTTP_AUTHORIZATION" with
    | None => raise KeyError
    | Some header =>
        do parsed <-
          try_except
            (do text <- to_unicode header;
             do outer <- of_result (unpack2 (str_split text " "%char));
             let '(realm, encoded_auth) := outer in
             do decoded <- match base64_decode encoded_auth with
                           | Some decoded => ret decoded
                           | None => raise binascii_Error
                           end;
             do credentials <- to_unicode decoded;
             do inner <- of_result (unpack2 (str_split1 credentials ":"%char));
             let '(uname, password) := inner in
             ret (Some (realm, uname, password)))
            is_ValueError
            (do text <- to_unicode header;
             do_ emit (Log WARNING
                         ("Failed to parse HTTP_AUTHORIZATION header " +:+ text));
             ret None);
        match parsed with
        | None => ret NoCredentials
        | Some (realm, uname, password) =>
            if String.eqb realm "Basic"
            then ret (CredentialsDict uname password)
            else ret NoCredentials
        end
    end.

(** [WebAPIBasicAuthBackend]; its [www_auth_scheme] is the text
    [Basic realm=], then [Web API] between double quotes. *)
Definition WebAPIBasicAuthBackend : AuthBackendCls :=
  WebAPIAuthBackend
    (Some ("Basic realm=" +:+ String (ascii_of_nat 34)
             ("Web API" +:+ String (ascii_of_nat 34) EmptyString)))
    WebAPIBasicAuthBackend_get_credentials.

(** ** The backend chain *)

(** [settings]: the attribute [WEB_API_AUTH_BACKENDS] is absent ([None]) or
    holds a list of class paths. *)
Record Settings := { WEB_API_AUTH_BACKENDS : option (list string) }.

(** What [__import__] can find: module name to module namespace. *)
Definition Modules : Type := gmap string (gmap string AuthBackendCls).

(** The module global [_auth_backends].  [rebuilds] is a ghost counter: it
    is incremented each time the body of [if not _auth_backends:] is
    entered, that is each time the list is built from the settings. *)
Record Globals := { _auth_backends : list AuthBackendCls; rebuilds : nat }.

Definition initial_globals : Globals :=
  {| _auth_backends := []; rebuilds := 0 |}.

Definition set_auth_backends (l : list AuthBackendCls) : M Globals unit :=
  modify (λ g, {| _auth_backends := l; rebuilds := rebuilds g |}).

Definition count_rebuild : M Globals unit :=
  modify (λ g, {| _auth_backends := _auth_backends g;
                  rebuilds := S (rebuilds g) |}).

(** [__import__(module, {}, {}, [attr])] followed by the [ImportError]
    handler; an empty module name is a [ValueError], which the handler does
    not catch. *)
Definition import_module (modules : Modules) (module : string)
  : M Globals (gmap string AuthBackendCls) :=
  if String.eqb module EmptyString then raise ValueError
  else match modules !! module with
       | Some mod_ => ret mod_
       | None => raise (ImproperlyConfigured_import module)
       end.

(** One turn of the loop over [class_paths]. *)
Definition load_backend (modules : Modules) (class_path : string)
  : M Globals unit :=
  let i := rfind class_path "."%char in
  let module := slice_to class_path i in
  let attr := slice_from class_path (i + 1)%Z in
  do mod_ <- import_module modules module;
  match mod_ !! attr with
  | Some cls =>
      do g <- get;
      set_auth_backends (_auth_backends g ++ [cls])
  | None => raise (ImproperlyConfigured_attr module attr)
  end.

(** [get_auth_backends] *)
Definition get_auth_backends (settings : Settings) (modules : Modules)
  : M Globals (list AuthBackendCls) :=
  do g <- get;
  do_ (match _auth_backends g with
       | [] =>
           do_ count_rebuild;
           let class_paths :=
             default ["djblets.webapi.auth.WebAPIBasicAuthBackend"]
                     (WEB_API_AUTH_BACKENDS settings) in
           do_ set_auth_backends [];
           for_each class_paths (load_backend modules)
       | _ :: _ => ret tt
       end);
  do g' <- get;
  ret (_auth_backends g').

(** [reset_auth_backends] *)
Definition reset_auth_backends : M Globals unit :=
  set_auth_backends [].

(** ** check_login *)

(** The whole process state [check_login] runs in. *)
Definition Process : Type := Globals * World.

Definition lift_globals {A} (m : M Globals A) : M Process A :=
  λ p, let '(g', r) := m p.1 in ((g', p.2), r).
Definition lift_world {A} (m : M World A) : M Process A :=
  λ p, let '(w', r) := m p.2 in ((p.1, w'), r).

(** [check_login] *)
Definition check_login (settings : Settings) (modules : Modules)
    (request : Request) : M Process (option AuthResult) :=
  if decide (is_Some (META request !! "HTTP_AUTHORIZATION")) then
    do backends <- lift_globals (get_auth_backends settings modules);
    lift_world
      (for_return backends (λ auth_backend_cls,
         authenticate auth_backend_cls request))
  else ret None.

(** ** Vocabulary of the properties *)

(** Every backend of the list, tried in turn on the request from world
    [w], declines (returns None without raising); [w'] is the world after
    the last of them. *)
Inductive all_decline (request : Request)
  : list AuthBackendCls → World → World → Prop :=
| all_decline_nil w : all_decline request [] w w
| all_decline_cons b l w w1 w2 :
    authenticate b request w = (w1, Return None) →
    all_decline request l w1 w2 →
    all_decline request (b :: l) w w2.

(** From [w] to [w'] the session is untouched and the identity provider
    was not called: the only events added are log records. *)
Definition only_logged (w w' : World) : Prop :=
  user w' = user w ∧
  ∃ logs : list (LogLevel * string),
    events w' = events w ++ ((λ r, Log r.1 r.2) <$> logs).

(** A [get_credentials] that does nothing but hand records to [logging],
    whatever it returns or raises. *)
Definition only_logs (get_credentials : GetCredentials) : Prop :=
  ∀ request w, only_logged w (get_credentials request w).1.

(** Every backend of the list keeps the base [authenticate], and its
    [get_credentials] only logs. *)
Definition only_logging (l : list AuthBackendCls) : Prop :=
  ∀ b, b ∈ l →
    ∃ scheme get_credentials,
      b = WebAPIAuthBackend scheme get_credentials
      ∧ only_logs get_credentials.

(** [n] consecutive calls of [reset_auth_backends]. *)
Definition reset_many (n : nat) (g : Globals) : Globals :=
  Nat.iter n (λ g, (reset_auth_backends g).1) g.

(** A series of calls of [get_auth_backends], each under its own
    configuration; the list each call returned or the exception it
    raised. *)
Fixpoint get_auth_backends_each (configs : list (Settings * Modules))
    (g : Globals) : Globals * list (result (list AuthBackendCls)) :=
  match configs with
  | [] => (g, [])
  | (settings, modules) :: configs' =>
      let '(g1, r) := get_auth_backends settings modules g in
      let '(g2, rs) := get_auth_backends_each configs' g1 in
      (g2, r :: rs)
  end.

End auth.

(** The class path [module.attr]. *)
Definition class_path (module attr : string) : string :=
  module +:+ "." +:+ attr.

(** The class path is a module name, a dot and a name without dots, and the
    modules hold a class under that name. *)
Definition resolves_to (modules : Modules) (path : string)
    (c : AuthBackendCls) : Prop :=
  ∃ module attr ns,
    path = class_path module attr
    ∧ count_char "." attr = 0
    ∧ module ≠ EmptyString
    ∧ modules !! module = Some ns
    ∧ ns !! attr = Some c.

End Auth.

(** * extensions/hooks.py *)

Module Hooks.

(** ** Data *)

(** The classes whose metaclass is [ExtensionHookPoint]: each owns a [hooks]
    list. *)
Inductive HookPoint :=
| DataGridColumnsHook
| URLHook
| SignalHook
| TemplateHook.

Global Instance HookPoint_eq_dec : EqDecision HookPoint.
Proof. solve_decision. Defined.

(** A column definition: the object handed to the datagrid, and its [id]. *)
Record Column := { column_object : nat; column_id : string }.

Global Instance Column_eq_dec : EqDecision Column.
Proof. solve_decision. Defined.

(** The attributes a subclass constructor stores on the instance. *)
Inductive HookAttrs :=
| NoAttrs
| DataGridColumnsAttrs (datagrid_cls : nat) (columns : list Column)
| URLAttrs (patterns : list nat)
| SignalAttrs (signal callback dispatch_uid : nat)
| TemplateAttrs (apply_to : list string) (name : string)
                (template_name : option string).

(** A hook instance.  An attribute that was never assigned is [None]
    (reading it is an [AttributeError]).  Extensions, URL patterns, datagrid
    classes, signals and callbacks are objects of the host, known here by
    their identity, a number. *)
Record Hook := {
  cls : HookPoint;
  extension : option nat;
  initialized : option bool;
  attrs : HookAttrs
}.

(** A live subscription of the signal bus. *)
Record Receiver := {
  receiver_signal : nat;
  receiver_uid : nat;
  receiver_callback : nat;
  receiver_sender : option nat
}.

Global Instance Receiver_eq_dec : EqDecision Receiver.
Proof. solve_decision. Defined.

(** Everything the hooks read and write:
    - [heap]: the hook instances, by object identity; [next_object] is the
      identity the next instance gets;
    - [hooks c]: the class attribute [c.hooks];
    - [_by_name]: the class attribute [TemplateHook._by_name];
    - [extension_hooks]: the set [extension.hooks] of each extension;
    - [dynamic_urls]: the patterns of [extension_manager.dynamic_urls]
      (all extensions belong to the one extension manager of the host);
    - [receivers]: the subscriptions of the signal bus;
    - [datagrid_columns]: the registered columns, each with the datagrid
      class it was added to;
    - [next_uuid]: the next value of [uuid.uuid1()]. *)
Record State := {
  heap : gmap nat Hook;
  next_object : nat;
  hooks : HookPoint → list nat;
  _by_name : gmap string (list nat);
  extension_hooks : gmap nat (gset nat);
  dynamic_urls : list nat;
  receivers : list Receiver;
  datagrid_columns : list (nat * Column);
  next_uuid : nat
}.

Definition initial_state : State :=
  {| heap := ∅; next_object := 0; hooks := λ _, []; _by_name := ∅;
     extension_hooks := ∅; dynamic_urls := []; receivers := [];
     datagrid_columns := []; next_uuid := 0 |}.

Definition with_heap (f : gmap nat Hook → gmap nat Hook) (s : State) : State :=
  {| heap := f (heap s); next_object := next_object s; hooks := hooks s;
     _by_name := _by_name s; extension_hooks := extension_hooks s;
     dynamic_urls := dynamic_urls s; receivers := receivers s;
     datagrid_columns := datagrid_columns s; next_uuid := next_uuid s |}.

Definition with_next_object (n : nat) (s : State) : State :=
  {| heap := heap s; next_object := n; hooks := hooks s;
     _by_name := _by_name s; extension_hooks := extension_hooks s;
     dynamic_urls := dynamic_urls s; receivers := receivers s;
     datagrid_columns := datagrid_columns s; next_uuid := next_uuid s |}.

Definition with_hooks (f : (HookPoint → list nat) → HookPoint → list nat)
    (s : State) : State :=
  {| heap := heap s; next_object := next_object s; hooks := f (hooks s);
     _by_name := _by_name s; extension_hooks := extension_hooks s;
     dynamic_urls := dynamic_urls s; receivers := receivers s;
     datagrid_columns := datagrid_columns s; next_uuid := next_uuid s |}.

Definition with_by_name (f : gmap string (list nat) → gmap string (list nat))
    (s : State) : State :=
  {| heap := heap s; next_object := next_object s; hooks := hooks s;
     _by_name := f (_by_name s); extension_hooks := extension_hooks s;
     dynamic_urls := dynamic_urls s; receivers := receivers s;
     datagrid_columns := datagrid_columns s; next_uuid := next_uuid s |}.

Definition with_extension_hooks
    (f : gmap nat (gset nat) → gmap nat (gset nat)) (s : State) : State :=
  {| heap := heap s; next_object := next_object s; hooks := hooks s;
     _by_name := _by_name s; extension_hooks := f (extension_hooks s);
     dynamic_urls := dynamic_urls s; receivers := receivers s;
     datagrid_columns := datagrid_columns s; next_uuid := next_uuid s |}.

Definition with_dynamic_urls (f : list nat → list nat) (s : State) : State :=
  {| heap := heap s; next_object := next_object s; hooks := hooks s;
     _by_name := _by_name s; extension_hooks := extension_hooks s;
     dynamic_urls := f (dynamic_urls s); receivers := receivers s;
     datagrid_columns := datagrid_columns s; next_uuid := next_uuid s |}.

Definition with_receivers (f : list Receiver → list Receiver) (s : State)
  : State :=
  {| heap := heap s; next_object := next_object s; hooks := hooks s;
     _by_name := _by_name s; extension_hooks := extension_hooks s;
     dynamic_urls := dynamic_urls s; receivers := f (receivers s);
     datagrid_columns := datagrid_columns s; next_uuid := next_uuid s |}.

Definition with_datagrid_columns
    (f : list (nat * Column) → list (nat * Column)) (s : State) : State :=
  {| heap := heap s; next_object := next_object s; hooks := hooks s;
     _by_name := _by_name s; extension_hooks := extension_hooks s;
     dynamic_urls := dynamic_urls s; receivers := receivers s;
     datagrid_columns := f (datagrid_columns s); next_uuid := next_uuid s |}.

Definition with_next_uuid (n : nat) (s : State) : State :=
  {| heap := heap s; next_object := next_object s; hooks := hooks s;
     _by_name := _by_name s; extension_hooks := extension_hooks s;
     dynamic_urls := dynamic_urls s; receivers := receivers s;
     datagrid_columns := datagrid_columns s; next_uuid := n |}.

(** ** Objects and attributes *)

(** [cls(...)]: a new instance, no attribute assigned yet. *)
Definition new_object (c : HookPoint) : M State nat :=
  do s <- get;
  let self := next_object s in
  do_ modify (with_heap <[self := {| cls := c; extension := None;
                                     initialized := None; attrs := NoAttrs |}]>);
  do_ modify (with_next_object (S self));
  ret self.

(** Reading the instance behind a reference. *)
Definition deref (self : nat) : M State Hook :=
  do s <- get;
  match heap s !! self with
  | Some h => ret h
  | None => raise AttributeError
  end.

Definition set_extension (self extension : nat) : M State unit :=
  modify (with_heap (alter (λ h, {| cls := cls h; extension := Some extension;
                                    initialized := initialized h;
                                    attrs := attrs h |}) self)).

Definition set_initialized (self : nat) (b : bool) : M State unit :=
  modify (with_heap (alter (λ h, {| cls := cls h; extension := Hooks.extension h;
                                    initialized := Some b;
                                    attrs := attrs h |}) self)).

Definition set_attrs (self : nat) (a : HookAttrs) : M State unit :=
  modify (with_heap (alter (λ h, {| cls := cls h; extension := Hooks.extension h;
                                    initialized := initialized h;
                                    attrs := a |}) self)).

(** ** Collaborators *)

(** [extension.hooks.add(hook)]: the extension's own set of its hooks. *)
Definition Extension_hooks_add (extension hook : nat) : M State unit :=
  modify (with_extension_hooks
            (λ m, <[extension := {[hook]} ∪ default ∅ (m !! extension)]> m)).

(** [uuid.uuid1()]: a value never handed out before. *)
Definition uuid1 : M State nat :=
  do s <- get;
  do_ modify (with_next_uuid (S (next_uuid s)));
  ret (next_uuid s).

(** Modelled from the spec: the routing table [dynamic_urls], whose class is
    not part of the two files.  [add_patterns] appends the patterns to the
    shared collection.  [remove_patterns] removes each listed pattern by
    identity and tolerates one that is already gone.  The table does not
    record which instance added an entry, so a pattern object that is present
    more than once is removed at its first occurrence, as [list.remove]
    does. *)
Definition add_patterns (patterns : list nat) : M State unit :=
  modify (with_dynamic_urls (λ l, l ++ patterns)).

Definition remove_patterns (patterns : list nat) : M State unit :=
  for_each patterns
    (λ pattern, modify (with_dynamic_urls (list_remove_first pattern))).

(** Modelled from the spec: the signal bus, which belongs to the host
    framework.  [connect] records a subscription of the callback to the
    signal under the token, optionally for one sender; [disconnect] removes
    the subscription of the signal that carries the token, and nothing else,
    and tolerates its absence. *)
Definition signal_connect (signal callback : nat) (sender : option nat)
    (dispatch_uid : nat) : M State unit :=
  modify (with_receivers
            (λ l, l ++ [{| receiver_signal := signal;
                           receiver_uid := dispatch_uid;
                           receiver_callback := callback;
                           receiver_sender := sender |}])).

Fixpoint remove_receiver (signal dispatch_uid : nat) (l : list Receiver)
  : list Receiver :=
  match l with
  | [] => []
  | r :: l' =>
      if decide (receiver_signal r = signal ∧ receiver_uid r = dispatch_uid)
      then l'
      else r :: remove_receiver signal dispatch_uid l'
  end.

Definition signal_disconnect (signal dispatch_uid : nat) : M State unit :=
  modify (with_receivers (remove_receiver signal dispatch_uid)).

(** Modelled from the spec: the column registry of a datagrid class, whose
    code is not part of the two files.  [add_column] registers the column
    definition after the ones already there; a column whose identifier is
    already registered for the class is a configuration error, raised at
    once.  [remove_column] removes the column definition and tolerates its
    absence. *)
Definition add_column (datagrid_cls : nat) (column : Column) : M State unit :=
  do s <- get;
  if decide ((datagrid_cls, column_id column) ∈
             (λ e : nat * Column, (e.1, column_id e.2)) <$> datagrid_columns s)
  then raise ConfigurationError
  else modify (with_datagrid_columns (λ l, l ++ [(datagrid_cls, column)])).

Definition remove_column (datagrid_cls : nat) (column : Column)
  : M State unit :=
  modify (with_datagrid_columns (list_remove_first (datagrid_cls, column))).

(** ** ExtensionHookPoint *)

(** [ExtensionHookPoint.add_hook] *)
Definition add_hook (c : HookPoint) (hook : nat) : M State unit :=
  modify (with_hooks (λ f, <[c := f c ++ [hook]]> f)).

(** [ExtensionHookPoint.remove_hook]; [list.remove] raises [ValueError] when
    the hook is not in the list. *)
Definition remove_hook (c : HookPoint) (hook : nat) : M State unit :=
  do s <- get;
  if decide (hook ∈ hooks s c)
  then modify (with_hooks (λ f, <[c := list_remove_first hook (f c)]> f))
  else raise ValueError.

(** ** ExtensionHook *)

(** [ExtensionHook.__init__] *)
Definition ExtensionHook_init (self extension : nat) : M State unit :=
  do_ set_extension self extension;
  do_ Extension_hooks_add extension self;
  do h <- deref self;
  do_ add_hook (cls h) self;
  set_initialized self true.

(** [ExtensionHook.shutdown] *)
Definition ExtensionHook_shutdown (self : nat) : M State unit :=
  do h <- deref self;
  match initialized h with
  | None => raise AttributeError
  | Some false => raise AssertionError
  | Some true =>
      do_ remove_hook (cls h) self;
      set_initialized self false
  end.

(** ** DataGridColumnsHook *)

Definition DataGridColumnsHook_init (extension datagrid_cls : nat)
    (columns : list Column) : M State nat :=
  do self <- new_object DataGridColumnsHook;
  do_ ExtensionHook_init self extension;
  do_ set_attrs self (DataGridColumnsAttrs datagrid_cls columns);
  do_ for_each columns (λ column, add_column datagrid_cls column);
  ret self.

Definition DataGridColumnsHook_shutdown (self : nat) : M State unit :=
  do_ ExtensionHook_shutdown self;
  do h <- deref self;
  match attrs h with
  | DataGridColumnsAttrs datagrid_cls columns =>
      for_each columns (λ column, remove_column datagrid_cls column)
  | _ => raise AttributeError
  end.

(** ** URLHook *)

Definition URLHook_init (extension : nat) (patterns : list nat)
  : M State nat :=
  do self <- new_object URLHook;
  do_ ExtensionHook_init self extension;
  do_ set_attrs self (URLAttrs patterns);
  do_ add_patterns patterns;
  ret self.

Definition URLHook_shutdown (self : nat) : M State unit :=
  do_ ExtensionHook_shutdown self;
  do h <- deref self;
  match attrs h with
  | URLAttrs patterns => remove_patterns patterns
  | _ => raise AttributeError
  end.

(** ** SignalHook *)

Definition SignalHook_init (extension signal callback : nat)
    (sender : option nat) : M State nat :=
  do self <- new_object SignalHook;
  do_ ExtensionHook_init self extension;
  do dispatch_uid <- uuid1;
  do_ set_attrs self (SignalAttrs signal callback dispatch_uid);
  do_ signal_connect signal callback sender dispatch_uid;
  ret self.

Definition SignalHook_shutdown (self : nat) : M State unit :=
  do_ ExtensionHook_shutdown self;
  do h <- deref self;
  match attrs h with
  | SignalAttrs signal _ dispatch_uid => signal_disconnect signal dispatch_uid
  | _ => raise AttributeError
  end.

(** ** TemplateHook (with AppliesToURLMixin) *)

Definition TemplateHook_init (extension : nat) (name : string)
    (template_name : option string) (apply_to : list string) : M State nat :=
  do self <- new_object TemplateHook;
  do_ ExtensionHook_init self extension;
  do_ set_attrs self (TemplateAttrs apply_to name template_name);
  do s <- get;
  do_ (match _by_name s !! name with
       | None => modify (with_by_name <[name := [self]]>)
       | Some l => modify (with_by_name <[name := l ++ [self]]>)
       end);
  ret self.

Definition TemplateHook_shutdown (self : nat) : M State unit :=
  do_ ExtensionHook_shutdown self;
  do h <- deref self;
  match attrs h with
  | TemplateAttrs _ name _ =>
      do s <- get;
      match _by_name s !! name with
      | None => raise KeyError
      | Some l =>
          if decide (self ∈ l)
          then modify (with_by_name <[name := list_remove_first self l]>)
          else raise ValueError
      end
  | _ => raise AttributeError
  end.

(** [TemplateHook.by_name] *)
Definition by_name (s : State) (name : string) : list nat :=
  default [] (_by_name s !! name).

(** [hook.shutdown()], dispatched on the class of the instance. *)
Definition shutdown (self : nat) : M State unit :=
  do h <- deref self;
  match cls h with
  | DataGridColumnsHook => DataGridColumnsHook_shutdown self
  | URLHook => URLHook_shutdown self
  | SignalHook => SignalHook_shutdown self
  | TemplateHook => TemplateHook_shutdown self
  end.

(** ** Runs *)

(** What an extension asks of the hooks: attach one, or shut one down. *)
Inductive Op :=
| NewDataGridColumnsHook (extension datagrid_cls : nat) (columns : list Column)
| NewURLHook (extension : nat) (patterns : list nat)
| NewSignalHook (extension signal callback : nat) (sender : option nat)
| NewTemplateHook (extension : nat) (name : string)
                  (template_name : option string) (apply_to : list string)
| Shutdown (hook : nat).

Definition perform (op : Op) : M State unit :=
  match op with
  | NewDataGridColumnsHook extension datagrid_cls columns =>
      do_ DataGridColumnsHook_init extension datagrid_cls columns; ret tt
  | NewURLHook extension patterns =>
      do_ URLHook_init extension patterns; ret tt
  | NewSignalHook extension signal callback sender =>
      do_ SignalHook_init extension signal callback sender; ret tt
  | NewTemplateHook extension name template_name apply_to =>
      do_ TemplateHook_init extension name template_name apply_to; ret tt
  | Shutdown hook => shutdown hook
  end.

(** A restriction on what a run may do in a state. *)
Definition Guard : Type := State → Op → Prop.

Definition any_op : Guard := λ _ _, True.

(** The operation returns: the constructor hands back an instance, the
    shutdown completes. *)
Definition returns : Guard :=
  λ s op, (perform op s).2 = Return tt.

(** Route patterns are handed to one instance at a time: no pattern of a new
    [URLHook] is in the routing table already. *)
Definition unshared_patterns : Guard :=
  λ s op,
    match op with
    | NewURLHook _ patterns => ∀ p, p ∈ patterns → p ∉ dynamic_urls s
    | _ => True
    end.

Definition is_attach (op : Op) : Prop :=
  match op with Shutdown _ => False | _ => True end.

(** Every attach returns an instance, and route patterns are not shared. *)
Definition clean : Guard :=
  λ s op, (is_attach op → returns s op) ∧ unshared_patterns s op.

(** The states a run of attaches and shutdowns arrives in, from the start of
    the process.  An operation that raises leaves the state it had reached,
    and the run goes on from there. *)
Inductive reachable (G : Guard) : State → Prop :=
| reachable_initial : reachable G initial_state
| reachable_perform s op :
    reachable G s → G s op → reachable G (perform op s).1.

(** ** Vocabulary of the properties *)

(** The attributes the constructor of a class stores. *)
Definition attrs_ok (c : HookPoint) (a : HookAttrs) : Prop :=
  match c, a with
  | DataGridColumnsHook, DataGridColumnsAttrs _ _ => True
  | URLHook, URLAttrs _ => True
  | SignalHook, SignalAttrs _ _ _ => True
  | TemplateHook, TemplateAttrs _ _ _ => True
  | _, _ => False
  end.

(** The registries hold exactly the instances whose [initialized] flag is
    set, once each, and every instance that exists is fully constructed. *)
Record registry_inv (s : State) : Prop := {
  heap_below : ∀ self h, heap s !! self = Some h → (self < next_object s)%nat;
  heap_constructed : ∀ self h,
    heap s !! self = Some h →
    is_Some (extension h) ∧ is_Some (initialized h) ∧ attrs_ok (cls h) (attrs h);
  hooks_initialized : ∀ c self,
    self ∈ hooks s c ↔
    ∃ h, heap s !! self = Some h ∧ cls h = c ∧ initialized h = Some true;
  hooks_NoDup : ∀ c, NoDup (hooks s c)
}.

(** The name a template hook was given. *)
Definition name_of (a : HookAttrs) : option string :=
  match a with TemplateAttrs _ name _ => Some name | _ => None end.

Definition hook_name (s : State) (self : nat) : option string :=
  match heap s !! self with Some h => name_of (attrs h) | None => None end.

(** [_by_name] lists, under each name, the registered template hooks of
    that name, in the order of the registry. *)
Definition by_name_inv (s : State) : Prop :=
  ∀ name,
    by_name s name
    = filter (λ self, hook_name s self = Some name) (hooks s TemplateHook).

(** What an instance with these attributes has added to its collaborator:
    its route patterns, the key of its subscription (signal, token,
    callback), its columns with their datagrid class. *)
Definition patterns_of (a : HookAttrs) : list nat :=
  match a with URLAttrs patterns => patterns | _ => [] end.

Definition subscription_of (a : HookAttrs) : list (nat * nat * nat) :=
  match a with
  | SignalAttrs signal callback dispatch_uid =>
      [(signal, dispatch_uid, callback)]
  | _ => []
  end.

Definition columns_of (a : HookAttrs) : list (nat * Column) :=
  match a with
  | DataGridColumnsAttrs datagrid_cls columns =>
      (λ column, (datagrid_cls, column)) <$> columns
  | _ => []
  end.

(** The additions of the instances registered for a class, one block per
    instance, in the order of the registry. *)
Definition blocks {B} (F : HookAttrs → list B) (s : State) (c : HookPoint)
  : list (list B) :=
  (λ self, match heap s !! self with
           | Some h => F (attrs h)
           | None => []
           end) <$> hooks s c.

Definition receiver_key (r : Receiver) : nat * nat * nat :=
  (receiver_signal r, receiver_uid r, receiver_callback r).

Definition column_key (e : nat * Column) : nat * string :=
  (e.1, column_id e.2).

(** No element of a block occurs in a later block. *)
Fixpoint blocks_disjoint {A} (bs : list (list A)) : Prop :=
  match bs with
  | [] => True
  | b :: bs' => (∀ x, x ∈ b → x ∉ mjoin bs') ∧ blocks_disjoint bs'
  end.

(** Each collaborator holds exactly what the instances now registered have
    added to it, in the order they were attached, and nothing else. *)
Record accounted (s : State) : Prop := {
  urls_accounted : dynamic_urls s = mjoin (blocks patterns_of s URLHook);
  receivers_accounted :
    receiver_key <$> receivers s = mjoin (blocks subscription_of s SignalHook);
  columns_accounted :
    datagrid_columns s = mjoin (blocks columns_of s DataGridColumnsHook)
}.

(** Side conditions that make [accounted] an invariant: route patterns of
    different registered instances are different objects, tokens are the
    ones [uuid1] has handed out, once each, and column identifiers are
    unique within a datagrid class. *)
Record collaborators_inv (s : State) : Prop := {
  urls_disjoint : blocks_disjoint (blocks patterns_of s URLHook);
  uids_below : ∀ r, r ∈ receivers s → (receiver_uid r < next_uuid s)%nat;
  uids_NoDup : NoDup (receiver_uid <$> receivers s);
  columns_NoDup : NoDup (column_key <$> datagrid_columns s)
}.

(** The state after the part of a constructor that all classes share: the
    allocation of the instance, [ExtensionHook.__init__], and the assignment
    of the attributes. *)
Definition constructed (c : HookPoint) (extension : nat) (a : HookAttrs)
    (s : State) : State :=
  {| heap := <[next_object s := {| cls := c; extension := Some extension;
                                   initialized := Some true; attrs := a |}]>
               (heap s);
     next_object := S (next_object s);
     hooks := <[c := hooks s c ++ [next_object s]]> (hooks s);
     _by_name := _by_name s;
     extension_hooks :=
       <[extension := {[next_object s]}
                      ∪ default ∅ (extension_hooks s !! extension)]>
         (extension_hooks s);
     dynamic_urls := dynamic_urls s;
     receivers := receivers s;
     datagrid_columns := datagrid_columns s;
     next_uuid := next_uuid s |}.

(** The state after [ExtensionHook.shutdown] of a registered instance. *)
Definition detached (self : nat) (c : HookPoint) (s : State) : State :=
  {| heap := alter (λ h, {| cls := cls h; extension := Hooks.extension h;
                            initialized := Some false; attrs := attrs h |})
                   self (heap s);
     next_object := next_object s;
     hooks := <[c := list_remove_first self (hooks s c)]> (hooks s);
     _by_name := _by_name s;
     extension_hooks := extension_hooks s;
     dynamic_urls := dynamic_urls s;
     receivers := receivers s;
     datagrid_columns := datagrid_columns s;
     next_uuid := next_uuid s |}.

(** The state a list of operations leads to, and the condition that each
    of them is allowed by the guard where it is performed. *)
Definition run_from (s : State) (ops : list Op) : State :=
  foldl (λ s op, (perform op s).1) s ops.

Fixpoint run_ok (G : Guard) (s : State) (ops : list Op) : Prop :=
  match ops with
  | [] => True
  | op :: ops' => G s op ∧ run_ok G (perform op s).1 ops'
  end.

(** [TemplateHook(extension, name, template_name, apply_to)] for each entry
    of [args] in turn, all under the one [name]; the instances made. *)
Fixpoint attach_templates (extension : nat) (name : string)
    (args : list (option string * list string)) : M State (list nat) :=
  match args with
  | [] => ret []
  | (template_name, apply_to) :: args' =>
      do self <- TemplateHook_init extension name template_name apply_to;
      do rest <- attach_templates extension name args';
      ret (self :: rest)
  end.

(** ** Rendering a template hook *)

(** A value bound in a render context. *)
Inductive ContextValue :=
| ExtensionValue (extension : nat)
| OtherValue (v : string).

(** Modelled from the spec: the render context of the template engine,
    which supports scoped push and pop of key-value bindings.  [pushed] are
    the scopes opened by [push], innermost first, above the [outermost]
    scope the context was created with.  [push] opens a scope, an assignment
    binds in the innermost scope, [pop] closes the innermost pushed scope and
    raises when there is none. *)
Definition Scope : Type := gmap string ContextValue.

Record Context := { pushed : list Scope; outermost : Scope }.

Definition Context_push : M Context unit :=
  modify (λ c, {| pushed := ∅ :: pushed c; outermost := outermost c |}).

Definition Context_setitem (key : string) (v : ContextValue)
  : M Context unit :=
  modify (λ c, match pushed c with
               | d :: ds =>
                   {| pushed := <[key := v]> d :: ds; outermost := outermost c |}
               | [] =>
                   {| pushed := []; outermost := <[key := v]> (outermost c) |}
               end).

Definition Context_pop : M Context unit :=
  λ c, match pushed c with
       | d :: ds => ({| pushed := ds; outermost := outermost c |}, Return tt)
       | [] => (c, Raise ContextPopException)
       end.

Section render.

(** [django.template.loader.render_to_string(template_name, context)]: the
    template engine, which reads the context, may bind in it while it
    renders, and returns the text or raises. *)
Variable render : option string → M Context string.

(** [TemplateHook.render_to_string]; [request] is not used by the default
    implementation. *)
Definition render_to_string (self : Hook) (request : unit)
  : M Context string :=
  do_ Context_push;
  match extension self with
  | None => raise AttributeError
  | Some ext =>
      do_ Context_setitem "extension" (ExtensionValue ext);
      try_finally
        (match attrs self with
         | TemplateAttrs _ _ template_name => render template_name
         | _ => raise AttributeError
         end)
        Context_pop
  end.

(** The template engine keeps its own pushes and pops balanced and binds
    in the innermost scope only: it leaves every scope below the innermost
    one as it found it. *)
Definition render_scoped : Prop :=
  ∀ template_name d ds base,
    ∃ d', (render template_name {| pushed := d :: ds; outermost := base |}).1
          = {| pushed := d' :: ds; outermost := base |}.

End render.

(** ** AppliesToURLMixin *)

(** [AppliesToURLMixin.applies_to]; [url_name] is
    [request.resolver_match.url_name], which is None for a route without a
    name. *)
Definition applies_to (self : Hook) (url_name : option string) : result bool :=
  match attrs self with
  | TemplateAttrs apply_to _ _ =>
      Return (match apply_to with
              | [] => true
              | _ :: _ => bool_decide (url_name ∈ Some <$> apply_to)
              end)
  | _ => Raise AttributeError
  end.

End Hooks.

(** * Sample data

    A small identity provider, a codec table, two backend classes and a few
    requests, used to run the definitions on concrete inputs. *)

Module AuthSample.
Import Auth.

Definition alice : User := {| username := "alice"; is_active := true |}.
Definition bob : User := {| username := "bob"; is_active := false |}.

Definition provider (uname password : string) : option User :=
  if String.eqb uname "alice" && String.eqb password "secret" then Some alice
  else if String.eqb uname "bob" && String.eqb password "hunter2" then Some bob
  else None.

(** The base64 codec on the tokens of the samples: three that it decodes,
    and any other taken as one it rejects (as it does [a.b.c], for
    incorrect padding). *)
Definition decode (s : string) : option string :=
  if String.eqb s "YWxpY2U6c2VjcmV0" then Some "alice:secret"
  else if String.eqb s "YWxpY2U6b2xk" then Some "alice:old"
  else if String.eqb s "dG9rZW4=" then Some "token"
  else None.

Definition basic : AuthBackendCls := WebAPIBasicAuthBackend provider decode.

(** A backend that reads an API key from its own header and answers with a
    ready-made result tuple. *)
Definition api_key_get_credentials : GetCredentials :=
  λ request,
    match META request !! "HTTP_X_API_KEY" with
    | Some key => ret (CredentialsTuple (String.eqb key "k-1", None, None))
    | None => ret NoCredentials
    end.

Definition api_key_backend : AuthBackendCls :=
  WebAPIAuthBackend provider (Some "ApiKey") api_key_get_credentials.

(** A backend that answers for a session ticket in its own header and, when
    the request has none, ends the session before it declines. *)
Definition ticket_get_credentials : GetCredentials :=
  λ request,
    match META request !! "HTTP_X_TICKET" with
    | Some ticket =>
        ret (CredentialsTuple (String.eqb ticket "t-1", None, None))
    | None => do_ auth_logout; ret NoCredentials
    end.

Definition ticket_backend : AuthBackendCls :=
  WebAPIAuthBackend provider (Some "Ticket") ticket_get_credentials.

Definition modules : Modules :=
  {[ "djblets.webapi.auth" := {[ "WebAPIBasicAuthBackend" := basic ]};
     "myapp.auth" := {[ "ApiKeyBackend" := api_key_backend ]} ]}.

Definition default_settings : Settings := {| WEB_API_AUTH_BACKENDS := None |}.
Definition empty_settings : Settings := {| WEB_API_AUTH_BACKENDS := Some [] |}.
Definition two_backends : Settings :=
  {| WEB_API_AUTH_BACKENDS :=
       Some ["djblets.webapi.auth.WebAPIBasicAuthBackend";
             "myapp.auth.ApiKeyBackend"] |}.
Definition api_key_only : Settings :=
  {| WEB_API_AUTH_BACKENDS := Some ["myapp.auth.ApiKeyBackend"] |}.

Definition anonymous : World := {| user := AnonymousUser; events := [] |}.
Definition alice_session : World := {| user := LoggedIn alice; events := [] |}.

(** [Authorization: Token dG9rZW4=] together with an API key. *)
Definition token_request : Request :=
  {| META := {[ "HTTP_AUTHORIZATION" := "Token dG9rZW4=";
                "HTTP_X_API_KEY" := "k-1" ]} |}.

(** An API key and no [Authorization] header. *)
Definition api_key_request : Request :=
  {| META := {[ "HTTP_X_API_KEY" := "k-1" ]} |}.

Definition bare_request : Request := {| META := ∅ |}.

End AuthSample.

Module HooksSample.
Import Hooks.

Definition stars : Column := {| column_object := 40; column_id := "stars" |}.

(** One hook of each class, attached by extension 1. *)
Definition attach_each : list Op :=
  [NewURLHook 1 [10; 11];
   NewSignalHook 1 20 30 None;
   NewTemplateHook 1 "sidebar" (Some "sidebar.html") [];
   NewDataGridColumnsHook 1 50 [stars]].

Definition each_attached : State := run_from initial_state attach_each.

(** The template hook of [each_attached], as an object. *)
Definition sidebar_hook : Hook :=
  {| cls := TemplateHook; extension := Some 1; initialized := Some true;
     attrs := TemplateAttrs [] "sidebar" (Some "sidebar.html") |}.

(** A template engine: it binds a name in the innermost scope, then returns
    the text of the template or raises when there is no template. *)
Definition render (template_name : option string) : M Context string :=
  do_ Context_setitem "block" (OtherValue "content");
  match template_name with
  | Some t => ret ("<" +:+ t +:+ ">")
  | None => raise (TemplateError "no template")
  end.

Definition page : Context :=
  {| pushed := []; outermost := {[ "title" := OtherValue "Dashboard" ]} |}.

End HooksSample.

Module MoreSamples.
Import Auth AuthSample Hooks HooksSample.

(** A second column with the identifier of [stars], and one of its own. *)
Definition stars_again : Column := {| column_object := 41; column_id := "stars" |}.
Definition votes : Column := {| column_object := 42; column_id := "votes" |}.

(** A template hook restricted to two pages. *)
Definition restricted_hook : Hook :=
  {| cls := TemplateHook; extension := Some 1; initialized := Some true;
     attrs := TemplateAttrs ["page-a"; "page-b"] "sidebar" None |}.

(** A backend that raises when asked to authenticate. *)
Definition broken_backend : AuthBackendCls :=
  WebAPIAuthBackend provider None WebAPIAuthBackend_get_credentials.

Definition more_modules : Modules :=
  <[ "broken.auth" := {[ "Broken" := broken_backend ]} ]> modules.

(** Three class paths of which the second names a module that does not
    exist. *)
Definition missing_module : Settings :=
  {| WEB_API_AUTH_BACKENDS :=
       Some ["myapp.auth.ApiKeyBackend"; "nowhere.Backend";
             "djblets.webapi.auth.WebAPIBasicAuthBackend"] |}.

(** [Authorization: Basic YWxpY2U6c2VjcmV0], the credentials of alice. *)
Definition basic_request : Request :=
  {| META := {[ "HTTP_AUTHORIZATION" := "Basic YWxpY2U6c2VjcmV0" ]} |}.

(** A header with two spaces between realm and token. *)
Definition spaced_request : Request :=
  {| META := {[ "HTTP_AUTHORIZATION" := "Basic  YWxpY2U6c2VjcmV0" ]} |}.

(** A header for another scheme, whose token is not base64 text. *)
Definition bearer_request : Request :=
  {| META := {[ "HTTP_AUTHORIZATION" := "Bearer a.b.c" ]} |}.

(** A header with a byte above 127 (an e with acute accent in Latin-1). *)
Definition latin_request : Request :=
  {| META := {[ "HTTP_AUTHORIZATION" :=
                  "Basic caf" +:+ String (ascii_of_nat 233) EmptyString ]} |}.

(** The sample hooks, then the shutdown of the first of them. *)
Definition first_shut_down : State := run_from each_attached [Shutdown 0].

End MoreSamples.

Set Default Proof Using "Type".

(** * Properties of webapi/auth.py *)

Section auth_properties.
Import Auth.

Variable auth_authenticate : string → string → option User.
Variable base64_decode : string → option string.

Ltac run := unfold bind, get, modify, ret, raise; simpl.

(** ** Building the chain *)

Lemma load_backend_default modules mod_ c g :
  modules !! "djblets.webapi.auth" = Some mod_ →
  mod_ !! "WebAPIBasicAuthBackend" = Some c →
  load_backend modules "djblets.webapi.auth.WebAPIBasicAuthBackend" g
  = ({| _auth_backends := _auth_backends g ++ [c]; rebuilds := rebuilds g |},
     Return tt).
Proof.
  intros Hm Hc. unfold load_backend, import_module.
  change (rfind "djblets.webapi.auth.WebAPIBasicAuthBackend" ".") with 19%Z.
  change (slice_to "djblets.webapi.auth.WebAPIBasicAuthBackend" 19)
    with "djblets.webapi.auth".
  change (slice_from "djblets.webapi.auth.WebAPIBasicAuthBackend" (19 + 1))
    with "WebAPIBasicAuthBackend".
  simpl. rewrite Hm. run. now rewrite Hc.
Qed.

(** Loading never touches the rebuild counter. *)
Lemma load_backend_rebuilds modules class_path g :
  rebuilds (load_backend modules class_path g).1 = rebuilds g.
Proof.
  unfold load_backend, import_module.
  destruct (String.eqb _ _); [reflexivity|].
  destruct (modules !! _) as [m|]; [|reflexivity].
  run. now destruct (m !! _).
Qed.

Lemma for_each_load_rebuilds modules class_paths g :
  rebuilds (for_each class_paths (load_backend modules) g).1 = rebuilds g.
Proof.
  revert g. induction class_paths as [|p l IH]; intros g; [reflexivity|].
  simpl. unfold bind.
  pose proof (load_backend_rebuilds modules p g) as Hp.
  destruct (load_backend modules p g) as [g1 [[]|e]]; simpl in *.
  - now rewrite IH.
  - exact Hp.
Qed.

(** The loop reads the list it extends and nothing else of the globals. *)
Lemma load_backend_counter_irrelevant modules class_path l n m :
  let r1 := load_backend modules class_path {| _auth_backends := l; rebuilds := n |} in
  let r2 := load_backend modules class_path {| _auth_backends := l; rebuilds := m |} in
  _auth_backends r1.1 = _auth_backends r2.1 ∧ r1.2 = r2.2.
Proof.
  unfold load_backend, import_module.
  destruct (String.eqb _ _); [now split|].
  destruct (modules !! _) as [md|]; [|now split].
  run. now destruct (md !! _).
Qed.

Lemma for_each_load_counter_irrelevant modules class_paths l n m :
  let r1 := for_each class_paths (load_backend modules)
              {| _auth_backends := l; rebuilds := n |} in
  let r2 := for_each class_paths (load_backend modules)
              {| _auth_backends := l; rebuilds := m |} in
  _auth_backends r1.1 = _auth_backends r2.1 ∧ r1.2 = r2.2.
Proof.
  revert l n m. induction class_paths as [|p ps IH]; intros l n m; [now split|].
  simpl. unfold bind.
  pose proof (load_backend_counter_irrelevant modules p l n m) as [H1 H2].
  pose proof (load_backend_rebuilds modules p {| _auth_backends := l; rebuilds := n |}) as Hn.
  pose proof (load_backend_rebuilds modules p {| _auth_backends := l; rebuilds := m |}) as Hm.
  simpl in *.
  destruct (load_backend modules p {| _auth_backends := l; rebuilds := n |})
    as [[l1 n1] r1];
  destruct (load_backend modules p {| _auth_backends := l; rebuilds := m |})
    as [[l2 m2] r2]; simpl in *; subst.
  destruct r2 as [[]|e]; [apply IH | now split].
Qed.

(** A call on a chain that is not empty answers it and changes nothing. *)
Lemma get_auth_backends_cached settings modules g :
  _auth_backends g ≠ [] →
  get_auth_backends settings modules g = (g, Return (_auth_backends g)).
Proof.
  intros Hne. unfold get_auth_backends. run.
  destruct (_auth_backends g) eqn:E; [done|]. simpl. now rewrite E.
Qed.

(** A call on an empty chain enters the rebuild once. *)
Lemma get_auth_backends_rebuilds settings modules g :
  _auth_backends g = [] →
  rebuilds (get_auth_backends settings modules g).1 = S (rebuilds g).
Proof.
  intros Hg. unfold get_auth_backends. run. rewrite Hg. simpl. run.
  pose proof (for_each_load_rebuilds modules
    (default ["djblets.webapi.auth.WebAPIBasicAuthBackend"]
       (WEB_API_AUTH_BACKENDS settings))
    {| _auth_backends := []; rebuilds := S (rebuilds g) |}) as H.
  destruct (for_each _ _ _) as [g1 [[]|e]]; simpl in *; exact H.
Qed.

(** What such a call builds and answers does not depend on the counter. *)
Lemma get_auth_backends_from_scratch settings modules g :
  _auth_backends g = [] →
  let r := get_auth_backends settings modules g in
  let r0 := get_auth_backends settings modules initial_globals in
  _auth_backends r.1 = _auth_backends r0.1 ∧ r.2 = r0.2.
Proof.
  intros Hg. unfold get_auth_backends, initial_globals. run. rewrite Hg. simpl. run.
  pose proof (for_each_load_counter_irrelevant modules
    (default ["djblets.webapi.auth.WebAPIBasicAuthBackend"]
       (WEB_API_AUTH_BACKENDS settings)) [] (S (rebuilds g)) 1) as [H1 H2].
  simpl in *.
  destruct (for_each _ _ {| _auth_backends := []; rebuilds := S (rebuilds g) |})
    as [g1 r1];
  destruct (for_each _ _ {| _auth_backends := []; rebuilds := 1 |})
    as [g2 r2]; simpl in *; subst.
  destruct r2 as [[]|e]; simpl; now rewrite H1.
Qed.

(** The list answered is the global the call leaves behind. *)
Lemma get_auth_backends_returns_global settings modules g g1 chain :
  get_auth_backends settings modules g = (g1, Return chain) →
  _auth_backends g1 = chain.
Proof.
  unfold get_auth_backends. run.
  destruct (_auth_backends g) eqn:E; simpl.
  - run. destruct (for_each _ _ _) as [g2 [[]|e]]; simpl; congruence.
  - congruence.
Qed.

Lemma reset_many_S n g :
  reset_many (S n) g = {| _auth_backends := []; rebuilds := rebuilds g |}.
Proof.
  induction n as [|n IH]; [reflexivity|].
  unfold reset_many in *. rewrite Nat.iter_succ, IH. reflexivity.
Qed.

Lemma get_auth_backends_each_cached configs g :
  _auth_backends g ≠ [] →
  get_auth_backends_each configs g
  = (g, (λ _, Return (_auth_backends g)) <$> configs).
Proof.
  intros Hne. induction configs as [|[st md] cs IH]; [reflexivity|].
  simpl. rewrite get_auth_backends_cached by done. now rewrite IH.
Qed.

(** C1 (as amended).  When the configuration does not define the backend
    list at all, [get_auth_backends], called on an unbuilt chain, returns
    the one-element list holding the built-in basic-auth backend; when the
    configuration sets the list to the empty list, it returns the empty
    list. *)
Theorem get_auth_backends_default_or_empty modules mod_ g :
  _auth_backends g = [] →
  modules !! "djblets.webapi.auth" = Some mod_ →
  mod_ !! "WebAPIBasicAuthBackend"
    = Some (WebAPIBasicAuthBackend auth_authenticate base64_decode) →
  get_auth_backends {| WEB_API_AUTH_BACKENDS := None |} modules g
  = ({| _auth_backends := [WebAPIBasicAuthBackend auth_authenticate base64_decode];
        rebuilds := S (rebuilds g) |},
     Return [WebAPIBasicAuthBackend auth_authenticate base64_decode])
  ∧ get_auth_backends {| WEB_API_AUTH_BACKENDS := Some [] |} modules g
  = ({| _auth_backends := []; rebuilds := S (rebuilds g) |}, Return []).
Proof.
  intros Hg Hm Hc. unfold get_auth_backends. split.
  - run. rewrite Hg. simpl. run.
    erewrite load_backend_default by eassumption. reflexivity.
  - run. now rewrite Hg.
Qed.

(** C2 (as amended).  Once a call of [get_auth_backends] has built a chain
    that is not empty, and until [reset_auth_backends] is called, every later
    call, under whatever configuration, returns that same ordered chain and
    leaves the globals, rebuild counter included, as they are.  After one or
    more consecutive calls of [reset_auth_backends], in any state, the next
    call rebuilds exactly once: the counter goes up by one, and the chain and
    the outcome are those of a build from the start of the process. *)
Theorem get_auth_backends_cached_until_reset settings modules g g1 chain :
  get_auth_backends settings modules g = (g1, Return chain) →
  chain ≠ [] →
  (∀ configs,
     get_auth_backends_each configs g1
     = (g1, (λ _, Return chain) <$> configs))
  ∧ (∀ n g' settings' modules',
       let r := get_auth_backends settings' modules' (reset_many (S n) g') in
       let r0 := get_auth_backends settings' modules' initial_globals in
       rebuilds r.1 = S (rebuilds g')
       ∧ _auth_backends r.1 = _auth_backends r0.1 ∧ r.2 = r0.2).
Proof.
  intros Hcall Hne.
  pose proof (get_auth_backends_returns_global _ _ _ _ _ Hcall) as Hg1.
  split.
  - intros configs. rewrite get_auth_backends_each_cached by congruence.
    now rewrite Hg1.
  - intros n g' settings' modules'. rewrite reset_many_S. simpl. split.
    + now rewrite get_auth_backends_rebuilds.
    + now apply get_auth_backends_from_scratch.
Qed.

(** ** Logging in with credentials *)

(** C4.  When the session is already authenticated under the supplied
    username, [login_with_credentials] returns [(True, None, None)] whatever
    the password, and leaves the world as it is: no event is added, so the
    identity provider is not called. *)
Theorem login_with_credentials_short_circuit request uname password w u :
  user w = LoggedIn u →
  username u = uname →
  login_with_credentials auth_authenticate request uname password w
  = (w, Return (true, None, None)).
Proof.
  intros Hu Hn. unfold login_with_credentials. run.
  rewrite Hu. simpl. rewrite Hn, String.eqb_refl. reflexivity.
Qed.

(** C8 (as amended).  When the session is not already authenticated under
    the supplied username, and the identity provider rejects the credentials
    or resolves them to an inactive user, [login_with_credentials] calls the
    provider once, clears the session and returns [(False, None, None)] as
    an ordinary value. *)
Theorem login_with_credentials_failure request uname password w :
  ¬ (is_authenticated (user w) = true ∧ username_of (user w) = uname) →
  (auth_authenticate uname password = None
   ∨ ∃ u, auth_authenticate uname password = Some u ∧ is_active u = false) →
  login_with_credentials auth_authenticate request uname password w
  = ({| user := AnonymousUser;
        events := events w ++
          [Log DEBUG ("Attempting authentication on API for user " +:+ uname);
           AuthAuthenticate uname password;
           Log DEBUG "API Login failed. No valid user found.";
           AuthLogout] |},
     Return (false, None, None)).
Proof.
  intros Hns Hrej. unfold login_with_credentials. run.
  destruct (is_authenticated (user w) && String.eqb (username_of (user w)) uname)
    eqn:E.
  { apply andb_true_iff in E as [E1 E2]. apply String.eqb_eq in E2. exfalso. apply Hns. now split. }
  unfold emit, auth_logout, set_user. run.
  destruct Hrej as [->|(u & -> & Hu)]; [|rewrite Hu]; run;
    repeat rewrite <- app_assoc; reflexivity.
Qed.

(** ** The base [authenticate] *)

Lemma emit_run e w :
  emit e w = ({| user := user w; events := events w ++ [e] |}, Return tt).
Proof. reflexivity. Qed.

(** A backend that keeps the base [authenticate] and declines leaves the
    world its [get_credentials] left: [authenticate] adds nothing of its
    own. *)
Lemma base_authenticate_decline scheme gc request w w' :
  authenticate (WebAPIAuthBackend auth_authenticate scheme gc) request w
    = (w', Return None) →
  gc request w = (w', Return NoCredentials).
Proof.
  simpl. unfold WebAPIAuthBackend_authenticate, bind.
  destruct (gc request w) as [w1 [[|uname password|r]|e]]; simpl.
  - unfold ret. by intros [= <-].
  - destruct (login_with_credentials _ _ _ _ _) as [? [?|?]]; discriminate.
  - discriminate.
  - discriminate.
Qed.

Lemma only_logged_trans w1 w2 w3 :
  only_logged w1 w2 → only_logged w2 w3 → only_logged w1 w3.
Proof.
  intros [Hu1 (l1 & He1)] [Hu2 (l2 & He2)]. split; [congruence|].
  exists (l1 ++ l2). rewrite He2, He1, fmap_app, app_assoc. reflexivity.
Qed.

Lemma only_logged_refl w : only_logged w w.
Proof. split; [done|]. exists []. simpl. now rewrite app_nil_r. Qed.

Lemma only_logged_emit level msg w :
  only_logged w (emit (Log level msg) w).1.
Proof. split; [done|]. by exists [(level, msg)]. Qed.

(** The Basic backend's [get_credentials] never touches the session and
    never calls the identity provider: the warning of its handler is all it
    can add. *)
Lemma basic_get_credentials_only_logs :
  only_logs (WebAPIBasicAuthBackend_get_credentials base64_decode).
Proof.
  intros request w. unfold WebAPIBasicAuthBackend_get_credentials.
  destruct (META request !! "HTTP_AUTHORIZATION") as [header|];
    [|apply only_logged_refl].
  assert (∀ w0, only_logged w0
            ((do text <- to_unicode header;
              do_ emit (Log WARNING
                          ("Failed to parse HTTP_AUTHORIZATION header "
                           +:+ text));
              ret (None : option (string * string * string))) w0).1)
    as Hhandler.
  { intros w0. unfold to_unicode, bind.
    destruct (is_ascii header); simpl; [|apply only_logged_refl].
    apply only_logged_emit. }
  unfold bind at 1. unfold try_except.
  match goal with
  | |- context [let (_, _) := ?body w in _] =>
      assert ((body w).1 = w) as Hbody
  end.
  { unfold to_unicode, of_result, bind, ret, raise.
    destruct (is_ascii header); [|done]. simpl.
    destruct (unpack2 (str_split header " ")) as [[realm token]|e]; [|done].
    destruct (base64_decode token) as [decoded|]; [|done].
    destruct (is_ascii decoded); [|done]. simpl.
    by destruct (unpack2 (str_split1 decoded ":")) as [[uname password]|e]. }
  match goal with
  | |- context [let (_, _) := ?body w in _] =>
      destruct (body w) as [w1 [[[[realm uname] password]|]|e]]
  end; simpl in Hbody; subst w1; simpl.
  - destruct (String.eqb realm "Basic"); apply only_logged_refl.
  - apply only_logged_refl.
  - destruct (is_ValueError e); [|apply only_logged_refl].
    specialize (Hhandler w).
    match goal with
    | |- context [let (_, _) := ?h w in _] =>
        change (only_logged w (h w).1) in Hhandler;
        destruct (h w) as [w2 [[[[realm' uname'] password']|]|?]]
    end; simpl in *; try destruct (String.eqb _ _); exact Hhandler.
Qed.

(** Declining backends that only log leave the session as it was and the
    identity provider uncalled. *)
Lemma only_logging_decline request pre w w1 :
  only_logging auth_authenticate pre →
  all_decline request pre w w1 →
  only_logged w w1.
Proof.
  intros Hquiet Hall.
  induction Hall as [w0|b l w0 wa wb Hd _ IH]; [apply only_logged_refl|].
  destruct (Hquiet b) as (scheme & gc & -> & Hgc); [left|].
  apply base_authenticate_decline in Hd.
  eapply only_logged_trans.
  - specialize (Hgc request w0). by rewrite Hd in Hgc.
  - apply IH. intros b' Hb'. apply Hquiet. by right.
Qed.

(** ** The loop of [check_login] *)

Lemma for_return_first_decisive request pre b post w w1 w2 r :
  all_decline request pre w w1 →
  authenticate b request w1 = (w2, Return (Some r)) →
  for_return (pre ++ b :: post) (λ c, authenticate c request) w
  = (w2, Return (Some r)).
Proof.
  intros Hpre Hb. induction Hpre as [w|b' l w wa wb Hd _ IH]; simpl.
  - unfold bind. now rewrite Hb.
  - unfold bind. rewrite Hd. now apply IH.
Qed.

Lemma for_return_all_decline request chain w w1 :
  all_decline request chain w w1 →
  for_return chain (λ c, authenticate c request) w = (w1, Return None).
Proof.
  induction 1 as [w|b' l w wa wb Hd _ IH]; simpl; [reflexivity|].
  unfold bind. rewrite Hd. exact IH.
Qed.

(** C3 (as amended).  For a request that carries an [HTTP_AUTHORIZATION]
    header and a chain that resolves, [check_login] tries the backends in the
    configured order and returns the result of the first one whose
    [authenticate] is decisive, in the world that backend leaves; backends
    that decline never end the loop, and when all decline the answer is
    None.  When the declining backends keep the base [authenticate] and
    their [get_credentials] does nothing but log, which is the case of the
    Basic backend, the decisive backend runs, and [check_login] ends when
    all decline, with the session untouched and the identity provider not
    called: log records are all the declining backends have added. *)
Theorem check_login_first_decisive settings modules request g g1 chain w :
  is_Some (META request !! "HTTP_AUTHORIZATION") →
  get_auth_backends settings modules g = (g1, Return chain) →
  (∀ pre b post w1 w2 r,
     chain = pre ++ b :: post →
     all_decline request pre w w1 →
     authenticate b request w1 = (w2, Return (Some r)) →
     check_login settings modules request (g, w)
     = ((g1, w2), Return (Some r))
     ∧ (only_logging auth_authenticate pre → only_logged w w1))
  ∧ (∀ w1,
       all_decline request chain w w1 →
       check_login settings modules request (g, w) = ((g1, w1), Return None)
       ∧ (only_logging auth_authenticate chain → only_logged w w1))
  ∧ only_logs (WebAPIBasicAuthBackend_get_credentials base64_decode).
Proof.
  intros Hheader Hchain.
  assert (∀ r w',
    for_return chain (λ c, authenticate c request) w = (w', r) →
    check_login settings modules request (g, w) = ((g1, w'), r)) as Hrun.
  { intros r w' Hloop. unfold check_login.
    destruct (decide _) as [_|Hno]; [|done].
    unfold bind, lift_globals, lift_world. simpl.
    rewrite Hchain. simpl. now rewrite Hloop. }
  split; [|split].
  - intros pre b post w1 w2 r -> Hpre Hb. split.
    + apply Hrun. eapply for_return_first_decisive; eassumption.
    + intros Hquiet. by eapply only_logging_decline.
  - intros w1 Hall. split.
    + apply Hrun. now apply for_return_all_decline.
    + intros Hquiet. by eapply only_logging_decline.
  - apply basic_get_credentials_only_logs.
Qed.

(** C10.  For a request without an [HTTP_AUTHORIZATION] entry in [META],
    [check_login] returns None and leaves the whole process state as it is:
    the chain is neither built nor read, and no backend runs. *)
Theorem check_login_without_header settings modules request p :
  META request !! "HTTP_AUTHORIZATION" = None →
  check_login settings modules request p = (p, Return None).
Proof.
  intros Hno. unfold check_login.
  destruct (decide _) as [[h Hh]|_]; [congruence|reflexivity].
Qed.

End auth_properties.

(** ** The properties on the sample data *)

Section auth_samples.
Import Auth AuthSample.

(** [Authorization: Basic] with alice's password, with a stale one, and
    with text that is not [user:password] once decoded. *)
Example check_login_basic_success :
  check_login default_settings modules
    {| META := {[ "HTTP_AUTHORIZATION" := "Basic YWxpY2U6c2VjcmV0" ]} |}
    (initial_globals, anonymous)
  = (({| _auth_backends := [basic]; rebuilds := 1 |},
      {| user := LoggedIn alice;
         events := [Log DEBUG "Attempting authentication on API for user alice";
                    AuthAuthenticate "alice" "secret";
                    AuthLogin alice] |}),
     Return (Some (true, None, None))).
Proof. reflexivity. Qed.

Example check_login_basic_failure :
  check_login default_settings modules
    {| META := {[ "HTTP_AUTHORIZATION" := "Basic YWxpY2U6b2xk" ]} |}
    (initial_globals, anonymous)
  = (({| _auth_backends := [basic]; rebuilds := 1 |},
      {| user := AnonymousUser;
         events := [Log DEBUG "Attempting authentication on API for user alice";
                    AuthAuthenticate "alice" "old";
                    Log DEBUG "API Login failed. No valid user found.";
                    AuthLogout] |}),
     Return (Some (false, None, None))).
Proof. reflexivity. Qed.

Example check_login_basic_malformed :
  check_login default_settings modules
    {| META := {[ "HTTP_AUTHORIZATION" := "Basic dG9rZW4=" ]} |}
    (initial_globals, anonymous)
  = (({| _auth_backends := [basic]; rebuilds := 1 |},
      {| user := AnonymousUser;
         events := [Log WARNING
           "Failed to parse HTTP_AUTHORIZATION header Basic dG9rZW4="] |}),
     Return None).
Proof. reflexivity. Qed.

(** A class path without a dot: [rfind] answers -1, the module name is the
    path without its last character and the attribute is the whole path. *)
Example load_backend_without_dot :
  (load_backend modules "Backend" initial_globals).2
  = Raise (ImproperlyConfigured_import "Backen").
Proof. reflexivity. Qed.

(** A chain whose second class path does not resolve: the call raises, and
    the global keeps the backend loaded before the failure. *)
Example get_auth_backends_partial :
  get_auth_backends
    {| WEB_API_AUTH_BACKENDS :=
         Some ["djblets.webapi.auth.WebAPIBasicAuthBackend";
               "myapp.auth.Missing"] |}
    modules initial_globals
  = ({| _auth_backends := [basic]; rebuilds := 1 |},
     Raise (ImproperlyConfigured_attr "myapp.auth" "Missing")).
Proof. reflexivity. Qed.

Lemma get_auth_backends_default_or_empty_witness :
  get_auth_backends default_settings modules initial_globals
  = ({| _auth_backends := [basic]; rebuilds := 1 |}, Return [basic])
  ∧ get_auth_backends empty_settings modules initial_globals
  = ({| _auth_backends := []; rebuilds := 1 |}, Return []).
Proof.
  apply (get_auth_backends_default_or_empty provider decode modules
           {[ "WebAPIBasicAuthBackend" := basic ]} initial_globals);
    reflexivity.
Defined.

(** C1, counterexample.  With the backend list set to the empty list,
    [get_auth_backends] returns the empty list, which is not a one-element
    list. *)
Lemma get_auth_backends_empty_setting_counterexample :
  (get_auth_backends empty_settings modules initial_globals).2 = Return []
  ∧ ¬ ∃ c, (get_auth_backends empty_settings modules initial_globals).2
           = Return [c].
Proof.
  split; [reflexivity|]. intros [c Hc]. discriminate Hc.
Qed.

Lemma get_auth_backends_cached_until_reset_witness :
  (∀ configs,
     get_auth_backends_each configs {| _auth_backends := [basic]; rebuilds := 1 |}
     = ({| _auth_backends := [basic]; rebuilds := 1 |},
        (λ _, Return [basic]) <$> configs))
  ∧ (∀ n g' settings' modules',
       let r := get_auth_backends settings' modules' (reset_many (S n) g') in
       let r0 := get_auth_backends settings' modules' initial_globals in
       rebuilds r.1 = S (rebuilds g')
       ∧ _auth_backends r.1 = _auth_backends r0.1 ∧ r.2 = r0.2).
Proof.
  apply (get_auth_backends_cached_until_reset default_settings modules
           initial_globals {| _auth_backends := [basic]; rebuilds := 1 |}
           [basic]); [reflexivity | discriminate].
Defined.

(** C2, counterexample.  With the backend list set to the empty list, the
    chain a first call builds is empty, and the second call, with no reset
    in between, rebuilds it: the rebuild counter goes from 1 to 2. *)
Lemma get_auth_backends_empty_chain_counterexample :
  ∃ g1 g2,
    get_auth_backends empty_settings modules initial_globals = (g1, Return [])
    ∧ get_auth_backends empty_settings modules g1 = (g2, Return [])
    ∧ rebuilds g1 = 1%nat ∧ rebuilds g2 = 2%nat.
Proof.
  exists {| _auth_backends := []; rebuilds := 1 |},
         {| _auth_backends := []; rebuilds := 2 |}.
  repeat split.
Qed.

Lemma check_login_first_decisive_witness :
  check_login two_backends modules token_request (initial_globals, anonymous)
  = (({| _auth_backends := [basic; api_key_backend]; rebuilds := 1 |},
      {| user := AnonymousUser;
         events := [Log WARNING
           "Failed to parse HTTP_AUTHORIZATION header Token dG9rZW4="] |}),
     Return (Some (true, None, None)))
  ∧ only_logged anonymous
      {| user := AnonymousUser;
         events := [Log WARNING
           "Failed to parse HTTP_AUTHORIZATION header Token dG9rZW4="] |}.
Proof.
  destruct (check_login_first_decisive provider decode two_backends modules
              token_request initial_globals
              {| _auth_backends := [basic; api_key_backend]; rebuilds := 1 |}
              [basic; api_key_backend] anonymous)
    as (Hfirst & _ & Hbasic).
  - eexists. reflexivity.
  - reflexivity.
  - destruct (Hfirst [basic] api_key_backend []
                {| user := AnonymousUser;
                   events := [Log WARNING
                     "Failed to parse HTTP_AUTHORIZATION header Token dG9rZW4="] |}
                {| user := AnonymousUser;
                   events := [Log WARNING
                     "Failed to parse HTTP_AUTHORIZATION header Token dG9rZW4="] |}
                (true, None, None)) as [Hrun Hlogs].
    + reflexivity.
    + eapply all_decline_cons; [reflexivity | apply all_decline_nil].
    + reflexivity.
    + split; [exact Hrun|]. apply Hlogs.
      intros b ->%list_elem_of_singleton.
      eexists _, _. split; [reflexivity | exact Hbasic].
Defined.

(** C3, counterexamples.  First, the chain holds one backend, which finds an
    API key in the request and is decisive; the request has no
    [HTTP_AUTHORIZATION] header, and [check_login] returns None without
    trying the backend.  Second, the chain holds a backend that ends the
    session when the request has no ticket for it, then the API key
    backend; the request has the header and an API key, and alice is logged
    in.  The first backend declines, the second is decisive, and
    [check_login] returns its success with alice logged out: the backend
    that declined has had a side effect. *)
Lemma check_login_decisive_backend_counterexample :
  ((get_auth_backends api_key_only modules initial_globals).2
     = Return [api_key_backend]
   ∧ authenticate api_key_backend api_key_request anonymous
     = (anonymous, Return (Some (true, None, None)))
   ∧ check_login api_key_only modules api_key_request
       (initial_globals, anonymous)
     = ((initial_globals, anonymous), Return None))
  ∧ (let g := {| _auth_backends := [ticket_backend; api_key_backend];
                 rebuilds := 1 |} in
     let logged_out := {| user := AnonymousUser; events := [AuthLogout] |} in
     authenticate ticket_backend token_request alice_session
       = (logged_out, Return None)
     ∧ check_login default_settings modules token_request (g, alice_session)
       = ((g, logged_out), Return (Some (true, None, None)))).
Proof. repeat split. Qed.

Lemma login_with_credentials_short_circuit_witness :
  login_with_credentials provider bare_request "alice" "old" alice_session
  = (alice_session, Return (true, None, None)).
Proof.
  apply (login_with_credentials_short_circuit provider bare_request
           "alice" "old" alice_session alice); reflexivity.
Defined.

Lemma login_with_credentials_failure_witness :
  login_with_credentials provider bare_request "alice" "old" anonymous
  = ({| user := AnonymousUser;
        events :=
          [Log DEBUG "Attempting authentication on API for user alice";
           AuthAuthenticate "alice" "old";
           Log DEBUG "API Login failed. No valid user found.";
           AuthLogout] |},
     Return (false, None, None)).
Proof.
  apply (login_with_credentials_failure provider bare_request
           "alice" "old" anonymous).
  - simpl. intros [H _]. discriminate H.
  - left. reflexivity.
Defined.

(** C8, counterexample.  The session is authenticated as alice and the
    request carries a password for alice that the identity provider
    rejects; [login_with_credentials] returns success and the session
    stays. *)
Lemma login_with_credentials_rejected_counterexample :
  provider "alice" "old" = None
  ∧ login_with_credentials provider bare_request "alice" "old" alice_session
    = (alice_session, Return (true, None, None)).
Proof. split; reflexivity. Qed.

Lemma check_login_without_header_witness :
  check_login api_key_only modules api_key_request (initial_globals, anonymous)
  = ((initial_globals, anonymous), Return None).
Proof.
  apply (check_login_without_header api_key_only modules api_key_request
           (initial_globals, anonymous)).
  reflexivity.
Defined.

End auth_samples.

(** * Properties of extensions/hooks.py *)

(** ** Removing from a list *)

Section remove.
Context {A : Type} `{EqDecision A}.
Implicit Types (x y : A) (l b : list A).

Lemma list_remove_first_absent x l : x ∉ l → list_remove_first x l = l.
Proof.
  induction l as [|y l IH]; [done|]. intros Hx. simpl.
  destruct (decide (x = y)) as [->|]; [exfalso; apply Hx; left|].
  f_equal. apply IH. intros ?. apply Hx. by right.
Qed.

Lemma list_remove_first_middle x l1 l2 :
  x ∉ l1 → list_remove_first x (l1 ++ x :: l2) = l1 ++ l2.
Proof.
  induction l1 as [|y l1 IH]; intros Hx; simpl.
  - by destruct (decide (x = x)).
  - destruct (decide (x = y)) as [->|]; [exfalso; apply Hx; left|].
    f_equal. apply IH. intros ?. apply Hx. by right.
Qed.

Lemma list_remove_first_last x l : x ∉ l → list_remove_first x (l ++ [x]) = l.
Proof. intros. rewrite list_remove_first_middle by done. apply app_nil_r. Qed.

Lemma list_remove_first_subseteq x y l : y ∈ list_remove_first x l → y ∈ l.
Proof.
  induction l as [|z l IH]; [done|]. simpl.
  destruct (decide (x = z)) as [->|]; [by right|].
  intros [->|?]%elem_of_cons; [left|right; auto].
Qed.

Lemma list_remove_first_NoDup x l : NoDup l → NoDup (list_remove_first x l).
Proof.
  induction 1 as [|z l Hz Hl IH]; [constructor|]. simpl.
  destruct (decide (x = z)); [done|]. constructor; [|done].
  intros ?%list_remove_first_subseteq. done.
Qed.

Lemma list_remove_first_gone x l : NoDup l → x ∉ list_remove_first x l.
Proof.
  induction 1 as [|z l Hz Hl IH]; [by intros ?%elem_of_nil|]. simpl.
  destruct (decide (x = z)) as [->|]; [done|].
  intros [->|?]%elem_of_cons; done.
Qed.

Lemma list_remove_first_other x y l :
  y ≠ x → y ∈ l → y ∈ list_remove_first x l.
Proof.
  intros Hne. induction l as [|z l IH]; [done|]. simpl.
  destruct (decide (x = z)) as [->|].
  - intros [->|?]%elem_of_cons; done.
  - intros [->|?]%elem_of_cons; [left|right; auto].
Qed.

Lemma list_remove_first_filter (P : A → Prop) `{∀ x, Decision (P x)} x l :
  filter P (list_remove_first x l)
  = if decide (P x) then list_remove_first x (filter P l) else filter P l.
Proof.
  induction l as [|z l IH]; simpl.
  - by destruct (decide (P x)).
  - destruct (decide (x = z)) as [->|Hne].
    + rewrite filter_cons. destruct (decide (P z)); [|done].
      simpl. by destruct (decide (z = z)).
    + rewrite !filter_cons, IH.
      destruct (decide (P z)), (decide (P x)); try done.
      simpl. by destruct (decide (x = z)).
Qed.

(** A block that sits in the list, with none of its elements before it, is
    removed as a whole and the rest keeps its order. *)
Lemma remove_each_block b l1 l2 :
  (∀ x, x ∈ b → x ∉ l1) → remove_each b (l1 ++ b ++ l2) = l1 ++ l2.
Proof.
  unfold remove_each. revert l1 l2. induction b as [|x b IH]; intros l1 l2 Hb.
  - done.
  - simpl. rewrite list_remove_first_middle by (apply Hb; left).
    apply IH. intros y Hy. apply Hb. by right.
Qed.

Lemma remove_each_last b l :
  (∀ x, x ∈ b → x ∉ l) → remove_each b (l ++ b) = l.
Proof.
  intros Hb. replace (l ++ b) with (l ++ b ++ []) by by rewrite app_nil_r.
  rewrite remove_each_block by done. apply app_nil_r.
Qed.

Lemma blocks_disjoint_snoc (bs : list (list A)) b :
  Hooks.blocks_disjoint bs → (∀ x, x ∈ b → x ∉ mjoin bs) →
  Hooks.blocks_disjoint (bs ++ [b]).
Proof.
  induction bs as [|b0 bs IH]; simpl.
  - intros _ _. split; [|done]. intros x _. apply not_elem_of_nil.
  - intros [H0 Hbs] Hb. split.
    + intros x Hx. rewrite join_app. simpl. rewrite app_nil_r.
      intros [?|?]%elem_of_app; [by eapply H0|].
      eapply Hb; [done|]. apply elem_of_app. by left.
    + apply IH; [done|]. intros x Hx ?. eapply Hb; [done|].
      apply elem_of_app. by right.
Qed.

Lemma blocks_disjoint_delete (bs1 bs2 : list (list A)) b :
  Hooks.blocks_disjoint (bs1 ++ b :: bs2) → Hooks.blocks_disjoint (bs1 ++ bs2).
Proof.
  induction bs1 as [|b0 bs1 IH]; simpl.
  - by intros [_ ?].
  - intros [H0 Hbs]. split; [|auto].
    intros x Hx. specialize (H0 x Hx). rewrite join_app in *. simpl in H0.
    intros [?|?]%elem_of_app; apply H0; apply elem_of_app; [by left|].
    right. apply elem_of_app. by right.
Qed.

Lemma blocks_disjoint_before (bs1 bs2 : list (list A)) b x :
  Hooks.blocks_disjoint (bs1 ++ b :: bs2) → x ∈ b → x ∉ mjoin bs1.
Proof.
  induction bs1 as [|b0 bs1 IH]; simpl.
  - intros _ _. apply not_elem_of_nil.
  - intros [H0 Hbs] Hx [Hin|Hin]%elem_of_app; [|by eapply IH].
    eapply H0; [done|]. rewrite join_app. apply elem_of_app. right.
    simpl. apply elem_of_app. by left.
Qed.

End remove.

Section hooks_properties.
Import Hooks.

(** ** What each operation computes *)

Lemma constructor_prefix {B} c e a (k : nat → M State B) s :
  (do self <- new_object c;
   do_ ExtensionHook_init self e;
   do_ set_attrs self a;
   k self) s
  = k (next_object s) (constructed c e a s).
Proof.
  unfold new_object, ExtensionHook_init, set_attrs, set_extension,
    Extension_hooks_add, deref, add_hook, set_initialized, bind, get, modify,
    ret. simpl.
  rewrite lookup_alter_eq, lookup_insert_eq. simpl.
  unfold constructed, with_heap. simpl.
  rewrite !alter_insert_eq. simpl. reflexivity.
Qed.

Lemma ExtensionHook_shutdown_run self h s :
  heap s !! self = Some h →
  initialized h = Some true →
  self ∈ hooks s (cls h) →
  ExtensionHook_shutdown self s = (detached self (cls h) s, Return tt).
Proof.
  intros Hh Hi Hin.
  unfold ExtensionHook_shutdown, deref, remove_hook, set_initialized, bind,
    get, modify, ret. simpl.
  rewrite Hh. simpl. rewrite Hi. simpl.
  destruct (decide _); [reflexivity|done].
Qed.

Lemma ExtensionHook_shutdown_twice self h s :
  heap s !! self = Some h →
  initialized h = Some false →
  ExtensionHook_shutdown self s = (s, Raise AssertionError).
Proof.
  intros Hh Hi. unfold ExtensionHook_shutdown, deref, bind, get, ret. simpl.
  rewrite Hh. simpl. now rewrite Hi.
Qed.

Lemma remove_patterns_run patterns s :
  remove_patterns patterns s
  = (with_dynamic_urls (remove_each patterns) s, Return tt).
Proof.
  unfold remove_patterns. revert s.
  induction patterns as [|p ps IH]; intros s.
  - destruct s; reflexivity.
  - simpl. unfold bind, modify. simpl. rewrite IH. reflexivity.
Qed.

Lemma remove_columns_run datagrid_cls columns s :
  for_each columns (λ column, remove_column datagrid_cls column) s
  = (with_datagrid_columns
       (remove_each ((λ column, (datagrid_cls, column)) <$> columns)) s,
     Return tt).
Proof.
  revert s. induction columns as [|c cs IH]; intros s.
  - destruct s; reflexivity.
  - simpl. unfold bind, remove_column, modify. simpl. rewrite IH. reflexivity.
Qed.

Lemma add_column_run datagrid_cls column s :
  add_column datagrid_cls column s
  = if decide ((datagrid_cls, column_id column)
               ∈ (λ e : nat * Column, (e.1, column_id e.2))
                   <$> datagrid_columns s)
    then (s, Raise ConfigurationError)
    else (with_datagrid_columns (λ l, l ++ [(datagrid_cls, column)]) s,
          Return tt).
Proof.
  unfold add_column, bind, get, modify, raise. simpl.
  case_decide; reflexivity.
Qed.

(** Adding columns changes the column registry and nothing else, whether
    the loop completes or stops on a collision. *)
Lemma add_columns_frame datagrid_cls columns s :
  ∃ l, (for_each columns (λ column, add_column datagrid_cls column) s).1
       = with_datagrid_columns (λ _, l) s.
Proof.
  revert s. induction columns as [|c cs IH]; intros s.
  - exists (datagrid_columns s). destruct s; reflexivity.
  - simpl. unfold bind. rewrite add_column_run.
    case_decide.
    + exists (datagrid_columns s). destruct s; reflexivity.
    + destruct (IH (with_datagrid_columns (λ l, l ++ [(datagrid_cls, c)]) s))
        as [l Hl].
      exists l. destruct (for_each _ _ _) as [s' [[]|e]]; simpl in *;
        rewrite Hl; reflexivity.
Qed.

(** When the loop completes, every column was appended, in order, and the
    identifiers are still unique. *)
Lemma add_columns_run datagrid_cls columns s s' :
  for_each columns (λ column, add_column datagrid_cls column) s
    = (s', Return tt) →
  s' = with_datagrid_columns
         (λ l, l ++ ((λ column, (datagrid_cls, column)) <$> columns)) s
  ∧ (NoDup (column_key <$> datagrid_columns s) →
     NoDup (column_key <$> datagrid_columns s')).
Proof.
  revert s. induction columns as [|c cs IH]; intros s.
  - simpl. intros [= <-]. split; [|done].
    destruct s; simpl. unfold with_datagrid_columns. simpl.
    by rewrite app_nil_r.
  - simpl. unfold bind. rewrite add_column_run.
    case_decide as Hfresh; [discriminate|].
    intros Hrun. apply IH in Hrun as [-> Hnd]. split.
    + unfold with_datagrid_columns. simpl. by rewrite <- app_assoc.
    + intros Hs. apply Hnd. simpl. rewrite fmap_app. simpl.
      apply NoDup_app. split; [done|]. split; [|apply NoDup_singleton].
      intros k Hk ->%list_elem_of_singleton. done.
Qed.

Lemma URLHook_init_run e patterns s :
  URLHook_init e patterns s
  = (with_dynamic_urls (λ l, l ++ patterns)
       (constructed URLHook e (URLAttrs patterns) s),
     Return (next_object s)).
Proof. unfold URLHook_init. rewrite constructor_prefix. reflexivity. Qed.

Lemma SignalHook_init_run e signal callback sender s :
  SignalHook_init e signal callback sender s
  = (with_receivers
       (λ l, l ++ [{| receiver_signal := signal;
                      receiver_uid := next_uuid s;
                      receiver_callback := callback;
                      receiver_sender := sender |}])
       (with_next_uuid (S (next_uuid s))
          (constructed SignalHook e
             (SignalAttrs signal callback (next_uuid s)) s)),
     Return (next_object s)).
Proof.
  unfold SignalHook_init, new_object, ExtensionHook_init, set_attrs,
    set_extension, Extension_hooks_add, deref, add_hook, set_initialized,
    uuid1, signal_connect, bind, get, modify, ret. simpl.
  rewrite lookup_alter_eq, lookup_insert_eq. simpl.
  unfold constructed, with_receivers, with_next_uuid, with_heap. simpl.
  rewrite !alter_insert_eq. reflexivity.
Qed.

Lemma TemplateHook_init_run e name template_name apply_to s :
  TemplateHook_init e name template_name apply_to s
  = (with_by_name <[name := by_name s name ++ [next_object s]]>
       (constructed TemplateHook e
          (TemplateAttrs apply_to name template_name) s),
     Return (next_object s)).
Proof.
  unfold TemplateHook_init. rewrite constructor_prefix.
  unfold bind, get, modify, ret, by_name. simpl.
  destruct (_by_name s !! name); reflexivity.
Qed.

Lemma DataGridColumnsHook_init_run e datagrid_cls columns s :
  DataGridColumnsHook_init e datagrid_cls columns s
  = let r := for_each columns (λ column, add_column datagrid_cls column)
               (constructed DataGridColumnsHook e
                  (DataGridColumnsAttrs datagrid_cls columns) s) in
    (r.1, match r.2 with
          | Return _ => Return (next_object s)
          | Raise x => Raise x
          end).
Proof.
  unfold DataGridColumnsHook_init. rewrite constructor_prefix.
  unfold bind, ret. simpl.
  destruct (for_each _ _ _) as [s' [[]|x]]; reflexivity.
Qed.

(** ** The registries *)

Lemma registry_inv_initial : registry_inv initial_state.
Proof.
  split.
  - intros self h. simpl. by rewrite lookup_empty.
  - intros self h. simpl. by rewrite lookup_empty.
  - intros c self. simpl. split.
    + intros []%elem_of_nil.
    + intros (h & Hh & _). by rewrite lookup_empty in Hh.
  - intros c. constructor.
Qed.

(** A registered instance exists, so its identity is below the next one. *)
Lemma registered_below s c self :
  registry_inv s → self ∈ hooks s c → (self < next_object s)%nat.
Proof.
  intros Hinv Hin. apply (hooks_initialized s Hinv) in Hin as (h & Hh & _).
  by eapply heap_below.
Qed.

Lemma next_object_unregistered s c :
  registry_inv s → next_object s ∉ hooks s c.
Proof. intros Hinv Hin. eapply registered_below in Hin; [lia|done]. Qed.

Lemma next_object_unallocated s :
  registry_inv s → heap s !! next_object s = None.
Proof.
  intros Hinv. destruct (heap s !! next_object s) as [h|] eqn:E; [|done].
  eapply heap_below in E; [lia|done].
Qed.

Lemma hooks_constructed c e a s c' :
  hooks (constructed c e a s) c'
  = hooks s c' ++ (if decide (c = c') then [next_object s] else []).
Proof.
  simpl. unfold insert, fn_insert.
  destruct (decide (c = c')) as [->|]; [done|]. by rewrite app_nil_r.
Qed.

Lemma registry_inv_constructed c e a s :
  attrs_ok c a → registry_inv s → registry_inv (constructed c e a s).
Proof.
  intros Ha Hinv. split.
  - intros self h. simpl. rewrite lookup_insert.
    case_decide as Hn; [lia|]. intros ?%(heap_below s Hinv). lia.
  - intros self h. simpl. rewrite lookup_insert.
    case_decide as Hn.
    + intros [= <-]. simpl. eauto.
    + by apply heap_constructed.
  - intros c' self. rewrite hooks_constructed. simpl heap.
    rewrite elem_of_app, lookup_insert, (hooks_initialized s Hinv). split.
    + intros [(h & Hh & Hc & Hi)|Hnew].
      * case_decide as Hn; [|eauto]. subst self.
        by rewrite (next_object_unallocated s Hinv) in Hh.
      * destruct (decide (c = c')) as [->|]; [|by apply elem_of_nil in Hnew].
        apply list_elem_of_singleton in Hnew as ->.
        case_decide; [|done]. eauto.
    + intros (h & Hh & Hc & Hi). case_decide as Hn.
      * injection Hh as <-. simpl in Hc. subst c' self. right.
        rewrite decide_True by done. by left.
      * left. eauto.
  - intros c'. rewrite hooks_constructed. apply NoDup_app. split; [|split].
    + by apply hooks_NoDup.
    + intros self Hin. destruct (decide (c = c')); [|apply not_elem_of_nil].
      intros ->%list_elem_of_singleton.
      by eapply next_object_unregistered.
    + destruct (decide (c = c')); [apply NoDup_singleton|constructor].
Qed.

(** The registry invariant looks at the instances and the registries only. *)
Lemma registry_inv_frame s s' :
  heap s' = heap s → next_object s' = next_object s → hooks s' = hooks s →
  registry_inv s → registry_inv s'.
Proof.
  intros Hh Hn Hk [H1 H2 H3 H4].
  split; rewrite ?Hh, ?Hn, ?Hk; done.
Qed.

Lemma hooks_detached self c s c' :
  hooks (detached self c s) c'
  = if decide (c = c') then list_remove_first self (hooks s c') else hooks s c'.
Proof.
  simpl. unfold insert, fn_insert. by destruct (decide (c = c')) as [->|].
Qed.

Lemma registry_inv_detached self h s :
  registry_inv s →
  heap s !! self = Some h →
  registry_inv (detached self (cls h) s).
Proof.
  intros Hinv Hh. split.
  - intros self' h'. simpl. rewrite lookup_alter.
    destruct (decide (self = self')) as [<-|Hs]; [|by apply heap_below].
    intros _. by eapply heap_below.
  - intros self' h'. simpl. rewrite lookup_alter.
    destruct (decide (self = self')) as [<-|Hs]; [|by apply heap_constructed].
    rewrite Hh. simpl. intros [= <-]. simpl.
    destruct (heap_constructed s Hinv _ _ Hh) as (? & ? & ?). eauto.
  - intros c' self'. rewrite hooks_detached. simpl heap. rewrite lookup_alter.
    pose proof (hooks_NoDup s Hinv c') as Hnd.
    destruct (decide (self = self')) as [<-|Hs].
    + rewrite Hh. simpl. split.
      * destruct (decide (cls h = c')) as [<-|Hc];
          [by intros ?%list_remove_first_gone|].
        intros (h' & Hh' & Hc' & _)%(hooks_initialized s Hinv). congruence.
      * intros (h' & [= <-] & _ & Hi). done.
    + rewrite <- (hooks_initialized s Hinv).
      destruct (decide (cls h = c')) as [<-|Hc]; [|done]. split.
      * apply list_remove_first_subseteq.
      * apply list_remove_first_other. congruence.
  - intros c'. rewrite hooks_detached.
    destruct (decide (cls h = c')); [|by apply hooks_NoDup].
    by apply list_remove_first_NoDup, hooks_NoDup.
Qed.

(** ** Shutting down, class by class *)

Lemma shutdown_unallocated self s :
  heap s !! self = None → shutdown self s = (s, Raise AttributeError).
Proof. intros Hh. unfold shutdown, deref, bind, get. simpl. by rewrite Hh. Qed.

Lemma shutdown_twice self h s :
  heap s !! self = Some h →
  initialized h = Some false →
  shutdown self s = (s, Raise AssertionError).
Proof.
  intros Hh Hi. unfold shutdown, deref, bind, get, ret. simpl. rewrite Hh. simpl.
  destruct (cls h);
    unfold DataGridColumnsHook_shutdown, URLHook_shutdown, SignalHook_shutdown,
      TemplateHook_shutdown, bind;
    by rewrite (ExtensionHook_shutdown_twice _ _ _ Hh Hi).
Qed.

(** The class-specific part runs on the detached state, where the instance
    still exists with the attributes it was given. *)
Lemma shutdown_dispatch self h s :
  registry_inv s →
  heap s !! self = Some h →
  initialized h = Some true →
  shutdown self s
  = match attrs h with
    | DataGridColumnsAttrs datagrid_cls columns =>
        for_each columns (λ column, remove_column datagrid_cls column)
          (detached self (cls h) s)
    | URLAttrs patterns => remove_patterns patterns (detached self (cls h) s)
    | SignalAttrs signal _ dispatch_uid =>
        signal_disconnect signal dispatch_uid (detached self (cls h) s)
    | TemplateAttrs _ name _ =>
        match _by_name s !! name with
        | None => (detached self (cls h) s, Raise KeyError)
        | Some l =>
            if decide (self ∈ l)
            then (with_by_name <[name := list_remove_first self l]>
                    (detached self (cls h) s), Return tt)
            else (detached self (cls h) s, Raise ValueError)
        end
    | NoAttrs => (detached self (cls h) s, Raise AttributeError)
    end.
Proof.
  intros Hinv Hh Hi.
  assert (self ∈ hooks s (cls h)) as Hin
    by (apply (hooks_initialized s Hinv); eauto).
  destruct (heap_constructed s Hinv _ _ Hh) as (_ & _ & Hok).
  pose proof (ExtensionHook_shutdown_run _ _ _ Hh Hi Hin) as Hbase.
  unfold shutdown, deref, bind, get, ret. simpl. rewrite Hh. simpl.
  destruct (cls h), (attrs h) eqn:Ha; try done;
    unfold DataGridColumnsHook_shutdown, URLHook_shutdown, SignalHook_shutdown,
      TemplateHook_shutdown, bind;
    rewrite Hbase; unfold deref, bind, get, ret, modify, raise; simpl;
    rewrite lookup_alter_eq, Hh; simpl; rewrite Ha; try done.
  change (_by_name (detached self TemplateHook s)) with (_by_name s).
  destruct (_by_name s !! _); [|done]. by case_decide.
Qed.

(** ** The name index *)

Lemma filter_ext_in {A} (P1 P2 : A → Prop)
    `{!∀ x, Decision (P1 x), !∀ x, Decision (P2 x)} (l : list A) :
  (∀ x, x ∈ l → P1 x ↔ P2 x) → filter P1 l = filter P2 l.
Proof.
  induction l as [|a l IH]; [done|]. intros Hext.
  rewrite !filter_cons, IH by (intros; apply Hext; by right).
  destruct (decide (P1 a)) as [H1|H1], (decide (P2 a)) as [H2|H2]; try done;
    exfalso; [apply H2|apply H1]; eapply Hext; try done; left.
Qed.

Lemma hook_name_constructed c e a s self :
  hook_name (constructed c e a s) self
  = if decide (next_object s = self) then name_of a else hook_name s self.
Proof.
  unfold hook_name. simpl. rewrite lookup_insert. by case_decide.
Qed.

Lemma hook_name_new c e a s :
  hook_name (constructed c e a s) (next_object s) = name_of a.
Proof. rewrite hook_name_constructed. by rewrite decide_True. Qed.

Lemma hook_name_detached self c s self' :
  hook_name (detached self c s) self' = hook_name s self'.
Proof.
  unfold hook_name. simpl. rewrite lookup_alter.
  destruct (decide (self = self')) as [<-|]; [|done].
  by destruct (heap s !! self).
Qed.

Lemma by_name_inv_initial : by_name_inv initial_state.
Proof. intros name. reflexivity. Qed.

Lemma by_name_inv_frame s s' :
  heap s' = heap s → hooks s' = hooks s → _by_name s' = _by_name s →
  by_name_inv s → by_name_inv s'.
Proof.
  intros Hh Hk Hb Hinv name. unfold by_name, hook_name.
  rewrite Hh, Hk, Hb. apply Hinv.
Qed.

Lemma by_name_inv_constructed c e a s :
  c ≠ TemplateHook →
  registry_inv s → by_name_inv s → by_name_inv (constructed c e a s).
Proof.
  intros Hc Hreg Hinv name. rewrite hooks_constructed.
  rewrite decide_False, app_nil_r by done.
  transitivity (by_name s name); [done|]. rewrite Hinv.
  apply filter_ext_in. intros self Hin. rewrite hook_name_constructed.
  rewrite decide_False; [done|].
  intros <-. by eapply next_object_unregistered.
Qed.

Lemma by_name_inv_template e apply_to name template_name s :
  registry_inv s → by_name_inv s →
  by_name_inv
    (with_by_name <[name := by_name s name ++ [next_object s]]>
       (constructed TemplateHook e
          (TemplateAttrs apply_to name template_name) s)).
Proof.
  intros Hreg Hinv name'. unfold by_name at 1. simpl _by_name.
  change (hooks (with_by_name ?f ?s)) with (hooks s).
  rewrite hooks_constructed, decide_True, filter_app by done.
  assert (filter (λ self, hook_name
                    (with_by_name <[name := by_name s name ++ [next_object s]]>
                       (constructed TemplateHook e
                          (TemplateAttrs apply_to name template_name) s))
                    self = Some name') (hooks s TemplateHook)
          = by_name s name') as ->.
  { etrans; [|symmetry; apply Hinv]. apply filter_ext_in. intros self Hin.
    change (hook_name (with_by_name ?f ?s) self) with (hook_name s self).
    rewrite hook_name_constructed, decide_False; [done|].
    intros <-. by eapply next_object_unregistered. }
  rewrite filter_cons, filter_nil.
  change (hook_name (with_by_name ?f ?s) ?x) with (hook_name s x).
  rewrite hook_name_new. simpl.
  rewrite lookup_insert. destruct (decide (name = name')) as [->|Hne].
  - simpl. by rewrite decide_True.
  - rewrite decide_False by congruence. by rewrite app_nil_r.
Qed.

Lemma by_name_inv_detached self h s :
  cls h ≠ TemplateHook →
  by_name_inv s → by_name_inv (detached self (cls h) s).
Proof.
  intros Hc Hinv name. rewrite hooks_detached, decide_False by done.
  transitivity (by_name s name); [done|]. rewrite Hinv.
  apply filter_ext_in. intros self' _. by rewrite hook_name_detached.
Qed.

Lemma by_name_inv_detached_template self h s :
  cls h = TemplateHook →
  heap s !! self = Some h →
  by_name_inv s →
  ∀ name, name_of (attrs h) = Some name →
  by_name_inv
    (with_by_name <[name := list_remove_first self (by_name s name)]>
       (detached self (cls h) s)).
Proof.
  intros Hc Hh Hinv name Hname name'. unfold by_name at 1. simpl _by_name.
  change (hooks (with_by_name ?f ?s)) with (hooks s).
  rewrite hooks_detached, decide_True by done.
  rewrite (filter_ext_in _ (λ self', hook_name s self' = Some name'));
    [|intros self' _; change (hook_name (with_by_name ?f ?s) ?x)
        with (hook_name s x); by rewrite hook_name_detached].
  rewrite list_remove_first_filter, <- Hinv.
  assert (hook_name s self = Some name) as Hs
    by (unfold hook_name; by rewrite Hh).
  rewrite lookup_insert. destruct (decide (name = name')) as [->|Hne].
  - simpl. by rewrite decide_True.
  - rewrite decide_False by congruence. done.
Qed.

(** A registered template hook is listed under its name. *)
Lemma by_name_registered self h s apply_to name template_name :
  registry_inv s → by_name_inv s →
  heap s !! self = Some h →
  initialized h = Some true →
  attrs h = TemplateAttrs apply_to name template_name →
  cls h = TemplateHook
  ∧ _by_name s !! name = Some (by_name s name)
  ∧ self ∈ by_name s name.
Proof.
  intros Hreg Hinv Hh Hi Ha.
  destruct (heap_constructed s Hreg _ _ Hh) as (_ & _ & Hok).
  rewrite Ha in Hok. destruct (cls h) eqn:Hc; try done.
  assert (self ∈ by_name s name) as Hin.
  { rewrite Hinv. apply list_elem_of_filter. split.
    - unfold hook_name. by rewrite Hh, Ha.
    - apply (hooks_initialized s Hreg). eauto. }
  split; [done|]. split; [|done].
  unfold by_name in *. destruct (_by_name s !! name); [done|].
  by apply elem_of_nil in Hin.
Qed.

(** Under the invariants, the shutdown of a registered instance returns;
    this is the state it leaves. *)
Lemma shutdown_run self h s :
  registry_inv s → by_name_inv s →
  heap s !! self = Some h →
  initialized h = Some true →
  shutdown self s
  = (match attrs h with
     | DataGridColumnsAttrs datagrid_cls columns =>
         with_datagrid_columns
           (remove_each ((λ column, (datagrid_cls, column)) <$> columns))
           (detached self (cls h) s)
     | URLAttrs patterns =>
         with_dynamic_urls (remove_each patterns) (detached self (cls h) s)
     | SignalAttrs signal _ dispatch_uid =>
         with_receivers (remove_receiver signal dispatch_uid)
           (detached self (cls h) s)
     | TemplateAttrs _ name _ =>
         with_by_name <[name := list_remove_first self (by_name s name)]>
           (detached self (cls h) s)
     | NoAttrs => s
     end, Return tt).
Proof.
  intros Hreg Hinv Hh Hi. rewrite (shutdown_dispatch _ _ _ Hreg Hh Hi).
  destruct (heap_constructed s Hreg _ _ Hh) as (_ & _ & Hok).
  destruct (attrs h) as [|g cols|ps|sg cb uid|ap name tn] eqn:Ha.
  - by destruct (cls h).
  - apply remove_columns_run.
  - apply remove_patterns_run.
  - reflexivity.
  - destruct (by_name_registered _ _ _ _ _ _ Hreg Hinv Hh Hi Ha)
      as (_ & -> & Hin).
    by rewrite decide_True.
Qed.

(** Peels off the updates of a state that an invariant does not look at. *)
Ltac unframe :=
  repeat match goal with
    | |- registry_inv (?w ?f ?s) =>
        apply (registry_inv_frame s); [reflexivity..|]
    | |- by_name_inv (?w ?f ?s) =>
        apply (by_name_inv_frame s); [reflexivity..|]
    end.

(** Both invariants hold after any operation, whether it returns or
    raises. *)
Lemma hooks_inv_perform op s :
  registry_inv s → by_name_inv s →
  registry_inv (perform op s).1 ∧ by_name_inv (perform op s).1.
Proof.
  intros Hreg Hinv.
  destruct op as [e g cols|e ps|e sg cb sender|e name tn ap|self]; simpl;
    unfold bind.
  - rewrite DataGridColumnsHook_init_run. simpl.
    destruct (add_columns_frame g cols
      (constructed DataGridColumnsHook e (DataGridColumnsAttrs g cols) s))
      as [l Hl].
    destruct (for_each _ _ _) as [s' [[]|x]]; simpl in *; subst s'.
    all: split; unframe;
      [by apply registry_inv_constructed|by apply by_name_inv_constructed].
  - rewrite URLHook_init_run. simpl. split; unframe.
    + by apply registry_inv_constructed.
    + by apply by_name_inv_constructed.
  - rewrite SignalHook_init_run. simpl. split; unframe.
    + by apply registry_inv_constructed.
    + by apply by_name_inv_constructed.
  - rewrite TemplateHook_init_run. simpl. split; unframe.
    + by apply registry_inv_constructed.
    + by apply by_name_inv_template.
  - destruct (heap s !! self) as [h|] eqn:Hh;
      [|by rewrite shutdown_unallocated].
    destruct (heap_constructed s Hreg _ _ Hh) as (_ & [[] Hi] & Hok);
      [|by rewrite (shutdown_twice _ _ _ Hh Hi)].
    rewrite (shutdown_run _ _ _ Hreg Hinv Hh Hi). simpl.
    pose proof (registry_inv_detached _ _ _ Hreg Hh) as Hreg'.
    destruct (attrs h) as [|g cols|ps|sg cb uid|ap name tn] eqn:Ha.
    + by destruct (cls h).
    + split; unframe; [done|].
      apply by_name_inv_detached; [|done]. by destruct (cls h).
    + split; unframe; [done|].
      apply by_name_inv_detached; [|done]. by destruct (cls h).
    + split; unframe; [done|].
      apply by_name_inv_detached; [|done]. by destruct (cls h).
    + destruct (by_name_registered _ _ _ _ _ _ Hreg Hinv Hh Hi Ha)
        as (Hc & _ & _).
      split; unframe; [done|].
      apply by_name_inv_detached_template; try done. by rewrite Ha.
Qed.

Lemma reachable_hooks_inv G s :
  reachable G s → registry_inv s ∧ by_name_inv s.
Proof.
  induction 1 as [|s op _ [Hreg Hinv] _].
  - split; [apply registry_inv_initial|apply by_name_inv_initial].
  - by apply hooks_inv_perform.
Qed.

Lemma list_remove_first_as_filter {A} `{EqDecision A} (x : A) l :
  NoDup l → list_remove_first x l = filter (λ y, y ≠ x) l.
Proof.
  induction 1 as [|z l Hz Hl IH]; [done|]. simpl. rewrite filter_cons.
  destruct (decide (x = z)) as [->|Hne].
  - rewrite decide_False by (intros Hzz; by apply Hzz).
    symmetry. clear IH Hl. induction l as [|y l IH]; [done|].
    rewrite filter_cons, decide_True.
    + f_equal. apply IH. intros ?. apply Hz. by right.
    + intros ->. apply Hz. left.
  - rewrite decide_True by congruence. by rewrite IH.
Qed.

Lemma by_name_NoDup s name :
  registry_inv s → by_name_inv s → NoDup (by_name s name).
Proof.
  intros Hreg Hinv. rewrite Hinv. apply NoDup_filter, hooks_NoDup, Hreg.
Qed.

(** The base shutdown of a registered instance, and the shutdown of its
    class: both return, take the instance out of the registry of its class
    and clear its flag. *)
Lemma ExtensionHook_shutdown_registered s self h :
  registry_inv s →
  heap s !! self = Some h →
  initialized h = Some true →
  ∃ s', ExtensionHook_shutdown self s = (s', Return tt)
        ∧ hooks s' (cls h) = list_remove_first self (hooks s (cls h))
        ∧ (self ∉ hooks s' (cls h))
        ∧ initialized <$> (heap s' !! self) = Some (Some false).
Proof.
  intros Hreg Hh Hi.
  assert (self ∈ hooks s (cls h)) as Hin
    by (apply (hooks_initialized s Hreg); eauto).
  exists (detached self (cls h) s).
  rewrite (ExtensionHook_shutdown_run _ _ _ Hh Hi Hin).
  rewrite hooks_detached, decide_True by done. simpl heap.
  rewrite lookup_alter_eq, Hh.
  split; [done|]. split; [done|]. split; [|done].
  apply list_remove_first_gone, hooks_NoDup, Hreg.
Qed.

Lemma shutdown_registered s self h :
  registry_inv s → by_name_inv s →
  heap s !! self = Some h →
  initialized h = Some true →
  ∃ s', shutdown self s = (s', Return tt)
        ∧ hooks s' (cls h) = list_remove_first self (hooks s (cls h))
        ∧ (self ∉ hooks s' (cls h))
        ∧ initialized <$> (heap s' !! self) = Some (Some false).
Proof.
  intros Hreg Hinv Hh Hi.
  destruct (ExtensionHook_shutdown_registered _ _ _ Hreg Hh Hi)
    as (s0 & Hrun & Hk & Hout & Hflag).
  assert (self ∈ hooks s (cls h)) as Hin
    by (apply (hooks_initialized s Hreg); eauto).
  rewrite (ExtensionHook_shutdown_run _ _ _ Hh Hi Hin) in Hrun.
  injection Hrun as <-.
  destruct (heap_constructed s Hreg _ _ Hh) as (_ & _ & Hok).
  rewrite (shutdown_run _ _ _ Hreg Hinv Hh Hi). eexists. split; [done|].
  destruct (attrs h); [by destruct (cls h)|done..].
Qed.

(** C6.  In any state a run can reach, every hook instance has its
    [initialized] flag set or cleared.  When it is set, the assertion of
    [ExtensionHook.shutdown] passes, the method returns, the instance is
    removed from the registry of its class and the flag is cleared; the same
    holds for the [shutdown] of the instance's own class.  When the flag is
    cleared, [shutdown] raises [AssertionError] and changes nothing. *)
Theorem shutdown_requires_initialized G s self h :
  reachable G s →
  heap s !! self = Some h →
  (initialized h = Some true ∨ initialized h = Some false)
  ∧ (initialized h = Some true →
     (∃ s', ExtensionHook_shutdown self s = (s', Return tt)
            ∧ hooks s' (cls h) = list_remove_first self (hooks s (cls h))
            ∧ (self ∉ hooks s' (cls h))
            ∧ initialized <$> (heap s' !! self) = Some (Some false))
     ∧ (∃ s', shutdown self s = (s', Return tt)
              ∧ hooks s' (cls h) = list_remove_first self (hooks s (cls h))
              ∧ (self ∉ hooks s' (cls h))
              ∧ initialized <$> (heap s' !! self) = Some (Some false)))
  ∧ (initialized h = Some false →
     ExtensionHook_shutdown self s = (s, Raise AssertionError)
     ∧ shutdown self s = (s, Raise AssertionError)).
Proof.
  intros [Hreg Hinv]%reachable_hooks_inv Hh.
  destruct (heap_constructed s Hreg _ _ Hh) as (_ & [b Hi] & Hok).
  split; [destruct b; auto|]. split.
  - intros Hi'. split.
    + by apply ExtensionHook_shutdown_registered.
    + by apply shutdown_registered.
  - intros Hi'. split.
    + by apply ExtensionHook_shutdown_twice with h.
    + by apply shutdown_twice with h.
Qed.

(** ** Template hooks by name *)

Lemma attach_templates_run e name args s :
  reachable any_op s →
  ∃ s', attach_templates e name args s
        = (s', Return (seq (next_object s) (length args)))
        ∧ reachable any_op s'
        ∧ by_name s' name
          = by_name s name ++ seq (next_object s) (length args).
Proof.
  revert s. induction args as [|[tn ap] args IH]; intros s Hs.
  - exists s. simpl. by rewrite app_nil_r.
  - simpl. unfold bind. rewrite TemplateHook_init_run.
    set (s1 := with_by_name _ _).
    assert (reachable any_op s1) as Hs1.
    { replace s1 with (perform (NewTemplateHook e name tn ap) s).1.
      - by apply reachable_perform.
      - simpl. unfold bind. by rewrite TemplateHook_init_run. }
    destruct (IH s1 Hs1) as (s' & Hrun & Hs' & Hby).
    exists s'. rewrite Hrun. simpl. split; [done|]. split; [done|].
    rewrite Hby. unfold s1 at 1. unfold by_name at 1. simpl.
    rewrite lookup_insert_eq. simpl. by rewrite <- app_assoc.
Qed.

(** C7.  From any state a run can reach, attaching N template hooks under
    one name returns N new instances, and [by_name] then answers the list
    it answered before followed by those N instances in the order they were
    attached; for a name under which no registered hook was attached it
    answers the empty list.  Shutting down a registered template hook
    removes it, and only it, from the list of its name: the others keep
    their relative order. *)
Theorem by_name_attachment_order s e name args :
  reachable any_op s →
  (∃ s', attach_templates e name args s
         = (s', Return (seq (next_object s) (length args)))
         ∧ reachable any_op s'
         ∧ by_name s' name
           = by_name s name ++ seq (next_object s) (length args))
  ∧ ((∀ self, self ∈ hooks s TemplateHook → hook_name s self ≠ Some name) →
     by_name s name = [])
  ∧ (∀ self h apply_to template_name,
       heap s !! self = Some h →
       initialized h = Some true →
       attrs h = TemplateAttrs apply_to name template_name →
       self ∈ by_name s name
       ∧ ∃ s', shutdown self s = (s', Return tt)
               ∧ by_name s' name = filter (λ x, x ≠ self) (by_name s name)
               ∧ ∀ name', name' ≠ name → by_name s' name' = by_name s name').
Proof.
  intros Hs. pose proof (reachable_hooks_inv _ _ Hs) as [Hreg Hinv].
  split; [by apply attach_templates_run|]. split.
  - intros Hnone. rewrite Hinv.
    induction (hooks s TemplateHook) as [|x l IH]; [done|].
    rewrite filter_cons, decide_False by (apply Hnone; left).
    apply IH. intros self Hin. apply Hnone. by right.
  - intros self h ap tn Hh Hi Ha.
    destruct (by_name_registered _ _ _ _ _ _ Hreg Hinv Hh Hi Ha)
      as (Hc & Hl & Hin).
    split; [done|].
    rewrite (shutdown_run _ _ _ Hreg Hinv Hh Hi), Ha. eexists. split; [done|].
    split.
    + unfold by_name at 1. simpl. rewrite lookup_insert_eq. simpl.
      apply list_remove_first_as_filter. by apply by_name_NoDup.
    + intros name' Hne. unfold by_name. simpl. by rewrite lookup_insert_ne.
Qed.

(** ** What the collaborators hold *)

Lemma mjoin_snoc {A} (B : list (list A)) b : mjoin (B ++ [b]) = mjoin B ++ b.
Proof. rewrite join_app. simpl. by rewrite app_nil_r. Qed.

Lemma mjoin_middle {A} (B1 B2 : list (list A)) b :
  mjoin (B1 ++ b :: B2) = mjoin B1 ++ b ++ mjoin B2.
Proof. by rewrite join_app. Qed.

Lemma NoDup_app_delete {A} (l1 b l2 : list A) :
  NoDup (l1 ++ b ++ l2) → NoDup (l1 ++ l2).
Proof.
  rewrite !NoDup_app. intros (H1 & Hd & _ & _ & H2). split; [done|].
  split; [|done]. intros x Hx Hx2. apply (Hd x Hx).
  apply elem_of_app. by right.
Qed.

Lemma blocks_frame {B} (F : HookAttrs → list B) s s' c :
  heap s' = heap s → hooks s' = hooks s → blocks F s' c = blocks F s c.
Proof. intros Hh Hk. unfold blocks. by rewrite Hh, Hk. Qed.

Lemma blocks_constructed {B} (F : HookAttrs → list B) c e a s c' :
  registry_inv s →
  blocks F (constructed c e a s) c'
  = blocks F s c' ++ (if decide (c = c') then [F a] else []).
Proof.
  intros Hreg. unfold blocks. rewrite hooks_constructed, fmap_app. f_equal.
  - apply Forall_fmap_ext, Forall_forall. intros self Hin. simpl.
    rewrite lookup_insert_ne; [done|].
    intros <-. by eapply next_object_unregistered.
  - destruct (decide (c = c')); [|done]. simpl. by rewrite lookup_insert_eq.
Qed.

Lemma blocks_detached_other {B} (F : HookAttrs → list B) self c s c' :
  c ≠ c' → blocks F (detached self c s) c' = blocks F s c'.
Proof.
  intros Hc. unfold blocks. rewrite hooks_detached, decide_False by done.
  apply Forall_fmap_ext, Forall_forall. intros self' _. simpl.
  rewrite lookup_alter. destruct (decide (self = self')) as [<-|]; [|done].
  by destruct (heap s !! self).
Qed.

Lemma blocks_detached {B} (F : HookAttrs → list B) self h s :
  registry_inv s →
  heap s !! self = Some h →
  initialized h = Some true →
  ∃ B1 B2,
    blocks F s (cls h) = B1 ++ F (attrs h) :: B2
    ∧ blocks F (detached self (cls h) s) (cls h) = B1 ++ B2.
Proof.
  intros Hreg Hh Hi.
  assert (self ∈ hooks s (cls h)) as Hin
    by (apply (hooks_initialized s Hreg); eauto).
  apply list_elem_of_split_l in Hin as (l1 & l2 & Hl & Hfirst).
  set (f := λ self', match heap s !! self' with
                     | Some h' => F (attrs h')
                     | None => []
                     end).
  exists (f <$> l1), (f <$> l2). unfold blocks. split.
  - fold f. rewrite Hl, fmap_app, fmap_cons. unfold f at 2. by rewrite Hh.
  - rewrite hooks_detached, decide_True, Hl by done.
    rewrite list_remove_first_middle, fmap_app by done.
    f_equal; apply Forall_fmap_ext, Forall_forall; intros self' _; simpl;
      rewrite lookup_alter; unfold f;
      (destruct (decide (self = self')) as [<-|]; [|done]);
      by rewrite Hh.
Qed.

Lemma remove_receiver_middle signal uid rs1 r rs2 :
  receiver_signal r = signal →
  receiver_uid r = uid →
  (∀ r', r' ∈ rs1 → receiver_uid r' ≠ uid) →
  remove_receiver signal uid (rs1 ++ r :: rs2) = rs1 ++ rs2.
Proof.
  intros Hs Hu. induction rs1 as [|r' rs1 IH]; intros Hfresh; simpl.
  - by rewrite decide_True.
  - rewrite decide_False.
    + f_equal. apply IH. intros r'' Hin. apply Hfresh. by right.
    + intros [_ Heq]. eapply Hfresh; [left|done].
Qed.

(** The three equations that make a state accounted for. *)
Lemma accounted_intro s :
  dynamic_urls s = mjoin (blocks patterns_of s URLHook) →
  receiver_key <$> receivers s = mjoin (blocks subscription_of s SignalHook) →
  datagrid_columns s = mjoin (blocks columns_of s DataGridColumnsHook) →
  accounted s.
Proof. by split. Qed.

(** Rewrites the blocks of an updated state to those of the state below
    the update, when the update touches neither instances nor registries. *)
Ltac norm_blocks :=
  repeat match goal with
    | |- context [blocks ?F (?w ?f ?s) ?c] =>
        progress change (blocks F (w f s) c) with (blocks F s c)
    end.

Lemma attach_url_accounted e ps s :
  registry_inv s → accounted s → collaborators_inv s →
  (∀ p, p ∈ ps → p ∉ dynamic_urls s) →
  let s' := with_dynamic_urls (λ l, l ++ ps)
              (constructed URLHook e (URLAttrs ps) s) in
  accounted s' ∧ collaborators_inv s'.
Proof.
  intros Hreg [Hu Hr Hc] [Hd Hb Hn Hk] Hfresh s'. unfold s'. split.
  - apply accounted_intro; norm_blocks; rewrite blocks_constructed by done;
      simpl.
    + by rewrite mjoin_snoc, <- Hu.
    + by rewrite app_nil_r.
    + by rewrite app_nil_r.
  - split; norm_blocks; try done.
    rewrite blocks_constructed by done. simpl.
    apply blocks_disjoint_snoc; [done|]. by rewrite <- Hu.
Qed.

Lemma attach_signal_accounted e signal callback sender s :
  registry_inv s → accounted s → collaborators_inv s →
  let s' := with_receivers
              (λ l, l ++ [{| receiver_signal := signal;
                             receiver_uid := next_uuid s;
                             receiver_callback := callback;
                             receiver_sender := sender |}])
              (with_next_uuid (S (next_uuid s))
                 (constructed SignalHook e
                    (SignalAttrs signal callback (next_uuid s)) s)) in
  accounted s' ∧ collaborators_inv s'.
Proof.
  intros Hreg [Hu Hr Hc] [Hd Hb Hn Hk] s'. unfold s'. split.
  - apply accounted_intro; norm_blocks; rewrite blocks_constructed by done;
      simpl.
    + by rewrite app_nil_r.
    + by rewrite fmap_app, mjoin_snoc, <- Hr.
    + by rewrite app_nil_r.
  - split; norm_blocks; simpl.
    + rewrite blocks_constructed by done. simpl. by rewrite app_nil_r.
    + intros r [Hin| ->%list_elem_of_singleton]%elem_of_app; simpl; [|lia].
      apply Hb in Hin. lia.
    + rewrite fmap_app. apply NoDup_app. split; [done|]. split.
      * intros u (r & -> & Hin)%list_elem_of_fmap Heq%list_elem_of_singleton.
        apply Hb in Hin. simpl in Heq. lia.
      * apply NoDup_singleton.
    + done.
Qed.

Lemma attach_template_accounted e ap name tn l s :
  registry_inv s → accounted s → collaborators_inv s →
  let s' := with_by_name l
              (constructed TemplateHook e (TemplateAttrs ap name tn) s) in
  accounted s' ∧ collaborators_inv s'.
Proof.
  intros Hreg [Hu Hr Hc] [Hd Hb Hn Hk] s'. unfold s'. split.
  - apply accounted_intro; norm_blocks; rewrite blocks_constructed by done;
      simpl; by rewrite app_nil_r.
  - split; norm_blocks; try done.
    rewrite blocks_constructed by done. simpl. by rewrite app_nil_r.
Qed.

Lemma attach_columns_accounted e g cols s s' :
  registry_inv s → accounted s → collaborators_inv s →
  for_each cols (λ column, add_column g column)
    (constructed DataGridColumnsHook e (DataGridColumnsAttrs g cols) s)
    = (s', Return tt) →
  accounted s' ∧ collaborators_inv s'.
Proof.
  intros Hreg [Hu Hr Hc] [Hd Hb Hn Hk] [-> Hnd]%add_columns_run. split.
  - apply accounted_intro; norm_blocks; rewrite blocks_constructed by done;
      simpl.
    + by rewrite app_nil_r.
    + by rewrite app_nil_r.
    + by rewrite mjoin_snoc, <- Hc.
  - split; norm_blocks; try done.
    + rewrite blocks_constructed by done. simpl. by rewrite app_nil_r.
    + by apply Hnd.
Qed.

Lemma shutdown_accounted self h s :
  registry_inv s → accounted s → collaborators_inv s →
  heap s !! self = Some h →
  initialized h = Some true →
  let s' := match attrs h with
            | DataGridColumnsAttrs datagrid_cls columns =>
                with_datagrid_columns
                  (remove_each ((λ column, (datagrid_cls, column)) <$> columns))
                  (detached self (cls h) s)
            | URLAttrs patterns =>
                with_dynamic_urls (remove_each patterns)
                  (detached self (cls h) s)
            | SignalAttrs signal _ dispatch_uid =>
                with_receivers (remove_receiver signal dispatch_uid)
                  (detached self (cls h) s)
            | TemplateAttrs _ name _ =>
                with_by_name <[name := list_remove_first self (by_name s name)]>
                  (detached self (cls h) s)
            | NoAttrs => s
            end in
  accounted s' ∧ collaborators_inv s'.
Proof.
  intros Hreg [Hu Hr Hc] [Hd Hb Hn Hk] Hh Hi.
  destruct (heap_constructed s Hreg _ _ Hh) as (_ & _ & Hok).
  destruct (attrs h) as [|g cols|ps|sg cb uid|ap name tn] eqn:Ha;
    destruct (cls h) eqn:Hcls; try done; simpl.
  - (* columns *)
    destruct (blocks_detached columns_of _ _ _ Hreg Hh Hi) as (B1 & B2 & HB & HB').
    rewrite Ha, Hcls in *. simpl in HB.
    assert (∀ x, x ∈ (λ column, (g, column)) <$> cols → x ∉ mjoin B1) as Hfirst.
    { rewrite Hc, HB, mjoin_middle in Hk. apply NoDup_fmap_1 in Hk.
      apply NoDup_app in Hk as (_ & Hdis & Hk).
      apply NoDup_app in Hk as (_ & _ & _).
      intros x Hx Hx1. apply (Hdis x Hx1). apply elem_of_app. by left. }
    split.
    + apply accounted_intro; norm_blocks; simpl.
      * by rewrite blocks_detached_other.
      * by rewrite blocks_detached_other.
      * rewrite HB', Hc, HB, mjoin_middle, remove_each_block by done.
        by rewrite join_app.
    + split; norm_blocks; simpl; try done.
      * by rewrite blocks_detached_other.
      * rewrite Hc, HB, mjoin_middle, remove_each_block by done.
        rewrite Hc, HB, mjoin_middle, !fmap_app in Hk.
        rewrite fmap_app. by eapply NoDup_app_delete.
  - (* routes *)
    destruct (blocks_detached patterns_of _ _ _ Hreg Hh Hi) as (B1 & B2 & HB & HB').
    rewrite Ha, Hcls in *. simpl in HB.
    assert (∀ x, x ∈ ps → x ∉ mjoin B1) as Hfirst.
    { intros x Hx. rewrite HB in Hd. by eapply blocks_disjoint_before. }
    split.
    + apply accounted_intro; norm_blocks; simpl.
      * rewrite HB', Hu, HB, mjoin_middle, remove_each_block by done.
        by rewrite join_app.
      * by rewrite blocks_detached_other.
      * by rewrite blocks_detached_other.
    + split; norm_blocks; simpl; try done.
      rewrite HB'. rewrite HB in Hd. by eapply blocks_disjoint_delete.
  - (* signals *)
    destruct (blocks_detached subscription_of _ _ _ Hreg Hh Hi)
      as (B1 & B2 & HB & HB').
    rewrite Ha, Hcls in *. simpl in HB.
    rewrite HB, mjoin_middle in Hr.
    apply fmap_app_inv in Hr as (rs1 & rs' & H1 & H2 & Hrs).
    symmetry in H2. apply fmap_cons_inv in H2 as (r & rs2 & Hkey & H2 & ->).
    injection Hkey as Hsg Huid Hcb.
    assert (remove_receiver sg uid (receivers s) = rs1 ++ rs2) as Hrem.
    { rewrite Hrs. apply remove_receiver_middle; [done..|].
      intros r' Hin Heq. rewrite Hrs, fmap_app, fmap_cons in Hn.
      apply NoDup_app in Hn as (_ & Hdis & _).
      apply (Hdis (receiver_uid r')); [by apply list_elem_of_fmap_2|].
      rewrite Heq, Huid. left. }
    split.
    + apply accounted_intro; norm_blocks; simpl.
      * by rewrite blocks_detached_other.
      * rewrite HB', Hrem, fmap_app, join_app. by rewrite <- H1, <- H2.
      * by rewrite blocks_detached_other.
    + split; norm_blocks; simpl; try done.
      * by rewrite blocks_detached_other.
      * rewrite Hrem. intros r' Hin. apply Hb. rewrite Hrs.
        apply elem_of_app in Hin as [?|?]; apply elem_of_app; [by left|].
        right. by right.
      * rewrite Hrem. rewrite Hrs, fmap_app, fmap_cons in Hn.
        rewrite fmap_app. by apply (NoDup_app_delete _ [receiver_uid r]).
  - (* templates *)
    split.
    + apply accounted_intro; norm_blocks; simpl;
        by rewrite blocks_detached_other.
    + split; norm_blocks; simpl; try done.
      by rewrite blocks_detached_other.
Qed.

(** On a run of operations that return, with route patterns handed to one
    instance at a time, the collaborators stay accounted for. *)
Lemma reachable_clean_inv s :
  reachable clean s →
  registry_inv s ∧ by_name_inv s ∧ accounted s ∧ collaborators_inv s.
Proof.
  intros Hs. pose proof (reachable_hooks_inv _ _ Hs) as [Hreg Hinv].
  split; [done|]. split; [done|]. clear Hreg Hinv.
  induction Hs as [|s op Hs [Hacc Hcol] [Hret Hguard]].
  - split; [by split|]. split; simpl; try done; [|constructor..].
    intros r []%elem_of_nil.
  - pose proof (reachable_hooks_inv _ _ Hs) as [Hreg Hinv].
    unfold returns in Hret.
    destruct op as [e g cols|e ps|e sg cb sender|e name tn ap|self];
      simpl in *; unfold bind in *.
    + specialize (Hret I).
      rewrite DataGridColumnsHook_init_run in *. simpl in *.
      destruct (for_each _ _ _) as [s' [[]|x]] eqn:Hrun; [|done].
      by eapply attach_columns_accounted.
    + rewrite URLHook_init_run. by apply attach_url_accounted.
    + rewrite SignalHook_init_run. by apply attach_signal_accounted.
    + rewrite TemplateHook_init_run. by apply attach_template_accounted.
    + destruct (heap s !! self) as [h|] eqn:Hh;
        [|by rewrite shutdown_unallocated].
      destruct (heap_constructed s Hreg _ _ Hh) as (_ & [[] Hi] & Hok);
        [|by rewrite (shutdown_twice _ _ _ Hh Hi)].
      rewrite (shutdown_run _ _ _ Hreg Hinv Hh Hi). simpl.
      by apply shutdown_accounted.
Qed.

(** ** Attach, then shut down *)

Lemma hooks_attach_detach c (f : HookPoint → list nat) n c' :
  n ∉ f c →
  (<[c := list_remove_first n ((<[c := f c ++ [n]]> f) c)]>
     (<[c := f c ++ [n]]> f)) c'
  = f c'.
Proof.
  intros Hn. unfold insert, fn_insert.
  destruct (decide (c = c')) as [<-|]; [|done].
  rewrite decide_True by done. by apply list_remove_first_last.
Qed.

Lemma by_name_below s name self :
  registry_inv s → by_name_inv s →
  self ∈ by_name s name → (self < next_object s)%nat.
Proof.
  intros Hreg Hinv. rewrite Hinv. intros [_ Hin]%list_elem_of_filter.
  by eapply registered_below.
Qed.

(** The instance a constructor has just returned can be shut down, and that
    puts every registry and every collaborator back as it was. *)
Lemma attach_then_shutdown s op :
  reachable clean s →
  is_attach op →
  clean s op →
  ∃ s2, shutdown (next_object s) (perform op s).1 = (s2, Return tt)
        ∧ (∀ c, hooks s2 c = hooks s c)
        ∧ dynamic_urls s2 = dynamic_urls s
        ∧ receivers s2 = receivers s
        ∧ datagrid_columns s2 = datagrid_columns s
        ∧ (∀ name, by_name s2 name = by_name s name).
Proof.
  intros (Hreg & Hinv & Hacc & Hcol)%reachable_clean_inv Hop [Hret Hguard].
  destruct (hooks_inv_perform op s Hreg Hinv) as [Hreg1 Hinv1].
  specialize (Hret Hop). unfold returns in Hret.
  assert (∀ c, next_object s ∉ hooks s c) as Hnew
    by (intros c; by apply next_object_unregistered).
  destruct op as [e g cols|e ps|e sg cb sender|e name tn ap|self];
    [| | | |done]; simpl in *; unfold bind in *.
  - rewrite DataGridColumnsHook_init_run in *. simpl in *.
    destruct (for_each _ _ _) as [s1 [[]|x]] eqn:Hrun; [|done]. simpl in *.
    apply add_columns_run in Hrun as [-> Hnd].
    specialize (Hnd (columns_NoDup s Hcol)). simpl in Hnd.
    erewrite shutdown_run; [|done|done|simpl; apply lookup_insert_eq|done].
    eexists. split; [done|]. simpl.
    split; [intros c; by apply hooks_attach_detach|].
    split; [done|]. split; [done|]. split; [|done].
    apply remove_each_last. intros x Hx Hin.
    apply NoDup_fmap_1, NoDup_app in Hnd as (_ & Hdis & _). by eapply Hdis.
  - rewrite URLHook_init_run in *. simpl in *.
    erewrite shutdown_run; [|done|done|simpl; apply lookup_insert_eq|done].
    eexists. split; [done|]. simpl.
    split; [intros c; by apply hooks_attach_detach|].
    split; [|done]. by apply remove_each_last.
  - rewrite SignalHook_init_run in *. simpl in *.
    erewrite shutdown_run; [|done|done|simpl; apply lookup_insert_eq|done].
    eexists. split; [done|]. simpl.
    split; [intros c; by apply hooks_attach_detach|].
    split; [done|]. split; [|done].
    rewrite remove_receiver_middle, app_nil_r; try done.
    intros r Hin. apply (uids_below s Hcol) in Hin. lia.
  - rewrite TemplateHook_init_run in *. simpl in *.
    erewrite shutdown_run; [|done|done|simpl; apply lookup_insert_eq|done].
    eexists. split; [done|]. simpl.
    split; [intros c; by apply hooks_attach_detach|].
    split; [done|]. split; [done|]. split; [done|].
    intros name'. unfold by_name. simpl.
    rewrite lookup_insert_eq. simpl.
    rewrite list_remove_first_last
      by (intros Hin; eapply by_name_below in Hin; [lia|done..]).
    rewrite lookup_insert. destruct (decide (name = name')) as [<-|Hne].
    + done.
    + by rewrite lookup_insert_ne.
Qed.

(** C5 (as amended).  Take any run of attaches and shutdowns in which every
    attach returns an instance and no route pattern object is handed to a
    new [URLHook] while it is in the routing table.  In the state it
    reaches, the shutdown of a registered instance of any class returns, the
    registry of the class no longer holds the instance, and each
    collaborator (routing table, signal bus, column registry) holds exactly
    what the instances still registered have added, in the order they were
    attached.  And the shutdown of an instance right after its attach leaves
    the registries, the routing table, the subscriptions, the columns and
    the lists by name as they were before the attach. *)
Theorem shutdown_reverses_attach s :
  reachable clean s →
  (∀ self h,
     heap s !! self = Some h →
     initialized h = Some true →
     ∃ s', shutdown self s = (s', Return tt)
           ∧ reachable clean s'
           ∧ (self ∉ hooks s' (cls h))
           ∧ accounted s')
  ∧ (∀ op,
       is_attach op →
       clean s op →
       ∃ s2, shutdown (next_object s) (perform op s).1 = (s2, Return tt)
             ∧ (∀ c, hooks s2 c = hooks s c)
             ∧ dynamic_urls s2 = dynamic_urls s
             ∧ receivers s2 = receivers s
             ∧ datagrid_columns s2 = datagrid_columns s
             ∧ (∀ name, by_name s2 name = by_name s name)).
Proof.
  intros Hs. split; [|intros op; by apply attach_then_shutdown].
  intros self h Hh Hi.
  pose proof (reachable_hooks_inv _ _ Hs) as [Hreg Hinv].
  destruct (shutdown_registered _ _ _ Hreg Hinv Hh Hi)
    as (s' & Hrun & _ & Hout & _).
  exists s'. split; [done|].
  assert (reachable clean s') as Hs'.
  { replace s' with (perform (Shutdown self) s).1 by (simpl; by rewrite Hrun).
    apply reachable_perform; [done|]. split; [|done]. intros []. }
  split; [done|]. split; [done|].
  by apply reachable_clean_inv in Hs' as (_ & _ & Hacc & _).
Qed.

Lemma reachable_run_from G s ops :
  reachable G s → run_ok G s ops → reachable G (run_from s ops).
Proof.
  revert s. induction ops as [|op ops IH]; intros s Hs; simpl; [done|].
  intros [Hop Hops]. apply IH; [|done]. by apply reachable_perform.
Qed.

End hooks_properties.

(** ** Rendering *)

Section render_properties.
Import Hooks.

Variable render : option string → M Context string.
Hypothesis render_is_scoped : render_scoped render.

(** C9.  For every template hook a run has made, every request and every
    render context, [render_to_string] calls the template engine on the
    context with one more scope, in which [extension] is bound to the
    extension of the hook and nothing else is bound; it returns what the
    engine returns or raises what it raises; and in both cases the context
    it leaves is the context it was given. *)
Theorem render_to_string_restores_context G s id self request context :
  reachable G s →
  heap s !! id = Some self →
  cls self = TemplateHook →
  ∃ ext apply_to name template_name,
    extension self = Some ext
    ∧ attrs self = TemplateAttrs apply_to name template_name
    ∧ render_to_string render self request context
      = (context,
         (render template_name
            {| pushed := <["extension" := ExtensionValue ext]> ∅
                         :: pushed context;
               outermost := outermost context |}).2).
Proof using render_is_scoped.
  intros [Hreg _]%reachable_hooks_inv Hself Hcls.
  destruct (heap_constructed s Hreg _ _ Hself) as ([ext Hext] & _ & Hok).
  rewrite Hcls in Hok.
  destruct (attrs self) as [| | | |ap name tn] eqn:Ha; try done.
  exists ext, ap, name, tn. split; [done|]. split; [done|].
  unfold render_to_string, Context_push, Context_setitem, try_finally,
    Context_pop, bind, modify. simpl. rewrite Hext, Ha. simpl.
  destruct (render_is_scoped tn (<["extension" := ExtensionValue ext]> ∅)
              (pushed context) (outermost context)) as [d' Hd'].
  destruct (render tn _) as [c' r]. simpl in *. subst c'. simpl.
  by destruct context.
Qed.

End render_properties.

(** ** The properties on the sample data *)

Section hooks_samples.
Import Hooks HooksSample.

Lemma each_attached_reachable : reachable clean each_attached.
Proof.
  apply reachable_run_from; [constructor|].
  repeat split; try (intros _; reflexivity).
  intros p _. apply not_elem_of_nil.
Defined.

Lemma shutdown_reverses_attach_witness :
  (∀ self h,
     heap each_attached !! self = Some h →
     initialized h = Some true →
     ∃ s', shutdown self each_attached = (s', Return tt)
           ∧ reachable clean s'
           ∧ (self ∉ hooks s' (cls h))
           ∧ accounted s')
  ∧ (∀ op,
       is_attach op →
       clean each_attached op →
       ∃ s2, shutdown (next_object each_attached) (perform op each_attached).1
             = (s2, Return tt)
             ∧ (∀ c, hooks s2 c = hooks each_attached c)
             ∧ dynamic_urls s2 = dynamic_urls each_attached
             ∧ receivers s2 = receivers each_attached
             ∧ datagrid_columns s2 = datagrid_columns each_attached
             ∧ (∀ name, by_name s2 name = by_name each_attached name)).
Proof.
  apply (shutdown_reverses_attach each_attached), each_attached_reachable.
Defined.

(** C5, counterexample.  Extension 1 attaches three [URLHook]s: the first
    with pattern 10, the second with pattern 12, the third with pattern 10
    again, the same object; then it shuts the third one down.  All four
    calls return.  Before the third attach the routing table held 10, 12;
    after the shutdown of the third it holds 12, 10, while the two instances
    still registered had added 10, then 12.  Shutting down the first
    instance instead leaves the same table, since both shutdowns hand the
    same pattern to [remove_patterns] on the same table; there 12, 10 is
    what the remaining instances had added.  So whichever occurrence of a
    shared pattern the routing table removes, one of the two shutdowns does
    not leave what was there before the attach. *)
Lemma shutdown_shared_pattern_counterexample :
  let s2 := run_from initial_state [NewURLHook 1 [10]; NewURLHook 1 [12]] in
  let s3 := (perform (NewURLHook 1 [10]) s2).1 in
  let after_third := (perform (Shutdown 2) s3).1 in
  let after_first := (perform (Shutdown 0) s3).1 in
  reachable returns after_third
  ∧ dynamic_urls s2 = [10; 12]
  ∧ dynamic_urls s3 = [10; 12; 10]
  ∧ dynamic_urls after_third = [12; 10]
  ∧ dynamic_urls after_third ≠ dynamic_urls s2
  ∧ blocks patterns_of after_third URLHook = [[10]; [12]]
  ∧ ¬ accounted after_third
  ∧ dynamic_urls after_first = dynamic_urls after_third
  ∧ blocks patterns_of after_first URLHook = [[12]; [10]].
Proof.
  intros s2 s3 after_third after_first. split.
  { do 2 (apply reachable_perform; [|vm_compute; reflexivity]).
    apply reachable_run_from; [constructor|]. by repeat split. }
  repeat split; try (vm_compute; reflexivity).
  - vm_compute. discriminate.
  - intros [Hu _ _]. vm_compute in Hu. discriminate Hu.
Qed.

Lemma shutdown_requires_initialized_witness :
  (initialized sidebar_hook = Some true
   ∨ initialized sidebar_hook = Some false)
  ∧ (initialized sidebar_hook = Some true →
     (∃ s', ExtensionHook_shutdown 2 each_attached = (s', Return tt)
            ∧ hooks s' (cls sidebar_hook)
              = list_remove_first 2 (hooks each_attached (cls sidebar_hook))
            ∧ (2 ∉ hooks s' (cls sidebar_hook))
            ∧ initialized <$> (heap s' !! 2) = Some (Some false))
     ∧ (∃ s', shutdown 2 each_attached = (s', Return tt)
              ∧ hooks s' (cls sidebar_hook)
                = list_remove_first 2 (hooks each_attached (cls sidebar_hook))
              ∧ (2 ∉ hooks s' (cls sidebar_hook))
              ∧ initialized <$> (heap s' !! 2) = Some (Some false)))
  ∧ (initialized sidebar_hook = Some false →
     ExtensionHook_shutdown 2 each_attached
       = (each_attached, Raise AssertionError)
     ∧ shutdown 2 each_attached = (each_attached, Raise AssertionError)).
Proof.
  apply (shutdown_requires_initialized clean each_attached 2 sidebar_hook).
  - apply each_attached_reachable.
  - reflexivity.
Defined.

Lemma each_attached_reachable_any : reachable any_op each_attached.
Proof. apply reachable_run_from; [constructor|]. by repeat split. Defined.

Lemma by_name_attachment_order_witness :
  (∃ s', attach_templates 1 "sidebar" [(Some "a.html", []); (None, ["page"])]
           each_attached
         = (s', Return (seq (next_object each_attached) 2))
         ∧ reachable any_op s'
         ∧ by_name s' "sidebar"
           = by_name each_attached "sidebar"
             ++ seq (next_object each_attached) 2)
  ∧ ((∀ self, self ∈ hooks each_attached TemplateHook →
              hook_name each_attached self ≠ Some "sidebar") →
     by_name each_attached "sidebar" = [])
  ∧ (∀ self h apply_to template_name,
       heap each_attached !! self = Some h →
       initialized h = Some true →
       attrs h = TemplateAttrs apply_to "sidebar" template_name →
       self ∈ by_name each_attached "sidebar"
       ∧ ∃ s', shutdown self each_attached = (s', Return tt)
               ∧ by_name s' "sidebar"
                 = filter (λ x, x ≠ self) (by_name each_attached "sidebar")
               ∧ ∀ name', name' ≠ "sidebar" →
                          by_name s' name' = by_name each_attached name').
Proof.
  apply (by_name_attachment_order each_attached 1 "sidebar"
           [(Some "a.html", []); (None, ["page"])]).
  apply each_attached_reachable_any.
Defined.

(** On the sample: two more hooks under the name of the one attached, and
    then the first of the three shut down. *)
Example by_name_three_then_two :
  let r1 := attach_templates 1 "sidebar" [(Some "a.html", []); (None, ["page"])]
              each_attached in
  let r2 := shutdown 2 r1.1 in
  r1.2 = Return [4; 5]
  ∧ by_name r1.1 "sidebar" = [2; 4; 5]
  ∧ by_name r1.1 "footer" = []
  ∧ r2.2 = Return tt
  ∧ by_name r2.1 "sidebar" = [4; 5].
Proof. repeat split; vm_compute; reflexivity. Qed.

Lemma sample_render_scoped : render_scoped render.
Proof.
  intros tn d ds base. exists (<["block" := OtherValue "content"]> d).
  by destruct tn.
Defined.

Lemma render_to_string_restores_context_witness :
  ∃ ext apply_to name template_name,
    extension sidebar_hook = Some ext
    ∧ attrs sidebar_hook = TemplateAttrs apply_to name template_name
    ∧ render_to_string render sidebar_hook tt page
      = (page,
         (render template_name
            {| pushed := <["extension" := ExtensionValue ext]> ∅
                         :: pushed page;
               outermost := outermost page |}).2).
Proof.
  apply (render_to_string_restores_context render sample_render_scoped clean
           each_attached 2 sidebar_hook tt page).
  - apply each_attached_reachable.
  - reflexivity.
  - reflexivity.
Defined.

End hooks_samples.

(** * More properties of webapi/auth.py *)

(** ** Strings *)

Section strings.
Implicit Types (s a b : string) (c : ascii).

Lemma append_cons x a b : String x a +:+ b = String x (a +:+ b).
Proof. reflexivity. Qed.

Lemma append_nil_l b : EmptyString +:+ b = b.
Proof. reflexivity. Qed.

Lemma append_nil_r s : s +:+ EmptyString = s.
Proof.
  induction s as [|x s IH]; [done|]. by rewrite append_cons, IH.
Qed.

Lemma append_assoc a b s : (a +:+ b) +:+ s = a +:+ b +:+ s.
Proof.
  induction a as [|x a IH]; [done|]. by rewrite !append_cons, IH.
Qed.

Lemma length_append a b :
  String.length (a +:+ b) = (String.length a + String.length b)%nat.
Proof.
  induction a as [|x a IH]; [done|]. rewrite append_cons. simpl. by rewrite IH.
Qed.

Lemma substring_prefix a b :
  String.substring 0 (String.length a) (a +:+ b) = a.
Proof.
  induction a as [|x a IH]; [by destruct b|].
  rewrite append_cons. simpl. by rewrite IH.
Qed.

Lemma substring_all s : String.substring 0 (String.length s) s = s.
Proof. rewrite <- (append_nil_r s) at 2. apply substring_prefix. Qed.

Lemma substring_suffix a b :
  String.substring (String.length a) (String.length b) (a +:+ b) = b.
Proof.
  induction a as [|x a IH]; [apply substring_all|].
  rewrite append_cons. simpl. exact IH.
Qed.

Lemma rfind_from_absent c s i last :
  count_char c s = 0%nat → rfind_from c s i last = last.
Proof.
  revert i last. induction s as [|x s IH]; intros i last; simpl; [done|].
  destruct (Ascii.eqb x c); [done|]. simpl. apply IH.
Qed.

Lemma rfind_from_last c a b i last :
  count_char c b = 0%nat →
  rfind_from c (a +:+ String c b) i last = (i + Z.of_nat (String.length a))%Z.
Proof.
  intros Hb. revert i last. induction a as [|x a IH]; intros i last.
  - rewrite append_nil_l. simpl.
    rewrite Ascii.eqb_refl, rfind_from_absent by done. lia.
  - rewrite append_cons. simpl. rewrite IH. simpl String.length. lia.
Qed.

Lemma split_acc_absent c s cur :
  count_char c s = 0%nat → split_acc c s cur = [cur +:+ s].
Proof.
  revert cur. induction s as [|x s IH]; intros cur; simpl.
  - by rewrite append_nil_r.
  - destruct (Ascii.eqb x c); [done|]. simpl. intros Hs.
    rewrite IH by done. by rewrite append_assoc, append_cons, append_nil_l.
Qed.

Lemma split_acc_first c a b cur :
  count_char c a = 0%nat →
  split_acc c (a +:+ String c b) cur = (cur +:+ a) :: split_acc c b EmptyString.
Proof.
  revert cur. induction a as [|x a IH]; intros cur.
  - intros _. rewrite append_nil_l. simpl.
    by rewrite Ascii.eqb_refl, append_nil_r.
  - rewrite append_cons. simpl.
    destruct (Ascii.eqb x c); [done|]. simpl. intros Ha.
    rewrite IH by done. by rewrite append_assoc, append_cons, append_nil_l.
Qed.

Lemma length_split_acc c s cur :
  length (split_acc c s cur) = S (count_char c s).
Proof.
  revert cur. induction s as [|x s IH]; intros cur; simpl; [done|].
  destruct (Ascii.eqb x c); simpl; by rewrite IH.
Qed.

Lemma split1_acc_absent c s cur :
  count_char c s = 0%nat → split1_acc c s cur = [cur +:+ s].
Proof.
  revert cur. induction s as [|x s IH]; intros cur; simpl.
  - by rewrite append_nil_r.
  - destruct (Ascii.eqb x c); [done|]. simpl. intros Hs.
    rewrite IH by done. by rewrite append_assoc, append_cons, append_nil_l.
Qed.

Lemma split1_acc_first c a b cur :
  count_char c a = 0%nat →
  split1_acc c (a +:+ String c b) cur = [cur +:+ a; b].
Proof.
  revert cur. induction a as [|x a IH]; intros cur.
  - intros _. rewrite append_nil_l. simpl.
    by rewrite Ascii.eqb_refl, append_nil_r.
  - rewrite append_cons. simpl.
    destruct (Ascii.eqb x c); [done|]. simpl. intros Ha.
    rewrite IH by done. by rewrite append_assoc, append_cons, append_nil_l.
Qed.

Lemma unpack2_length {A} (l : list A) :
  length l ≠ 2%nat → unpack2 l = Raise ValueError.
Proof. by destruct l as [|? [|? [|? ?]]]. Qed.

End strings.

(** ** Class paths *)

Section class_paths.
Import Auth.

(** What the loop body does once the class path is cut into a module name
    and an attribute name. *)
Lemma load_backend_cut modules path module attr g :
  slice_to path (rfind path ".") = module →
  slice_from path (rfind path "." + 1)%Z = attr →
  load_backend modules path g
  = if String.eqb module EmptyString then (g, Raise ValueError)
    else match modules !! module with
         | None => (g, Raise (ImproperlyConfigured_import module))
         | Some ns =>
             match ns !! attr with
             | Some c =>
                 ({| _auth_backends := _auth_backends g ++ [c];
                     rebuilds := rebuilds g |}, Return tt)
             | None => (g, Raise (ImproperlyConfigured_attr module attr))
             end
         end.
Proof.
  intros Hm Ha. unfold load_backend, import_module. rewrite Hm, Ha.
  destruct (String.eqb module EmptyString); [done|].
  destruct (modules !! module) as [ns|]; [|done].
  unfold bind, ret, get. simpl. by destruct (ns !! attr).
Qed.

Lemma class_path_cut module attr :
  count_char "." attr = 0%nat →
  slice_to (class_path module attr) (rfind (class_path module attr) ".")
    = module
  ∧ slice_from (class_path module attr)
      (rfind (class_path module attr) "." + 1)%Z = attr.
Proof.
  intros Hattr. unfold class_path, rfind.
  change ("." +:+ attr) with (String "." attr).
  rewrite rfind_from_last by done.
  unfold slice_to, slice_from, slice_bound, py_len.
  rewrite length_append. simpl String.length.
  replace (0 + Z.of_nat (String.length module) <? 0)%Z with false
    by (symmetry; apply Z.ltb_ge; lia).
  replace (0 + Z.of_nat (String.length module) + 1 <? 0)%Z with false
    by (symmetry; apply Z.ltb_ge; lia).
  split.
  - replace (Z.to_nat _) with (String.length module) by lia.
    apply substring_prefix.
  - replace (Z.to_nat _) with (String.length (module +:+ ".")) at 1 2
      by (rewrite length_append; simpl; lia).
    replace (String.length module + S (String.length attr)
             - String.length (module +:+ "."))%nat
      with (String.length attr) by (rewrite length_append; simpl; lia).
    change (String "." attr) with ("." +:+ attr).
    rewrite <- append_assoc. apply substring_suffix.
Qed.

Lemma dotless_path_cut path :
  count_char "." path = 0%nat →
  slice_to path (rfind path ".")
    = String.substring 0 (String.length path - 1) path
  ∧ slice_from path (rfind path "." + 1)%Z = path.
Proof.
  intros Hp. unfold rfind. rewrite rfind_from_absent by done.
  unfold slice_to, slice_from, slice_bound, py_len. simpl. split.
  - f_equal. lia.
  - replace (Z.to_nat _) with 0%nat by lia.
    rewrite Nat.sub_0_r. apply substring_all.
Qed.

Lemma load_backend_class_path modules module attr g :
  count_char "." attr = 0%nat →
  load_backend modules (class_path module attr) g
  = if String.eqb module EmptyString then (g, Raise ValueError)
    else match modules !! module with
         | None => (g, Raise (ImproperlyConfigured_import module))
         | Some ns =>
             match ns !! attr with
             | Some c =>
                 ({| _auth_backends := _auth_backends g ++ [c];
                     rebuilds := rebuilds g |}, Return tt)
             | None => (g, Raise (ImproperlyConfigured_attr module attr))
             end
         end.
Proof.
  intros Hattr. destruct (class_path_cut module attr Hattr) as [Hm Ha].
  by apply load_backend_cut.
Qed.

(** X1.  A class path made of a module name, a dot and a name without dots
    is cut at that last dot, whatever dots the module name has: the loader
    imports the module and reads the name from it.  It appends the class it
    finds to the chain; a module that cannot be imported and a name the
    module does not have are reported as [ImproperlyConfigured] with the
    chain left as it is, and an empty module name (a path that starts with
    its only dot) is a [ValueError]. *)
Theorem load_backend_cuts_at_last_dot modules module attr g :
  count_char "." attr = 0%nat →
  load_backend modules (class_path module attr) g
  = if String.eqb module EmptyString then (g, Raise ValueError)
    else match modules !! module with
         | None => (g, Raise (ImproperlyConfigured_import module))
         | Some ns =>
             match ns !! attr with
             | Some c =>
                 ({| _auth_backends := _auth_backends g ++ [c];
                     rebuilds := rebuilds g |}, Return tt)
             | None => (g, Raise (ImproperlyConfigured_attr module attr))
             end
         end.
Proof.
  intros Hattr. destruct (class_path_cut module attr Hattr) as [Hm Ha].
  by apply load_backend_cut.
Qed.

(** X2.  A class path without any dot is not rejected as such: [rfind]
    answers -1, so the module name is the path without its last character
    and the name looked up in it is the whole path.  A path of one character
    or none is a [ValueError]; a longer one is reported as an import error
    of the shortened name, unless a module of that name exists. *)
Theorem load_backend_without_dot_cut modules path g :
  count_char "." path = 0%nat →
  load_backend modules path g
  = let module := String.substring 0 (String.length path - 1) path in
    if String.eqb module EmptyString then (g, Raise ValueError)
    else match modules !! module with
         | None => (g, Raise (ImproperlyConfigured_import module))
         | Some ns =>
             match ns !! path with
             | Some c =>
                 ({| _auth_backends := _auth_backends g ++ [c];
                     rebuilds := rebuilds g |}, Return tt)
             | None => (g, Raise (ImproperlyConfigured_attr module path))
             end
         end.
Proof.
  intros Hp. destruct (dotless_path_cut path Hp) as [Hm Ha].
  by apply load_backend_cut.
Qed.

(** ** Building the chain, in general *)

Lemma load_backend_resolves modules path c g :
  resolves_to modules path c →
  load_backend modules path g
  = ({| _auth_backends := _auth_backends g ++ [c]; rebuilds := rebuilds g |},
     Return tt).
Proof.
  intros (module & attr & ns & -> & Hattr & Hne & Hm & Hc).
  destruct (class_path_cut module attr Hattr) as [Hcm Hca].
  rewrite (load_backend_cut _ _ _ _ _ Hcm Hca).
  apply String.eqb_neq in Hne. by rewrite Hne, Hm, Hc.
Qed.

Lemma for_each_load_resolves modules paths classes g :
  Forall2 (resolves_to modules) paths classes →
  for_each paths (load_backend modules) g
  = ({| _auth_backends := _auth_backends g ++ classes;
        rebuilds := rebuilds g |}, Return tt).
Proof.
  intros Hall. revert g.
  induction Hall as [|path c paths classes Hc _ IH]; intros g; simpl.
  - rewrite app_nil_r. by destruct g.
  - unfold bind. rewrite (load_backend_resolves _ _ _ _ Hc), IH. simpl.
    by rewrite <- app_assoc.
Qed.

Lemma for_each_load_stops modules good classes bad rest e g :
  Forall2 (resolves_to modules) good classes →
  (∀ g', load_backend modules bad g' = (g', Raise e)) →
  for_each (good ++ bad :: rest) (load_backend modules) g
  = ({| _auth_backends := _auth_backends g ++ classes;
        rebuilds := rebuilds g |}, Raise e).
Proof.
  intros Hall Hbad. revert g.
  induction Hall as [|path c paths cs Hc _ IH]; intros g; simpl.
  - unfold bind. rewrite Hbad, app_nil_r. by destruct g.
  - unfold bind. rewrite (load_backend_resolves _ _ _ _ Hc), IH. simpl.
    by rewrite <- app_assoc.
Qed.

(** X3.  When every configured class path resolves, [get_auth_backends],
    called on an unbuilt chain, returns the classes the paths name, in the
    order of the configuration, and keeps that list as the chain. *)
Theorem get_auth_backends_configured_order settings modules g paths classes :
  _auth_backends g = [] →
  WEB_API_AUTH_BACKENDS settings = Some paths →
  Forall2 (resolves_to modules) paths classes →
  get_auth_backends settings modules g
  = ({| _auth_backends := classes; rebuilds := S (rebuilds g) |},
     Return classes).
Proof.
  intros Hg Hs Hall. unfold get_auth_backends, bind, get, count_rebuild,
    set_auth_backends, modify, ret. simpl.
  rewrite Hg, Hs. simpl.
  by rewrite (for_each_load_resolves _ _ _ _ Hall).
Qed.

(** X4.  When a configured class path does not load (its module is missing,
    or the module lacks the name) after some that do, the call raises
    [ImproperlyConfigured] but keeps, as the chain, the classes loaded
    before the failure.  If there is at least one, every later call returns
    that shorter chain without raising and without rebuilding; if there is
    none, the next call tries again and raises again. *)
Theorem get_auth_backends_failure_keeps_prefix
    settings modules g good classes module attr rest e :
  _auth_backends g = [] →
  WEB_API_AUTH_BACKENDS settings = Some (good ++ class_path module attr :: rest) →
  Forall2 (resolves_to modules) good classes →
  count_char "." attr = 0%nat →
  module ≠ EmptyString →
  (modules !! module = None ∧ e = ImproperlyConfigured_import module
   ∨ ∃ ns, modules !! module = Some ns ∧ ns !! attr = None
           ∧ e = ImproperlyConfigured_attr module attr) →
  let g1 := {| _auth_backends := classes; rebuilds := S (rebuilds g) |} in
  get_auth_backends settings modules g = (g1, Raise e)
  ∧ (classes ≠ [] →
     ∀ settings' modules',
       get_auth_backends settings' modules' g1 = (g1, Return classes))
  ∧ (classes = [] →
     get_auth_backends settings modules g1
     = ({| _auth_backends := []; rebuilds := S (S (rebuilds g)) |}, Raise e)).
Proof.
  intros Hg Hs Hall Hattr Hne Hbad g1.
  assert (∀ g', load_backend modules (class_path module attr) g'
                = (g', Raise e)) as Hload.
  { intros g'. rewrite load_backend_class_path by done.
    apply String.eqb_neq in Hne. rewrite Hne.
    destruct Hbad as [[-> ->]|(ns & -> & -> & ->)]; done. }
  assert (∀ g0, _auth_backends g0 = [] →
            get_auth_backends settings modules g0
            = ({| _auth_backends := classes; rebuilds := S (rebuilds g0) |},
               Raise e)) as Hcall.
  { intros g0 Hg0. unfold get_auth_backends, bind, get, count_rebuild,
      set_auth_backends, modify, ret. simpl. rewrite Hg0, Hs. simpl.
    by rewrite (for_each_load_stops _ _ _ _ _ _ _ Hall Hload). }
  split; [by apply Hcall|]. split.
  - intros Hcs settings' modules'.
    by rewrite get_auth_backends_cached.
  - intros ->. by rewrite Hcall.
Qed.

End class_paths.

(** ** Logging in, and the Basic backend *)

Section more_auth_properties.
Import Auth.

Variable auth_authenticate : string → string → option User.
Variable base64_decode : string → option string.

Ltac run := unfold bind, get, modify, ret, raise; simpl.

Lemma login_with_credentials_cases request uname password w :
  ∃ b w',
    login_with_credentials auth_authenticate request uname password w
    = (w', Return (b, None, None))
    ∧ is_authenticated (user w') = b.
Proof.
  unfold login_with_credentials. run.
  destruct (is_authenticated (user w) && String.eqb (username_of (user w)) uname)
    eqn:Hsame.
  - exists true, w. split; [done|].
    by apply andb_true_iff in Hsame as [? _].
  - destruct (auth_authenticate uname password) as [u|]; [destruct (is_active u)|];
      eexists _, _; (split; [reflexivity|done]).
Qed.

(** X5.  [login_with_credentials] never raises, and its answer is always a
    tuple whose error message and headers are None and whose flag tells
    whether [request.user] is authenticated once it returns: a success
    leaves a logged-in session, a failure an anonymous one.  The flag is
    True exactly when the session was already that of the username or the
    identity provider answers an active user. *)
Theorem login_with_credentials_flag_is_session request uname password w :
  ∃ b w',
    login_with_credentials auth_authenticate request uname password w
    = (w', Return (b, None, None))
    ∧ is_authenticated (user w') = b
    ∧ (b = true ↔
       (is_authenticated (user w) = true ∧ username_of (user w) = uname)
       ∨ ∃ u, auth_authenticate uname password = Some u ∧ is_active u = true).
Proof.
  unfold login_with_credentials. run.
  destruct (is_authenticated (user w) && String.eqb (username_of (user w)) uname)
    eqn:Hsame.
  - apply andb_true_iff in Hsame as [Ha Hu%String.eqb_eq].
    exists true, w. split; [done|]. split; [done|]. split; [|done].
    intros _. by left.
  - assert (¬ (is_authenticated (user w) = true
               ∧ username_of (user w) = uname)) as Hns.
    { intros [Ha Hu%String.eqb_eq]. by rewrite Ha, Hu in Hsame. }
    destruct (auth_authenticate uname password) as [u|] eqn:Hp;
      [destruct (is_active u) eqn:Hact|].
    + eexists true, _. split; [reflexivity|]. split; [done|]. split; [|done].
      intros _. right. by exists u.
    + eexists false, _. split; [reflexivity|]. split; [done|].
      split; [done|]. intros [?|(u' & [= <-] & Hact')]; [done|congruence].
    + eexists false, _. split; [reflexivity|]. split; [done|].
      split; [done|]. by intros [?|(u' & ? & _)].
Qed.

(** X6.  When the session is not already that of the given username and the
    identity provider answers an active user, [login_with_credentials] logs
    that user in, replacing whoever was logged in before, and returns
    [(True, None, None)]; it has logged one debug record, asked the provider
    once with the credentials it was given, and called [auth.login] with the
    user the provider answered. *)
Theorem login_with_credentials_success request uname password w u :
  ¬ (is_authenticated (user w) = true ∧ username_of (user w) = uname) →
  auth_authenticate uname password = Some u →
  is_active u = true →
  login_with_credentials auth_authenticate request uname password w
  = ({| user := LoggedIn u;
        events := events w ++
          [Log DEBUG ("Attempting authentication on API for user " +:+ uname);
           AuthAuthenticate uname password;
           AuthLogin u] |},
     Return (true, None, None)).
Proof.
  intros Hns Hu Ha. unfold login_with_credentials. run.
  destruct (is_authenticated (user w) && String.eqb (username_of (user w)) uname)
    eqn:Hsame.
  { apply andb_true_iff in Hsame as [? ?%String.eqb_eq]. by destruct Hns. }
  rewrite Hu, Ha. unfold auth_login. run.
  by rewrite <- !app_assoc.
Qed.

Lemma str_split_two a b c :
  count_char c a = 0%nat → count_char c b = 0%nat →
  str_split (a +:+ String c b) c = [a; b].
Proof.
  intros Ha Hb. unfold str_split.
  rewrite split_acc_first, split_acc_absent by done. done.
Qed.

Lemma str_split1_two a b c :
  count_char c a = 0%nat →
  str_split1 (a +:+ String c b) c = [a; b].
Proof.
  intros Ha. unfold str_split1. by rewrite split1_acc_first.
Qed.

(** The world after the warning of the handler. *)
Lemma basic_get_credentials_spaced request w realm token :
  META request !! "HTTP_AUTHORIZATION" = Some (realm +:+ " " +:+ token) →
  is_ascii (realm +:+ " " +:+ token) = true →
  count_char " " realm = 0%nat →
  count_char " " token = 0%nat →
  WebAPIBasicAuthBackend_get_credentials base64_decode request w
  = let warned :=
      ({| user := user w;
          events := events w ++
            [Log WARNING ("Failed to parse HTTP_AUTHORIZATION header "
                          +:+ realm +:+ " " +:+ token)] |},
       Return NoCredentials) in
    match base64_decode token with
    | None => (w, Raise binascii_Error)
    | Some decoded =>
        if is_ascii decoded then
          match unpack2 (str_split1 decoded ":") with
          | Return (uname, password) =>
              (w, Return (if String.eqb realm "Basic"
                          then CredentialsDict uname password
                          else NoCredentials))
          | Raise _ => warned
          end
        else warned
    end.
Proof.
  intros Hh Ha Hr Ht. unfold WebAPIBasicAuthBackend_get_credentials.
  rewrite Hh. unfold try_except, to_unicode, of_result, bind at 1 2.
  rewrite Ha. unfold ret at 1. cbv iota beta.
  change (" " +:+ token) with (String " " token).
  rewrite str_split_two by done. simpl unpack2. cbv iota beta.
  unfold bind at 1.
  destruct (base64_decode token) as [decoded|]; [|done].
  unfold ret at 1. cbv iota beta. unfold bind at 1.
  destruct (is_ascii decoded); [|by destruct w].
  unfold ret at 1. cbv iota beta. unfold bind at 1.
  destruct (unpack2 (str_split1 decoded ":")) as [[uname password]|e] eqn:Hp.
  - simpl. unfold ret. by destruct (String.eqb realm "Basic").
  - assert (e = ValueError) as ->.
    { unfold unpack2 in Hp.
      destruct (str_split1 decoded ":") as [|? [|? [|? ?]]];
        simpl in Hp; congruence. }
    by destruct w.
Qed.

(** X7.  For a header of ASCII bytes made of a realm, one space and a
    token, where the token decodes to ASCII bytes that are a username
    without colon, a colon and a password (which may itself hold colons),
    the Basic backend's [get_credentials] logs nothing and returns the
    username and password when the realm is exactly [Basic]; for any other
    realm it declines. *)
Theorem basic_get_credentials_well_formed
    request w realm token uname password :
  META request !! "HTTP_AUTHORIZATION" = Some (realm +:+ " " +:+ token) →
  is_ascii (realm +:+ " " +:+ token) = true →
  count_char " " realm = 0%nat →
  count_char " " token = 0%nat →
  base64_decode token = Some (uname +:+ ":" +:+ password) →
  is_ascii (uname +:+ ":" +:+ password) = true →
  count_char ":" uname = 0%nat →
  WebAPIBasicAuthBackend_get_credentials base64_decode request w
  = (w, Return (if String.eqb realm "Basic"
                then CredentialsDict uname password
                else NoCredentials)).
Proof.
  intros Hh Ha Hr Ht Hd Hda Hu.
  rewrite (basic_get_credentials_spaced request w realm token) by done.
  cbv zeta. rewrite Hd, Hda.
  change (":" +:+ password) with (String ":" password).
  by rewrite str_split1_two.
Qed.

(** X8.  A header of ASCII bytes that does not hold exactly one space (none,
    two or more, also two in a row) cannot be unpacked into realm and
    token: the Basic backend logs one warning that quotes the header and
    declines, whatever the realm, without decoding anything. *)
Theorem basic_get_credentials_bad_spacing request w header :
  META request !! "HTTP_AUTHORIZATION" = Some header →
  is_ascii header = true →
  count_char " " header ≠ 1%nat →
  WebAPIBasicAuthBackend_get_credentials base64_decode request w
  = ({| user := user w;
        events := events w ++
          [Log WARNING ("Failed to parse HTTP_AUTHORIZATION header "
                        +:+ header)] |},
     Return NoCredentials).
Proof.
  intros Hh Ha Hn. unfold WebAPIBasicAuthBackend_get_credentials. rewrite Hh.
  unfold try_except, to_unicode, of_result, bind at 1 2.
  rewrite Ha. unfold ret at 1. cbv iota beta.
  rewrite unpack2_length;
    [|unfold str_split; rewrite length_split_acc; lia].
  by destruct w.
Qed.

(** X9.  For a header of ASCII bytes with one space, when the token decodes
    to bytes that are not all ASCII, or to a text without colon, the Basic
    backend logs one warning and declines, also when the realm is not
    [Basic]: the token is decoded, converted and unpacked before the realm
    is looked at. *)
Theorem basic_get_credentials_no_colon request w realm token decoded :
  META request !! "HTTP_AUTHORIZATION" = Some (realm +:+ " " +:+ token) →
  is_ascii (realm +:+ " " +:+ token) = true →
  count_char " " realm = 0%nat →
  count_char " " token = 0%nat →
  base64_decode token = Some decoded →
  is_ascii decoded = false ∨ count_char ":" decoded = 0%nat →
  WebAPIBasicAuthBackend_get_credentials base64_decode request w
  = ({| user := user w;
        events := events w ++
          [Log WARNING ("Failed to parse HTTP_AUTHORIZATION header "
                        +:+ realm +:+ " " +:+ token)] |},
     Return NoCredentials).
Proof.
  intros Hh Ha Hr Ht Hd Hbad.
  rewrite (basic_get_credentials_spaced request w realm token) by done.
  cbv zeta. rewrite Hd.
  destruct (is_ascii decoded); [|done].
  destruct Hbad as [?|Hc]; [done|].
  unfold str_split1. by rewrite split1_acc_absent.
Qed.

Lemma basic_get_credentials_undecodable request w realm token :
  META request !! "HTTP_AUTHORIZATION" = Some (realm +:+ " " +:+ token) →
  is_ascii (realm +:+ " " +:+ token) = true →
  count_char " " realm = 0%nat →
  count_char " " token = 0%nat →
  base64_decode token = None →
  WebAPIBasicAuthBackend_get_credentials base64_decode request w
  = (w, Raise binascii_Error).
Proof.
  intros Hh Ha Hr Ht Hd.
  rewrite (basic_get_credentials_spaced request w realm token) by done.
  cbv zeta. by rewrite Hd.
Qed.

Lemma basic_get_credentials_non_ascii request w header :
  META request !! "HTTP_AUTHORIZATION" = Some header →
  is_ascii header = false →
  WebAPIBasicAuthBackend_get_credentials base64_decode request w
  = (w, Raise UnicodeDecodeError).
Proof.
  intros Hh Ha. unfold WebAPIBasicAuthBackend_get_credentials. rewrite Hh.
  unfold try_except, to_unicode, bind at 1 2. rewrite Ha.
  unfold raise at 1. cbv iota beta. simpl is_ValueError. cbv iota.
  by unfold bind, raise.
Qed.

Lemma base_authenticate_raises scheme gc request w w' e :
  gc request w = (w', Raise e) →
  authenticate (WebAPIAuthBackend auth_authenticate scheme gc) request w
  = (w', Raise e).
Proof.
  intros Hgc. simpl. unfold WebAPIAuthBackend_authenticate, bind.
  by rewrite Hgc.
Qed.

Lemma basic_authenticate_raises request w w' e :
  WebAPIBasicAuthBackend_get_credentials base64_decode request w
    = (w', Raise e) →
  authenticate (WebAPIBasicAuthBackend auth_authenticate base64_decode)
    request w
  = (w', Raise e).
Proof. apply base_authenticate_raises. Qed.

Lemma for_return_raises request pre b post w w1 w2 e :
  all_decline request pre w w1 →
  authenticate b request w1 = (w2, Raise e) →
  for_return (pre ++ b :: post) (λ c, authenticate c request) w
  = (w2, Raise e).
Proof.
  intros Hpre Hb. induction Hpre as [w|b' l w wa wb Hd _ IH]; simpl.
  - unfold bind. by rewrite Hb.
  - unfold bind. rewrite Hd. by apply IH.
Qed.

Lemma check_login_cached settings modules request g w :
  is_Some (META request !! "HTTP_AUTHORIZATION") →
  _auth_backends g ≠ [] →
  check_login settings modules request (g, w)
  = let '(w', r) := for_return (_auth_backends g)
                      (λ c, authenticate c request) w in
    ((g, w'), r).
Proof.
  intros Hh Hg. unfold check_login.
  destruct (decide _) as [_|[]]; [|done].
  unfold bind, lift_globals, lift_world. simpl.
  by rewrite get_auth_backends_cached.
Qed.

(** X10.  For a header of ASCII bytes with one space, a token that the
    base64 codec rejects makes the Basic backend raise instead of
    declining, whatever the realm of the header (so also for a header meant
    for another backend).  [check_login] does not catch it: with the Basic
    backend first in the chain it raises [binascii.Error], no backend after
    it is tried, and neither the session nor the provider is touched. *)
Theorem check_login_undecodable_token
    settings modules request g w rest realm token :
  _auth_backends g
    = WebAPIBasicAuthBackend auth_authenticate base64_decode :: rest →
  META request !! "HTTP_AUTHORIZATION" = Some (realm +:+ " " +:+ token) →
  is_ascii (realm +:+ " " +:+ token) = true →
  count_char " " realm = 0%nat →
  count_char " " token = 0%nat →
  base64_decode token = None →
  check_login settings modules request (g, w)
  = ((g, w), Raise binascii_Error).
Proof.
  intros Hg Hh Ha Hr Ht Hd.
  rewrite check_login_cached by (by rewrite ?Hh, ?Hg).
  rewrite Hg.
  pose proof (for_return_raises request [] _ rest w w w binascii_Error
                (all_decline_nil _ _)
                (basic_authenticate_raises _ _ _ _
                   (basic_get_credentials_undecodable _ _ realm token
                      Hh Ha Hr Ht Hd)))
    as Hrun.
  simpl app in Hrun. by rewrite Hrun.
Qed.

(** X11.  An exception raised by a backend's [authenticate] ends
    [check_login]: when the backends before it decline and it raises,
    [check_login] raises the same exception in the world that backend left,
    and the backends after it are not tried. *)
Theorem check_login_backend_raises
    settings modules request g w pre b post w1 w2 e :
  is_Some (META request !! "HTTP_AUTHORIZATION") →
  _auth_backends g = pre ++ b :: post →
  all_decline request pre w w1 →
  authenticate b request w1 = (w2, Raise e) →
  check_login settings modules request (g, w) = ((g, w2), Raise e).
Proof.
  intros Hh Hg Hpre Hb.
  rewrite check_login_cached by (rewrite ?Hg; by try destruct pre).
  rewrite Hg. by rewrite (for_return_raises _ _ _ _ _ _ _ _ Hpre Hb).
Qed.

(** X12.  With the Basic backend first in the chain, a request whose header
    is [Basic], one space and a token of ASCII bytes that decodes to ASCII
    bytes [username:password] is settled by [login_with_credentials] on
    that username and password: [check_login] returns its tuple, success or
    failure, in the world it leaves, and no later backend is tried. *)
Theorem check_login_basic_header
    settings modules request g w rest token uname password :
  _auth_backends g
    = WebAPIBasicAuthBackend auth_authenticate base64_decode :: rest →
  META request !! "HTTP_AUTHORIZATION" = Some ("Basic " +:+ token) →
  is_ascii token = true →
  count_char " " token = 0%nat →
  base64_decode token = Some (uname +:+ ":" +:+ password) →
  is_ascii (uname +:+ ":" +:+ password) = true →
  count_char ":" uname = 0%nat →
  ∃ b w',
    login_with_credentials auth_authenticate request uname password w
    = (w', Return (b, None, None))
    ∧ check_login settings modules request (g, w)
      = ((g, w'), Return (Some (b, None, None))).
Proof.
  intros Hg Hh Ha Ht Hd Hda Hu.
  destruct (login_with_credentials_cases request uname password w)
    as (b & w' & Hlogin & _).
  exists b, w'. split; [done|].
  rewrite check_login_cached by (by rewrite ?Hh, ?Hg).
  rewrite Hg.
  assert (authenticate (WebAPIBasicAuthBackend auth_authenticate base64_decode)
            request w = (w', Return (Some (b, None, None)))) as Hb.
  { simpl. unfold WebAPIAuthBackend_authenticate. unfold bind at 1.
    rewrite (basic_get_credentials_spaced request w "Basic" token)
      by done.
    cbv zeta. rewrite Hd, Hda.
    change (":" +:+ password) with (String ":" password).
    rewrite str_split1_two by done. simpl. unfold bind, ret.
    by rewrite Hlogin. }
  pose proof (for_return_first_decisive request [] _ rest w w w' _
                (all_decline_nil _ _) Hb) as Hrun.
  simpl app in Hrun. by rewrite Hrun.
Qed.

(** X22.  A header that holds a byte above 127 makes the Basic backend
    raise [UnicodeDecodeError], whatever else the header holds: the
    conversion of the header fails inside the [try], where it is caught as
    a [ValueError], and fails again in the handler when the warning is
    formatted, so nothing is logged.  [check_login] does not catch it: with
    the Basic backend first in the chain it raises the same exception and
    tries no later backend. *)
Theorem check_login_non_ascii_header settings modules request g w rest header :
  _auth_backends g
    = WebAPIBasicAuthBackend auth_authenticate base64_decode :: rest →
  META request !! "HTTP_AUTHORIZATION" = Some header →
  is_ascii header = false →
  WebAPIBasicAuthBackend_get_credentials base64_decode request w
    = (w, Raise UnicodeDecodeError)
  ∧ check_login settings modules request (g, w)
    = ((g, w), Raise UnicodeDecodeError).
Proof.
  intros Hg Hh Ha.
  pose proof (basic_get_credentials_non_ascii request w header Hh Ha) as Hgc.
  split; [done|].
  rewrite check_login_cached by (by rewrite ?Hh, ?Hg).
  rewrite Hg.
  pose proof (for_return_raises request [] _ rest w w w UnicodeDecodeError
                (all_decline_nil _ _)
                (basic_authenticate_raises _ _ _ _ Hgc))
    as Hrun.
  simpl app in Hrun. by rewrite Hrun.
Qed.

End more_auth_properties.

(** * More properties of extensions/hooks.py *)

Section more_hooks_properties.
Import Hooks.

Lemma list_remove_first_sorted (R : relation nat) x l :
  StronglySorted R l → StronglySorted R (list_remove_first x l).
Proof.
  induction 1 as [|z l Hl IH Hz]; simpl; [constructor|].
  destruct (decide (x = z)); [done|]. constructor; [done|].
  apply Forall_forall. intros y Hy%list_remove_first_subseteq.
  by apply (proj1 (Forall_forall _ _) Hz).
Qed.

Lemma filter_sorted (R : relation nat) (P : nat → Prop)
    `{∀ x, Decision (P x)} l :
  StronglySorted R l → StronglySorted R (filter P l).
Proof.
  induction 1 as [|z l Hl IH Hz]; [constructor|].
  rewrite filter_cons. destruct (decide (P z)); [|done].
  constructor; [done|].
  apply Forall_forall. intros y [_ Hy]%list_elem_of_filter.
  by apply (proj1 (Forall_forall _ _) Hz).
Qed.

Lemma perform_attach_state {B} (m : M State B) s :
  ((do_ m; ret tt) s).1 = (m s).1.
Proof. unfold bind, ret. by destruct (m s) as [s' [b|e]]. Qed.

(** What an operation does to the instances, the registries, the
    extensions' sets and the keys of [_by_name]: an attach allocates and
    registers one instance, a shutdown of a registered instance clears its
    flag and unregisters it, and anything else changes nothing. *)
Lemma perform_shape op s :
  registry_inv s → by_name_inv s →
  let s' := (perform op s).1 in
  (∃ c e a,
      is_attach op ∧ attrs_ok c a
      ∧ heap s' = <[next_object s := {| cls := c; extension := Some e;
                                       initialized := Some true;
                                       attrs := a |}]> (heap s)
      ∧ next_object s' = S (next_object s)
      ∧ hooks s' = <[c := hooks s c ++ [next_object s]]> (hooks s)
      ∧ extension_hooks s'
        = <[e := {[next_object s]} ∪ default ∅ (extension_hooks s !! e)]>
            (extension_hooks s)
      ∧ (_by_name s' = _by_name s
         ∨ ∃ name l, _by_name s' = <[name := l]> (_by_name s)))
  ∨ (∃ self h,
        op = Shutdown self ∧ heap s !! self = Some h
        ∧ initialized h = Some true
        ∧ heap s' = alter (λ h, {| cls := cls h;
                                   extension := Hooks.extension h;
                                   initialized := Some false;
                                   attrs := attrs h |}) self (heap s)
        ∧ next_object s' = next_object s
        ∧ hooks s' = <[cls h := list_remove_first self (hooks s (cls h))]>
                       (hooks s)
        ∧ extension_hooks s' = extension_hooks s
        ∧ (_by_name s' = _by_name s
           ∨ ∃ name l, _by_name s' = <[name := l]> (_by_name s)))
  ∨ (∃ self, op = Shutdown self ∧ s' = s).
Proof.
  intros Hreg Hby s'. subst s'.
  destruct op as [e g cols|e ps|e sig cb sender|e name tn ap|self]; simpl perform.
  - left. exists DataGridColumnsHook, e, (DataGridColumnsAttrs g cols).
    rewrite perform_attach_state, DataGridColumnsHook_init_run. simpl.
    destruct (add_columns_frame g cols
                (constructed DataGridColumnsHook e
                   (DataGridColumnsAttrs g cols) s)) as [l ->].
    simpl. repeat split; auto.
  - left. exists URLHook, e, (URLAttrs ps).
    rewrite perform_attach_state, URLHook_init_run. simpl.
    repeat split; auto.
  - left. exists SignalHook, e, (SignalAttrs sig cb (next_uuid s)).
    rewrite perform_attach_state, SignalHook_init_run. simpl.
    repeat split; auto.
  - left. exists TemplateHook, e, (TemplateAttrs ap name tn).
    rewrite perform_attach_state, TemplateHook_init_run. simpl.
    repeat split; eauto.
  - destruct (heap s !! self) as [h|] eqn:Hh.
    2:{ right. right. exists self. split; [done|].
        by rewrite shutdown_unallocated. }
    destruct (heap_constructed s Hreg _ _ Hh) as (_ & [b Hb] & Hok).
    destruct b.
    2:{ right. right. exists self. split; [done|].
        by rewrite (shutdown_twice self h). }
    right. left. exists self, h.
    rewrite (shutdown_run self h s Hreg Hby Hh Hb).
    destruct (attrs h) as [|g cols|ps|sig cb uid|ap name tn];
      [by destruct (cls h)|..]; simpl; repeat split; eauto.
Qed.

Lemma reachable_run_inv G s ops :
  reachable G s → registry_inv (run_from s ops) ∧ by_name_inv (run_from s ops).
Proof.
  intros Hs%reachable_hooks_inv. revert s Hs.
  induction ops as [|op ops IH]; intros s [Hreg Hby]; [done|].
  simpl. apply IH. by apply hooks_inv_perform.
Qed.

(** X13.  After any run of attaches and shutdowns, also one in which
    operations raised, the [hooks] list of each class holds exactly the
    instances of that class whose [initialized] flag is True, each of them
    once. *)
Theorem hooks_lists_initialized G s c :
  reachable G s →
  NoDup (hooks s c)
  ∧ ∀ self,
      self ∈ hooks s c ↔
      ∃ h, heap s !! self = Some h ∧ cls h = c ∧ initialized h = Some true.
Proof.
  intros [Hreg _]%reachable_hooks_inv. split.
  - apply (hooks_NoDup s Hreg).
  - apply (hooks_initialized s Hreg).
Qed.

(** X14.  After any run, [TemplateHook.by_name] of a name returns exactly
    the template hooks that were given that name and have not been shut
    down, each of them once: a hook that was shut down is never returned,
    and neither is a hook of another name. *)
Theorem by_name_lists_live_hooks G s name :
  reachable G s →
  NoDup (by_name s name)
  ∧ ∀ self,
      self ∈ by_name s name ↔
      ∃ h apply_to template_name,
        heap s !! self = Some h
        ∧ cls h = TemplateHook
        ∧ initialized h = Some true
        ∧ attrs h = TemplateAttrs apply_to name template_name.
Proof.
  intros [Hreg Hby]%reachable_hooks_inv. split; [by apply by_name_NoDup|].
  intros self. rewrite (Hby name), list_elem_of_filter.
  rewrite (hooks_initialized s Hreg). unfold hook_name. split.
  - intros [Hname (h & Hh & Hc & Hi)]. rewrite Hh in Hname.
    destruct (attrs h) as [| | | |ap name' tn] eqn:Ha; try done.
    injection Hname as ->. by exists h, ap, tn.
  - intros (h & ap & tn & Hh & Hc & Hi & Ha). rewrite Hh, Ha.
    split; [done|]. by exists h.
Qed.

Lemma by_name_keys_run s name ops :
  registry_inv s → by_name_inv s →
  is_Some (_by_name s !! name) →
  is_Some (_by_name (run_from s ops) !! name).
Proof.
  revert s. induction ops as [|op ops IH]; intros s Hreg Hby Hkey; [done|].
  simpl. destruct (hooks_inv_perform op s Hreg Hby) as [Hreg' Hby'].
  apply IH; [done..|].
  destruct (perform_shape op s Hreg Hby)
    as [(c & e & a & _ & _ & _ & _ & _ & _ & Hn)
       |[(self & h & _ & _ & _ & _ & _ & _ & _ & Hn)|(self & _ & ->)]];
    [| |done].
  all: destruct Hn as [->|(name' & l & ->)]; [done|].
  all: apply lookup_insert_is_Some'; by right.
Qed.

(** X15.  A key of the dictionary [_by_name] is never deleted: once a name
    is a key it stays one through every later operation.  In particular
    the shutdown of the only hook of a name leaves the name in the
    dictionary, bound to the empty list. *)
Theorem by_name_keys_stay G s name :
  reachable G s →
  (is_Some (_by_name s !! name) →
   ∀ ops, is_Some (_by_name (run_from s ops) !! name))
  ∧ (_by_name s !! name = None →
     ∀ e template_name apply_to,
       let s1 := (TemplateHook_init e name template_name apply_to s).1 in
       let s2 := (shutdown (next_object s) s1).1 in
       _by_name s1 !! name = Some [next_object s]
       ∧ _by_name s2 !! name = Some []).
Proof.
  intros [Hreg Hby]%reachable_hooks_inv. split.
  - intros Hkey ops. by apply by_name_keys_run.
  - intros Hnone e tn ap s1 s2.
    destruct (hooks_inv_perform (NewTemplateHook e name tn ap) s Hreg Hby)
      as [Hreg1 Hby1].
    simpl perform in Hreg1, Hby1. rewrite perform_attach_state in Hreg1, Hby1.
    fold s1 in Hreg1, Hby1.
    assert (s1 = with_by_name <[name := [next_object s]]>
                   (constructed TemplateHook e (TemplateAttrs ap name tn) s))
      as Hs1.
    { unfold s1. rewrite TemplateHook_init_run. unfold by_name.
      by rewrite Hnone. }
    assert (_by_name s1 !! name = Some [next_object s]) as Hk1.
    { rewrite Hs1. simpl. apply lookup_insert_eq. }
    split; [done|].
    assert (heap s1 !! next_object s
            = Some {| cls := TemplateHook; extension := Some e;
                      initialized := Some true;
                      attrs := TemplateAttrs ap name tn |}) as Hh1.
    { rewrite Hs1. simpl. apply lookup_insert_eq. }
    unfold s2. rewrite (shutdown_run _ _ s1 Hreg1 Hby1 Hh1 eq_refl). simpl.
    rewrite lookup_insert_eq. unfold by_name. rewrite Hk1. simpl.
    by rewrite decide_True.
Qed.

Lemma extension_hooks_run_inv op s :
  registry_inv s → by_name_inv s →
  (∀ self h, heap s !! self = Some h →
     ∃ e, extension h = Some e
          ∧ self ∈ default ∅ (extension_hooks s !! e)) →
  ∀ self h, heap (perform op s).1 !! self = Some h →
    ∃ e, extension h = Some e
         ∧ self ∈ default ∅ (extension_hooks (perform op s).1 !! e).
Proof.
  intros Hreg Hby Hinv.
  destruct (perform_shape op s Hreg Hby)
    as [(c & e & a & _ & _ & -> & _ & _ & -> & _)
       |[(x & hx & _ & Hx & _ & -> & _ & _ & -> & _)|(x & _ & ->)]];
    [| |done].
  - intros self h. destruct (decide (self = next_object s)) as [->|Hne].
    + rewrite lookup_insert_eq. intros [= <-]. exists e. split; [done|].
      rewrite lookup_insert_eq. simpl. set_solver.
    + rewrite lookup_insert_ne by done. intros Hh.
      destruct (Hinv _ _ Hh) as (e' & He' & Hin). exists e'. split; [done|].
      destruct (decide (e' = e)) as [->|Hee].
      * rewrite lookup_insert_eq. simpl. set_solver.
      * by rewrite lookup_insert_ne.
  - intros self h. destruct (decide (self = x)) as [->|Hne].
    + rewrite lookup_alter_eq, Hx. simpl. intros [= <-]. simpl.
      by apply (Hinv x hx).
    + rewrite lookup_alter_ne by done. apply Hinv.
Qed.

(** X16.  [extension.hooks] only grows: after any run, every hook that was
    ever constructed is still in the [hooks] set of the extension it was
    constructed for, also after it has been shut down.  [shutdown] takes
    the hook out of the list of its class, never out of the set of its
    extension. *)
Theorem extension_hooks_keeps_every_hook G s self h :
  reachable G s →
  heap s !! self = Some h →
  ∃ e, extension h = Some e ∧ self ∈ default ∅ (extension_hooks s !! e).
Proof.
  intros Hs. revert self h.
  induction Hs as [|s op Hs IH Hop]; [done|].
  destruct (reachable_hooks_inv G s Hs) as [Hreg Hby].
  by apply extension_hooks_run_inv.
Qed.

Lemma add_columns_raise g cols s s' x :
  for_each cols (λ column, add_column g column) s = (s', Raise x) →
  x = ConfigurationError
  ∧ ∃ pre c post,
      cols = pre ++ c :: post
      ∧ s' = with_datagrid_columns
               (λ l, l ++ ((λ column, (g, column)) <$> pre)) s
      ∧ (g, column_id c) ∈ column_key <$> datagrid_columns s'.
Proof.
  revert s. induction cols as [|c cols IH]; intros s; simpl; [done|].
  unfold bind. rewrite add_column_run.
  destruct (decide _) as [Hin|Hout].
  - intros [= <- <-]. split; [done|]. exists [], c, cols.
    split; [done|]. split; [|done].
    destruct s. unfold with_datagrid_columns. simpl. by rewrite app_nil_r.
  - intros Hrun. destruct (IH _ Hrun) as (-> & pre & c' & post & -> & -> & Hin).
    split; [done|]. exists (c :: pre), c', post. split; [done|].
    split; [|done].
    unfold with_datagrid_columns. simpl. by rewrite <- app_assoc.
Qed.

(** X17.  A [DataGridColumnsHook] whose constructor raises while it adds
    its columns (the datagrid refuses one of them) is left attached all the
    same: the instance is in the [hooks] list of its class with
    [initialized] True and in the set of its extension, and the columns
    that come before the refused one stay added to the datagrid.  Nothing
    is rolled back, and the caller has no reference to shut the hook
    down. *)
Theorem failed_columns_hook_stays_attached e g cols s s' x :
  DataGridColumnsHook_init e g cols s = (s', Raise x) →
  x = ConfigurationError
  ∧ heap s' !! next_object s
    = Some {| cls := DataGridColumnsHook; extension := Some e;
              initialized := Some true;
              attrs := DataGridColumnsAttrs g cols |}
  ∧ hooks s' DataGridColumnsHook
    = hooks s DataGridColumnsHook ++ [next_object s]
  ∧ next_object s ∈ default ∅ (extension_hooks s' !! e)
  ∧ ∃ pre c post,
      cols = pre ++ c :: post
      ∧ datagrid_columns s'
        = datagrid_columns s ++ ((λ column, (g, column)) <$> pre)
      ∧ (g, column_id c) ∈ column_key <$> datagrid_columns s'.
Proof.
  rewrite DataGridColumnsHook_init_run. simpl.
  destruct (for_each cols _ _) as [s1 [[]|x1]] eqn:Hrun; simpl; [done|].
  intros [= -> ->].
  destruct (add_columns_raise _ _ _ _ _ Hrun)
    as (-> & pre & c & post & -> & -> & Hin).
  split; [done|]. simpl.
  split; [apply lookup_insert_eq|].
  split; [by rewrite fn_lookup_insert|].
  split; [rewrite lookup_insert_eq; simpl; by apply elem_of_union_l, elem_of_singleton|].
  by exists pre, c, post.
Qed.

(** X18.  After any run, shutting down a registered hook touches nothing
    but that hook: every other instance is as it was, the lists of the
    other classes and the sets of the extensions are unchanged, the list of
    its own class loses that one entry and keeps the order of the rest, the
    hook keeps its class, extension and attributes, and the collaborators
    of the other classes (routing table, signal bus, datagrid columns,
    [_by_name]) are left alone. *)
Theorem shutdown_touches_one_hook G s self h :
  reachable G s →
  heap s !! self = Some h →
  initialized h = Some true →
  let s' := (shutdown self s).1 in
  (∀ x, x ≠ self → heap s' !! x = heap s !! x)
  ∧ heap s' !! self = Some {| cls := cls h; extension := extension h;
                              initialized := Some false; attrs := attrs h |}
  ∧ (∀ c, c ≠ cls h → hooks s' c = hooks s c)
  ∧ hooks s' (cls h) = filter (λ x, x ≠ self) (hooks s (cls h))
  ∧ extension_hooks s' = extension_hooks s
  ∧ (cls h ≠ URLHook → dynamic_urls s' = dynamic_urls s)
  ∧ (cls h ≠ SignalHook → receivers s' = receivers s)
  ∧ (cls h ≠ DataGridColumnsHook → datagrid_columns s' = datagrid_columns s)
  ∧ (cls h ≠ TemplateHook → _by_name s' = _by_name s).
Proof.
  intros [Hreg Hby]%reachable_hooks_inv Hh Hi s'. subst s'.
  rewrite (shutdown_run self h s Hreg Hby Hh Hi).
  destruct (heap_constructed s Hreg _ _ Hh) as (_ & _ & Hok).
  assert (list_remove_first self (hooks s (cls h))
          = filter (λ x, x ≠ self) (hooks s (cls h))) as Hfilter.
  { apply list_remove_first_as_filter, (hooks_NoDup s Hreg). }
  destruct (attrs h) as [|g cols|ps|sig cb uid|ap name tn] eqn:Ha;
    destruct (cls h) eqn:Hc; try done; simpl.
  all: rewrite fn_lookup_insert, lookup_alter_eq, Hh; simpl.
  all: rewrite Ha, Hc.
  all: repeat split; try done.
  all: try (intros x Hx; by rewrite lookup_alter_ne).
  all: try (intros c' Hc'; by rewrite fn_lookup_insert_ne).
Qed.


Lemma hooks_sorted_perform op s c :
  registry_inv s → by_name_inv s →
  StronglySorted lt (hooks s c) →
  StronglySorted lt (hooks (perform op s).1 c).
Proof.
  intros Hreg Hby Hsorted.
  destruct (perform_shape op s Hreg Hby)
    as [(c' & e & a & _ & _ & _ & _ & -> & _)
       |[(x & hx & _ & _ & _ & _ & _ & -> & _)|(x & _ & ->)]];
    [| |done].
  - destruct (decide (c = c')) as [->|Hne].
    + rewrite fn_lookup_insert. apply StronglySorted_app.
      split; [|split; [done|repeat constructor]].
      intros x y Hx ->%list_elem_of_singleton.
      by apply (registered_below s c').
    + by rewrite fn_lookup_insert_ne.
  - destruct (decide (c = cls hx)) as [->|Hne].
    + rewrite fn_lookup_insert. by apply list_remove_first_sorted.
    + by rewrite fn_lookup_insert_ne.
Qed.

(** X20.  After any run, the [hooks] list of each class and the list
    [by_name] returns for each name hold their instances in the order in
    which these were constructed (instances are numbered as they are
    allocated), whatever was shut down in between: attaching appends, and
    shutting down removes without reordering. *)
Theorem hooks_in_attachment_order G s :
  reachable G s →
  (∀ c, StronglySorted lt (hooks s c))
  ∧ (∀ name, StronglySorted lt (by_name s name)).
Proof.
  intros Hs.
  assert (∀ c, StronglySorted lt (hooks s c)) as Hsorted.
  { induction Hs as [|s op Hs IH Hop]; intros c; [constructor|].
    destruct (reachable_hooks_inv G s Hs) as [Hreg Hby].
    by apply hooks_sorted_perform. }
  split; [done|]. intros name.
  destruct (reachable_hooks_inv G s Hs) as [_ Hby].
  rewrite (Hby name). by apply filter_sorted.
Qed.

Lemma shut_down_stays_perform op s self h :
  registry_inv s → by_name_inv s →
  heap s !! self = Some h →
  initialized h = Some false →
  ∃ h', heap (perform op s).1 !! self = Some h'
        ∧ initialized h' = Some false.
Proof.
  intros Hreg Hby Hh Hi.
  destruct (perform_shape op s Hreg Hby)
    as [(c' & e & a & _ & _ & -> & _)
       |[(x & hx & _ & Hx & Hxi & -> & _)|(x & _ & ->)]];
    [| |by exists h].
  - exists h. split; [|done]. rewrite lookup_insert_ne; [done|].
    intros <-. by rewrite (next_object_unallocated s Hreg) in Hh.
  - destruct (decide (self = x)) as [->|Hne].
    + rewrite lookup_alter_eq, Hx. simpl. by eexists.
    + exists h. by rewrite lookup_alter_ne.
Qed.

(** X21.  Shutting a hook down is final: after any run, a hook whose
    [initialized] flag is False keeps it False through every later run of
    operations, is in no [hooks] list, and every further [shutdown] of it
    raises [AssertionError] and changes nothing.  No operation attaches an
    existing instance again. *)
Theorem shutdown_is_final G s self h ops :
  reachable G s →
  heap s !! self = Some h →
  initialized h = Some false →
  let s' := run_from s ops in
  (∃ h', heap s' !! self = Some h' ∧ initialized h' = Some false)
  ∧ (∀ c, self ∉ hooks s' c)
  ∧ shutdown self s' = (s', Raise AssertionError).
Proof.
  intros [Hreg Hby]%reachable_hooks_inv Hh Hi s'. subst s'.
  revert s h Hreg Hby Hh Hi.
  induction ops as [|op ops IH]; intros s h Hreg Hby Hh Hi; simpl.
  - split; [by exists h|]. split.
    + intros c (h' & Hh' & _ & Hi')%(hooks_initialized s Hreg). congruence.
    + by apply (shutdown_twice self h).
  - destruct (hooks_inv_perform op s Hreg Hby) as [Hreg' Hby'].
    destruct (shut_down_stays_perform op s self h Hreg Hby Hh Hi)
      as (h' & Hh' & Hi').
    by apply (IH _ h').
Qed.

End more_hooks_properties.

(** ** The further properties on the sample data *)

Section more_samples.
Import Auth AuthSample Hooks HooksSample MoreSamples.

Lemma load_backend_cuts_at_last_dot_witness :
  load_backend modules (class_path "myapp.auth" "ApiKeyBackend") initial_globals
  = ({| _auth_backends := [api_key_backend]; rebuilds := 0 |}, Return tt).
Proof.
  exact (load_backend_cuts_at_last_dot modules "myapp.auth" "ApiKeyBackend"
           initial_globals eq_refl).
Defined.

Lemma load_backend_without_dot_cut_witness :
  load_backend modules "Backend" initial_globals
  = (initial_globals, Raise (ImproperlyConfigured_import "Backen")).
Proof.
  exact (load_backend_without_dot_cut modules "Backend" initial_globals eq_refl).
Defined.

Lemma sample_paths_resolve :
  Forall2 (resolves_to modules)
    ["djblets.webapi.auth.WebAPIBasicAuthBackend"; "myapp.auth.ApiKeyBackend"]
    [basic; api_key_backend].
Proof.
  repeat constructor.
  - exists "djblets.webapi.auth", "WebAPIBasicAuthBackend",
      {[ "WebAPIBasicAuthBackend" := basic ]}.
    repeat split; (reflexivity || discriminate).
  - exists "myapp.auth", "ApiKeyBackend", {[ "ApiKeyBackend" := api_key_backend ]}.
    repeat split; (reflexivity || discriminate).
Defined.

Lemma get_auth_backends_configured_order_witness :
  get_auth_backends two_backends modules initial_globals
  = ({| _auth_backends := [basic; api_key_backend]; rebuilds := 1 |},
     Return [basic; api_key_backend]).
Proof.
  apply (get_auth_backends_configured_order two_backends modules
           initial_globals
           ["djblets.webapi.auth.WebAPIBasicAuthBackend";
            "myapp.auth.ApiKeyBackend"]
           [basic; api_key_backend]);
    [reflexivity | reflexivity | apply sample_paths_resolve].
Defined.

Lemma get_auth_backends_failure_keeps_prefix_witness :
  let g1 := {| _auth_backends := [api_key_backend]; rebuilds := 1 |} in
  get_auth_backends missing_module modules initial_globals
  = (g1, Raise (ImproperlyConfigured_import "nowhere"))
  ∧ ([api_key_backend] ≠ [] →
     ∀ settings' modules',
       get_auth_backends settings' modules' g1
       = (g1, Return [api_key_backend]))
  ∧ ([api_key_backend] = [] →
     get_auth_backends missing_module modules g1
     = ({| _auth_backends := []; rebuilds := 2 |},
        Raise (ImproperlyConfigured_import "nowhere"))).
Proof.
  apply (get_auth_backends_failure_keeps_prefix missing_module modules
           initial_globals ["myapp.auth.ApiKeyBackend"] [api_key_backend]
           "nowhere" "Backend"
           ["djblets.webapi.auth.WebAPIBasicAuthBackend"]
           (ImproperlyConfigured_import "nowhere")).
  - reflexivity.
  - reflexivity.
  - repeat constructor.
    exists "myapp.auth", "ApiKeyBackend", {[ "ApiKeyBackend" := api_key_backend ]}.
    repeat split; (reflexivity || discriminate).
  - reflexivity.
  - discriminate.
  - left. split; reflexivity.
Defined.

Lemma login_with_credentials_success_witness :
  login_with_credentials provider bare_request "alice" "secret" anonymous
  = ({| user := LoggedIn alice;
        events :=
          [Log DEBUG "Attempting authentication on API for user alice";
           AuthAuthenticate "alice" "secret";
           AuthLogin alice] |},
     Return (true, None, None)).
Proof.
  apply (login_with_credentials_success provider bare_request "alice" "secret"
           anonymous alice).
  - intros [? _]. discriminate.
  - reflexivity.
  - reflexivity.
Defined.

Lemma basic_get_credentials_well_formed_witness :
  WebAPIBasicAuthBackend_get_credentials decode basic_request anonymous
  = (anonymous, Return (CredentialsDict "alice" "secret")).
Proof.
  apply (basic_get_credentials_well_formed decode basic_request anonymous
           "Basic" "YWxpY2U6c2VjcmV0" "alice" "secret"); reflexivity.
Defined.

Lemma basic_get_credentials_bad_spacing_witness :
  WebAPIBasicAuthBackend_get_credentials decode spaced_request anonymous
  = ({| user := AnonymousUser;
        events :=
          [Log WARNING
             "Failed to parse HTTP_AUTHORIZATION header Basic  YWxpY2U6c2VjcmV0"] |},
     Return NoCredentials).
Proof.
  apply (basic_get_credentials_bad_spacing decode spaced_request anonymous
           "Basic  YWxpY2U6c2VjcmV0"); [reflexivity | reflexivity |].
  vm_compute. discriminate.
Defined.

Lemma basic_get_credentials_no_colon_witness :
  WebAPIBasicAuthBackend_get_credentials decode token_request anonymous
  = ({| user := AnonymousUser;
        events :=
          [Log WARNING
             "Failed to parse HTTP_AUTHORIZATION header Token dG9rZW4="] |},
     Return NoCredentials).
Proof.
  apply (basic_get_credentials_no_colon decode token_request anonymous
           "Token" "dG9rZW4=" "token");
    [reflexivity | reflexivity | reflexivity | reflexivity | reflexivity |].
  right. reflexivity.
Defined.

Lemma check_login_undecodable_token_witness :
  check_login default_settings modules bearer_request
    ({| _auth_backends := [basic; api_key_backend]; rebuilds := 1 |},
     alice_session)
  = (({| _auth_backends := [basic; api_key_backend]; rebuilds := 1 |},
      alice_session),
     Raise binascii_Error).
Proof.
  apply (check_login_undecodable_token provider decode default_settings modules
           bearer_request
           {| _auth_backends := [basic; api_key_backend]; rebuilds := 1 |}
           alice_session [api_key_backend] "Bearer" "a.b.c"); reflexivity.
Defined.

Lemma check_login_backend_raises_witness :
  check_login default_settings modules basic_request
    ({| _auth_backends := [api_key_backend; broken_backend; basic];
        rebuilds := 1 |}, anonymous)
  = (({| _auth_backends := [api_key_backend; broken_backend; basic];
         rebuilds := 1 |}, anonymous),
     Raise NotImplementedError).
Proof.
  apply (check_login_backend_raises default_settings modules basic_request
           {| _auth_backends := [api_key_backend; broken_backend; basic];
              rebuilds := 1 |}
           anonymous [api_key_backend] broken_backend [basic]
           anonymous anonymous NotImplementedError).
  - by eexists.
  - reflexivity.
  - apply (all_decline_cons _ _ _ _ anonymous); [reflexivity|constructor].
  - reflexivity.
Defined.

Lemma check_login_basic_header_witness :
  ∃ b w',
    login_with_credentials provider basic_request "alice" "secret" anonymous
    = (w', Return (b, None, None))
    ∧ check_login default_settings modules basic_request
        ({| _auth_backends := [basic; api_key_backend]; rebuilds := 1 |},
         anonymous)
      = (({| _auth_backends := [basic; api_key_backend]; rebuilds := 1 |}, w'),
         Return (Some (b, None, None))).
Proof.
  apply (check_login_basic_header provider decode default_settings modules
           basic_request
           {| _auth_backends := [basic; api_key_backend]; rebuilds := 1 |}
           anonymous [api_key_backend] "YWxpY2U6c2VjcmV0" "alice" "secret");
    reflexivity.
Defined.

Lemma check_login_non_ascii_header_witness :
  WebAPIBasicAuthBackend_get_credentials decode latin_request alice_session
    = (alice_session, Raise UnicodeDecodeError)
  ∧ check_login default_settings modules latin_request
      ({| _auth_backends := [basic; api_key_backend]; rebuilds := 1 |},
       alice_session)
    = (({| _auth_backends := [basic; api_key_backend]; rebuilds := 1 |},
        alice_session),
       Raise UnicodeDecodeError).
Proof.
  apply (check_login_non_ascii_header provider decode default_settings modules
           latin_request
           {| _auth_backends := [basic; api_key_backend]; rebuilds := 1 |}
           alice_session [api_key_backend]
           ("Basic caf" +:+ String (ascii_of_nat 233) EmptyString));
    reflexivity.
Defined.

Lemma first_shut_down_reachable : reachable any_op first_shut_down.
Proof.
  apply reachable_run_from; [apply each_attached_reachable_any|].
  by repeat split.
Defined.

Lemma hooks_lists_initialized_witness :
  NoDup (hooks first_shut_down URLHook)
  ∧ ∀ self,
      self ∈ hooks first_shut_down URLHook ↔
      ∃ h, heap first_shut_down !! self = Some h
           ∧ cls h = URLHook ∧ initialized h = Some true.
Proof.
  apply (hooks_lists_initialized any_op first_shut_down URLHook),
    first_shut_down_reachable.
Defined.

Lemma by_name_lists_live_hooks_witness :
  NoDup (by_name each_attached "sidebar")
  ∧ ∀ self,
      self ∈ by_name each_attached "sidebar" ↔
      ∃ h apply_to template_name,
        heap each_attached !! self = Some h
        ∧ cls h = TemplateHook
        ∧ initialized h = Some true
        ∧ attrs h = TemplateAttrs apply_to "sidebar" template_name.
Proof.
  apply (by_name_lists_live_hooks clean each_attached "sidebar"),
    each_attached_reachable.
Defined.

Lemma by_name_keys_stay_witness :
  (is_Some (_by_name each_attached !! "footer") →
   ∀ ops, is_Some (_by_name (run_from each_attached ops) !! "footer"))
  ∧ (_by_name each_attached !! "footer" = None →
     ∀ e template_name apply_to,
       let s1 := (TemplateHook_init e "footer" template_name apply_to
                    each_attached).1 in
       let s2 := (shutdown (next_object each_attached) s1).1 in
       _by_name s1 !! "footer" = Some [next_object each_attached]
       ∧ _by_name s2 !! "footer" = Some []).
Proof.
  apply (by_name_keys_stay clean each_attached "footer"),
    each_attached_reachable.
Defined.

Lemma extension_hooks_keeps_every_hook_witness :
  ∃ e,
    extension {| cls := URLHook; extension := Some 1;
                 initialized := Some false; attrs := URLAttrs [10; 11] |}
    = Some e
    ∧ 0 ∈ default ∅ (extension_hooks first_shut_down !! e).
Proof.
  apply (extension_hooks_keeps_every_hook any_op first_shut_down 0);
    [apply first_shut_down_reachable | reflexivity].
Defined.

Lemma failed_columns_hook_stays_attached_witness :
  let s' := (DataGridColumnsHook_init 2 50 [votes; stars_again]
               each_attached).1 in
  ConfigurationError = ConfigurationError
  ∧ heap s' !! next_object each_attached
    = Some {| cls := DataGridColumnsHook; extension := Some 2;
              initialized := Some true;
              attrs := DataGridColumnsAttrs 50 [votes; stars_again] |}
  ∧ hooks s' DataGridColumnsHook
    = hooks each_attached DataGridColumnsHook ++ [next_object each_attached]
  ∧ next_object each_attached ∈ default ∅ (extension_hooks s' !! 2)
  ∧ ∃ pre c post,
      [votes; stars_again] = pre ++ c :: post
      ∧ datagrid_columns s'
        = datagrid_columns each_attached ++ ((λ column, (50, column)) <$> pre)
      ∧ (50, column_id c) ∈ column_key <$> datagrid_columns s'.
Proof.
  apply (failed_columns_hook_stays_attached 2 50 [votes; stars_again]
           each_attached).
  vm_compute. reflexivity.
Defined.

Lemma shutdown_touches_one_hook_witness :
  let h := {| cls := URLHook; extension := Some 1; initialized := Some true;
              attrs := URLAttrs [10; 11] |} in
  let s' := (shutdown 0 each_attached).1 in
  (∀ x, x ≠ 0 → heap s' !! x = heap each_attached !! x)
  ∧ heap s' !! 0 = Some {| cls := cls h; extension := extension h;
                           initialized := Some false; attrs := attrs h |}
  ∧ (∀ c, c ≠ cls h → hooks s' c = hooks each_attached c)
  ∧ hooks s' (cls h) = filter (λ x, x ≠ 0) (hooks each_attached (cls h))
  ∧ extension_hooks s' = extension_hooks each_attached
  ∧ (cls h ≠ URLHook → dynamic_urls s' = dynamic_urls each_attached)
  ∧ (cls h ≠ SignalHook → receivers s' = receivers each_attached)
  ∧ (cls h ≠ DataGridColumnsHook
     → datagrid_columns s' = datagrid_columns each_attached)
  ∧ (cls h ≠ TemplateHook → _by_name s' = _by_name each_attached).
Proof.
  apply (shutdown_touches_one_hook clean each_attached 0);
    [apply each_attached_reachable | reflexivity | reflexivity].
Defined.


Lemma hooks_in_attachment_order_witness :
  (∀ c, StronglySorted lt (hooks first_shut_down c))
  ∧ (∀ name, StronglySorted lt (by_name first_shut_down name)).
Proof.
  apply (hooks_in_attachment_order any_op first_shut_down),
    first_shut_down_reachable.
Defined.

Lemma shutdown_is_final_witness :
  let s' := run_from first_shut_down [NewURLHook 1 [10; 11]; Shutdown 0] in
  (∃ h', heap s' !! 0 = Some h' ∧ initialized h' = Some false)
  ∧ (∀ c, 0 ∉ hooks s' c)
  ∧ shutdown 0 s' = (s', Raise AssertionError).
Proof.
  apply (shutdown_is_final any_op first_shut_down 0
           {| cls := URLHook; extension := Some 1; initialized := Some false;
              attrs := URLAttrs [10; 11] |}
           [NewURLHook 1 [10; 11]; Shutdown 0]);
    [apply first_shut_down_reachable | reflexivity | reflexivity].
Defined.

(** A restricted hook applies to the pages of its list and to no other,
    named or not. *)
Example applies_to_restricted :
  applies_to restricted_hook (Some "page-b") = Return true
  ∧ applies_to restricted_hook (Some "page-c") = Return false
  ∧ applies_to restricted_hook None = Return false.
Proof. by repeat split. Qed.

End more_samples.
